(** * reminder_ai: the planning and dueness engine

    A shallow embedding of [planner.py], [jobs.py], [prioritizer.py],
    [storage.py] and of the evening check of [bot.py], with the properties
    of the scheduler, of the daily dueness check, of the two classifiers and
    of the carryover rule.

    Conventions of the embedding.
    - A [date] is its proleptic Gregorian ordinal, a [timedelta] a number of
      microseconds, and a [datetime] the number of microseconds that its
      wall-clock fields (date and time of day) stand for.  All the datetimes
      that one call handles carry the same [tzinfo] (the [tz] argument), and
      Python compares, subtracts and shifts such datetimes on their
      wall-clock fields alone.
    - The functions are first modelled by the values they return.  The
      exceptions of the library are added by [Range] (the years 1 to 9999
      of [datetime], and the days of [timedelta]), by [Sqlite] (the 64-bit
      integers and the UTF-8 text of a statement) and by [Handler] (the
      whole of [on_text]), each with the lemma that what it returns is what
      the first model gives.
    - Python's [int] is [Z]; a [str] is the list of its Unicode code
      points. *)

From Stdlib Require Import String Ascii.
From Stdlib Require Import ZArith List Bool Lia Sorted Permutation.
Import ListNotations.
Open Scope Z_scope.

(* ------------------------------------------------------------------ *)
(** * Dates, times of day and instants ([datetime]) *)

Module Datetime.

Definition date := Z.
Definition timedelta := Z.
Definition datetime := Z.

(** [zoneinfo.ZoneInfo], identified by its key. *)
Definition ZoneInfo := string.

Module time.
Record t := make
  { hour : Z; minute : Z; second : Z; microsecond : Z }.
End time.

Definition us_per_second : Z := 1000000.
Definition us_per_minute : Z := 60 * us_per_second.
Definition us_per_day : Z := 24 * 60 * us_per_minute.

(** [timedelta(minutes=n)]. *)
Definition minutes (n : Z) : timedelta := n * us_per_minute.

(** The time of day as an offset from midnight. *)
Definition time_offset (t : time.t) : timedelta :=
  ((time.hour t * 60 + time.minute t) * 60 + time.second t) * us_per_second
  + time.microsecond t.

(** [datetime.combine(day, t, tzinfo=tz)]. *)
Definition combine (day : date) (t : time.t) (tz : ZoneInfo) : datetime :=
  day * us_per_day + time_offset t.

(** [dt.date()]. *)
Definition date_of (dt : datetime) : date := dt / us_per_day.

(** [time(h, m)]. *)
Definition hm (h m : Z) : time.t := time.make h m 0 0.

(** [ZoneInfo("UTC")] and [date(2026, 1, 11)], the zone and the day of the
    repository's tests. *)
Definition UTC : ZoneInfo := "UTC"%string.
Definition date_2026_01_11 : date := 739627.

Lemma minutes_pos n : 0 < n -> 0 < minutes n.
Proof. unfold minutes, us_per_minute, us_per_second. lia. Qed.

Lemma minutes_nonneg n : 0 <= n -> 0 <= minutes n.
Proof. unfold minutes, us_per_minute, us_per_second. lia. Qed.

End Datetime.

(* ------------------------------------------------------------------ *)
(** * Python strings *)

Module PyStr.

Definition str := list Z.

(** The [str] of an ASCII literal. *)
Definition lit (s : string) : str :=
  List.map (fun c => Z.of_N (N_of_ascii c)) (list_ascii_of_string s).

(** [a == b] *)
Definition str_eqb (a b : str) : bool :=
  if list_eq_dec Z.eq_dec a b then true else false.

(** [c.isspace()]: the code points that [str.strip()] removes. *)
Definition isspace (c : Z) : bool :=
  (9 <=? c) && (c <=? 13) || (28 <=? c) && (c <=? 32)
  || (c =? 133) || (c =? 160) || (c =? 5760)
  || (8192 <=? c) && (c <=? 8202)
  || (c =? 8232) || (c =? 8233) || (c =? 8239) || (c =? 8287)
  || (c =? 12288).

Fixpoint lstrip (s : str) : str :=
  match s with
  | [] => []
  | c :: s' => if isspace c then lstrip s' else s
  end.

Definition rstrip (s : str) : str := rev (lstrip (rev s)).

(** [s.strip()] *)
Definition strip (s : str) : str := rstrip (lstrip s).

Definition is_ascii (c : Z) : bool := (0 <=? c) && (c <? 128).

Definition ascii_lower (c : Z) : Z :=
  if (65 <=? c) && (c <=? 90) then c + 32 else c.

(** [s.lower()].  On an ASCII string it maps the letters A to Z to a to z;
    on any other string it follows the case tables of Unicode, which are
    the parameter [unicode_lower]. *)
Definition lower (unicode_lower : str -> str) (s : str) : str :=
  if forallb is_ascii s then List.map ascii_lower s else unicode_lower s.

Lemma str_eqb_eq a b : str_eqb a b = true <-> a = b.
Proof.
  unfold str_eqb. destruct (list_eq_dec Z.eq_dec a b); split;
    congruence.
Qed.

Lemma lstrip_spaces_app w s :
  forallb isspace w = true -> lstrip (w ++ s) = lstrip s.
Proof.
  induction w as [|c w IH]; simpl; [reflexivity|].
  intros H. apply andb_true_iff in H. destruct H as [Hc Hw].
  rewrite Hc. auto.
Qed.

Lemma lstrip_spaces w : forallb isspace w = true -> lstrip w = [].
Proof.
  intros H. rewrite <- (app_nil_r w). now rewrite lstrip_spaces_app.
Qed.

(** Stripping removes the white space around a string that neither starts
    nor ends with white space. *)
Lemma strip_sandwich w1 s w2 :
  forallb isspace w1 = true -> forallb isspace w2 = true ->
  Forall (fun c => isspace c = false) s ->
  strip (w1 ++ s ++ w2) = s.
Proof.
  intros H1 H2 Hs. unfold strip, rstrip.
  rewrite lstrip_spaces_app by exact H1.
  assert (Hrev : forallb isspace (rev w2) = true).
  { rewrite forallb_forall in *. intros c Hc. apply H2. now apply in_rev. }
  assert (Hl : forall t, Forall (fun c => isspace c = false) t ->
                         forall u, t <> [] -> lstrip (t ++ u) = t ++ u).
  { intros [|c t] Ht u Hne; [congruence|]. simpl.
    inversion Ht; subst. now rewrite H3. }
  destruct s as [|c s].
  - simpl. rewrite (lstrip_spaces w2) by exact H2. reflexivity.
  - rewrite Hl by (assumption || discriminate).
    rewrite rev_app_distr, lstrip_spaces_app by exact Hrev.
    rewrite <- (app_nil_r (rev (c :: s))), Hl, app_nil_r, rev_involutive.
    + reflexivity.
    + now apply Forall_rev.
    + simpl. intros E. now apply app_eq_nil in E.
Qed.

End PyStr.

(* ------------------------------------------------------------------ *)
(** * models.py *)

Module Models.
Import Datetime PyStr.

Inductive Priority := URGENT | IMPORTANT | OPTIONAL.
Inductive TaskStatus := PENDING | DONE | SKIPPED.

Definition TaskStatus_eqb (p q : TaskStatus) : bool :=
  match p, q with
  | PENDING, PENDING | DONE, DONE | SKIPPED, SKIPPED => true
  | _, _ => false
  end.

Module Task.
Record t := make
  { id : Z;
    telegram_user_id : Z;
    title : str;
    created_at : datetime;
    day : date;
    estimated_minutes : Z;
    due_local_time : option time.t;
    priority : Priority;
    status : TaskStatus }.
End Task.

Module ScheduledBlock.
Record t := make
  { task_id : Z;
    title : str;
    start_local : datetime;
    end_local : datetime;
    priority : Priority }.
End ScheduledBlock.

End Models.

(* ------------------------------------------------------------------ *)
(** * Facts on sorted lists *)

Module ListFacts.
Section Facts.
Context {A : Type}.
Variable R : A -> A -> Prop.

Lemma StronglySorted_app_l (l1 l2 : list A) :
  StronglySorted R (l1 ++ l2) -> StronglySorted R l1.
Proof.
  induction l1 as [|a l1 IH]; simpl; intros H; [constructor|].
  apply StronglySorted_inv in H. destruct H as [Hs Ha].
  constructor; [now apply IH|].
  apply Forall_app in Ha. tauto.
Qed.

(** Two members of a sorted list are equal or related, one way or the
    other. *)
Lemma StronglySorted_pair (l : list A) a b :
  StronglySorted R l -> In a l -> In b l -> a = b \/ R a b \/ R b a.
Proof.
  induction 1 as [|x l Hs IH Hx]; simpl; [tauto|].
  rewrite Forall_forall in Hx.
  intros [Ea|Ha] [Eb|Hb]; subst; auto.
Qed.

End Facts.
End ListFacts.

(* ------------------------------------------------------------------ *)
(** * Python's [sorted(xs, key=...)]

    [sorted] is a stable sort: it returns the one permutation of its
    argument that is ascending on the key and keeps the elements of equal
    key in their input order.  [sorted_by] is the insertion sort that
    computes it, for a key order given as a boolean [leb]. *)

Module PySort.
Section Sort.
Context {A : Type}.
Variable leb : A -> A -> bool.

(** [x] goes in front of the first element that it does not follow. *)
Fixpoint insert (x : A) (l : list A) : list A :=
match l with
| [] => [x]
| y :: l' => if leb x y then x :: l else y :: insert x l'
end.

Fixpoint sorted_by (l : list A) : list A :=
match l with
| [] => []
| x :: l' => insert x (sorted_by l')
end.

Lemma insert_perm x l : Permutation (x :: l) (insert x l).
Proof.
induction l as [|y l IH]; simpl; [reflexivity|].
destruct (leb x y); [reflexivity|].
rewrite perm_swap. now constructor.
Qed.

Lemma sorted_by_perm l : Permutation l (sorted_by l).
Proof.
induction l as [|x l IH]; simpl; [constructor|].
rewrite <- insert_perm. now constructor.
Qed.

Lemma sorted_by_In x l : In x (sorted_by l) <-> In x l.
Proof.
split; apply Permutation_in;
  [symmetry|]; apply sorted_by_perm.
Qed.

Hypothesis leb_total : forall x y, leb x y = true \/ leb y x = true.
Hypothesis leb_trans :
forall x y z, leb x y = true -> leb y z = true -> leb x z = true.

Let le x y := leb x y = true.

Lemma insert_sorted x l :
StronglySorted le l -> StronglySorted le (insert x l).
Proof.
induction 1 as [|y l Hs IH Hy]; simpl.
- repeat constructor.
- destruct (leb x y) eqn:E.
  + constructor; [now constructor|].
    constructor; [exact E|].
    eapply Forall_impl; [|exact Hy].
    intros z Hz. unfold le in *. eauto.
  + constructor; [exact IH|].
    eapply Permutation_Forall; [apply insert_perm|].
    constructor; [|exact Hy].
    destruct (leb_total x y); unfold le; congruence.
Qed.

Lemma sorted_by_sorted l : StronglySorted le (sorted_by l).
Proof.
induction l; simpl; [constructor|now apply insert_sorted].
Qed.

(** Stability: the elements that a predicate [p] compatible with the key
  order selects come out in their input order. *)
Lemma insert_filter_stable (p : A -> bool) x l :
(forall y, In y l -> p x = true -> p y = true -> leb x y = true) ->
filter p (insert x l) = filter p (x :: l).
Proof.
induction l as [|y l IH]; intros H; simpl; [reflexivity|].
destruct (leb x y) eqn:E; [reflexivity|].
simpl. rewrite IH by (intros; apply H; simpl; auto).
simpl. destruct (p x) eqn:Px, (p y) eqn:Py; try reflexivity.
rewrite H in E; simpl; auto; discriminate.
Qed.

Lemma sorted_by_stable (p : A -> bool) l :
(forall x y, p x = true -> p y = true -> leb x y = true) ->
filter p (sorted_by l) = filter p l.
Proof.
intros H. induction l as [|x l IH]; simpl; [reflexivity|].
rewrite insert_filter_stable by (intros; now apply H).
simpl. now rewrite IH.
Qed.

End Sort.

(** The result depends on the order of the members of the list only. *)
Lemma insert_ext {A} (leb1 leb2 : A -> A -> bool) x l :
  (forall y, In y l -> leb1 x y = leb2 x y) ->
  insert leb1 x l = insert leb2 x l.
Proof.
  induction l as [|y l IH]; simpl; intros H; [reflexivity|].
  rewrite (H y) by auto. destruct (leb2 x y); [reflexivity|].
  f_equal. apply IH. auto.
Qed.

Lemma sorted_by_ext {A} (leb1 leb2 : A -> A -> bool) l :
  (forall x y, In x l -> In y l -> leb1 x y = leb2 x y) ->
  sorted_by leb1 l = sorted_by leb2 l.
Proof.
  induction l as [|x l IH]; simpl; intros H; [reflexivity|].
  rewrite IH by auto. apply insert_ext.
  intros y Hy. apply sorted_by_In in Hy. auto.
Qed.

End PySort.

(* ------------------------------------------------------------------ *)
(** * planner.py *)

Module Planner.
Import Datetime PyStr Models.

Module PlanWindow.
Record t := make
  { start_local : time.t;
    end_local : time.t;
    break_minutes : Z }.

(** The field defaults of the dataclass. *)
Definition default : t := make (hm 9 0) (hm 18 0) 5.
End PlanWindow.

Module PlanTask.
Record t := make
  { task_id : Z;
    title : str;
    estimated_minutes : Z;
    due_local_time : option time.t;
    priority : Priority }.
End PlanTask.

Definition prio_rank (p : Priority) : Z :=
  match p with URGENT => 0 | IMPORTANT => 1 | OPTIONAL => 2 end.

Definition due_rank (t : PlanTask.t) : Z * Z :=
  match PlanTask.due_local_time t with
  | None => (1, 0)
  | Some d => (0, time.hour d * 60 + time.minute d)
  end.

(** The sort key is a tuple [(int, (int, int), int, int)], and Python
    orders tuples lexicographically. *)
Definition key := (Z * (Z * Z) * Z * Z)%type.

Definition sort_key (t : PlanTask.t) : key :=
  (prio_rank (PlanTask.priority t), due_rank t,
   PlanTask.estimated_minutes t, PlanTask.task_id t).

Definition key_ltb (a b : key) : bool :=
  let '(p1, (d1, m1), e1, i1) := a in
  let '(p2, (d2, m2), e2, i2) := b in
  (p1 <? p2) || (p1 =? p2) &&
  ((d1 <? d2) || (d1 =? d2) &&
  ((m1 <? m2) || (m1 =? m2) &&
  ((e1 <? e2) || (e1 =? e2) && (i1 <? i2)))).

(** [a <= b] on keys: [sorted] puts [x] before a later [y] unless
    [key y < key x]. *)
Definition key_leb (a b : key) : bool := negb (key_ltb b a).

Definition key_le (a b : key) : Prop := key_leb a b = true.

(** [sorted(tasks, key=...)] *)
Definition ordered_by (k : PlanTask.t -> key) (tasks : list PlanTask.t) :
  list PlanTask.t :=
  PySort.sorted_by (fun x y => key_leb (k x) (k y)) tasks.

(** [timedelta(minutes=max(1, int(t.estimated_minutes)))] *)
Definition duration (t : PlanTask.t) : timedelta :=
  minutes (Z.max 1 (PlanTask.estimated_minutes t)).

(** [timedelta(minutes=max(0, int(window.break_minutes)))] *)
Definition break_of (window : PlanWindow.t) : timedelta :=
  minutes (Z.max 0 (PlanWindow.break_minutes window)).

Definition block_at (cur : datetime) (t : PlanTask.t) : ScheduledBlock.t :=
  ScheduledBlock.make (PlanTask.task_id t) (PlanTask.title t)
    cur (cur + duration t) (PlanTask.priority t).

(** The [for t in ordered] loop, with its two [break]s; [cur] and
    [blocks] are the loop's variables. *)
Fixpoint place (end_dt : datetime) (brk : timedelta)
    (ordered : list PlanTask.t) (cur : datetime)
    (blocks : list ScheduledBlock.t) : list ScheduledBlock.t :=
  match ordered with
  | [] => blocks
  | t :: rest =>
      let dur := duration t in
      if cur + dur >? end_dt then blocks
      else
        let block := block_at cur t in
        let blocks := blocks ++ [block] in
        let cur := ScheduledBlock.end_local block + brk in
        if cur >=? end_dt then blocks
        else place end_dt brk rest cur blocks
  end.

(** [build_schedule], by the list it returns; [Range.build_schedule] adds
    the [OverflowError] of an addition that leaves the years 1 to 9999. *)
Definition build_schedule (day : date) (tz : ZoneInfo)
    (tasks : list PlanTask.t) (window : PlanWindow.t) :
    list ScheduledBlock.t :=
  let start_dt := combine day (PlanWindow.start_local window) tz in
  let end_dt := combine day (PlanWindow.end_local window) tz in
  let ordered := ordered_by sort_key tasks in
  place end_dt (break_of window) ordered start_dt [].

(** [next_occurrence_local] *)
Definition next_occurrence_local (day : date) (when_local : time.t)
    (tz : ZoneInfo) : datetime :=
  combine day when_local tz.

(** ** The order of the keys *)

Definition key_lt (a b : key) : Prop :=
  let '(p1, (d1, m1), e1, i1) := a in
  let '(p2, (d2, m2), e2, i2) := b in
  p1 < p2 \/ p1 = p2 /\
  (d1 < d2 \/ d1 = d2 /\
  (m1 < m2 \/ m1 = m2 /\
  (e1 < e2 \/ e1 = e2 /\ i1 < i2))).

Lemma key_ltb_spec a b : key_ltb a b = true <-> key_lt a b.
Proof.
  destruct a as [[[p1 [d1 m1]] e1] i1], b as [[[p2 [d2 m2]] e2] i2].
  unfold key_ltb, key_lt.
  repeat (rewrite orb_true_iff || rewrite andb_true_iff).
  rewrite !Z.ltb_lt, !Z.eqb_eq. tauto.
Qed.

Lemma key_le_spec a b : key_le a b <-> ~ key_lt b a.
Proof.
  unfold key_le, key_leb. rewrite negb_true_iff, <- key_ltb_spec.
  destruct (key_ltb b a); split; congruence.
Qed.

Lemma key_le_total a b : key_le a b \/ key_le b a.
Proof.
  rewrite !key_le_spec.
  destruct a as [[[p1 [d1 m1]] e1] i1], b as [[[p2 [d2 m2]] e2] i2].
  unfold key_lt. lia.
Qed.

Lemma key_le_trans a b c : key_le a b -> key_le b c -> key_le a c.
Proof.
  rewrite !key_le_spec.
  destruct a as [[[p1 [d1 m1]] e1] i1], b as [[[p2 [d2 m2]] e2] i2],
    c as [[[p3 [d3 m3]] e3] i3].
  unfold key_lt. lia.
Qed.

Lemma key_le_prio a b : key_le a b -> fst (fst (fst a)) <= fst (fst (fst b)).
Proof.
  rewrite key_le_spec.
  destruct a as [[[p1 [d1 m1]] e1] i1], b as [[[p2 [d2 m2]] e2] i2].
  unfold key_lt. simpl. lia.
Qed.

Section Ordered.
Variable k : PlanTask.t -> key.

Lemma ordered_by_perm tasks : Permutation tasks (ordered_by k tasks).
Proof. apply PySort.sorted_by_perm. Qed.

Lemma ordered_by_sorted tasks :
  StronglySorted (fun x y => key_le (k x) (k y)) (ordered_by k tasks).
Proof.
  apply (PySort.sorted_by_sorted (fun x y => key_leb (k x) (k y))).
  - intros x y. apply key_le_total.
  - intros x y z. apply key_le_trans.
Qed.

(** Tasks of one key keep their input order. *)
Lemma ordered_by_stable (k0 : key) tasks :
  let same t := key_leb (k t) k0 && key_leb k0 (k t) in
  filter same (ordered_by k tasks) = filter same tasks.
Proof.
  intros same. apply PySort.sorted_by_stable.
  intros x y Hx Hy. unfold same in *.
  apply andb_true_iff in Hx, Hy.
  eapply key_le_trans; [apply Hx|apply Hy].
Qed.
End Ordered.

(** ** The placement walk *)

Section Walk.
Variable end_dt : datetime.
Variable brk : timedelta.

(** The blocks of the tasks of [l], laid out one after the other from
    [cur], with the break after each. *)
Fixpoint blocks_from (cur : datetime) (l : list PlanTask.t) :
  list ScheduledBlock.t :=
  match l with
  | [] => []
  | t :: rest => block_at cur t :: blocks_from (cur + duration t + brk) rest
  end.

(** The cursor after the tasks of [l] have been placed from [cur]. *)
Fixpoint cursor_after (cur : datetime) (l : list PlanTask.t) : datetime :=
  match l with
  | [] => cur
  | t :: rest => cursor_after (cur + duration t + brk) rest
  end.

(** The longest prefix of [l] every task of which ends in the window
    when the prefix is laid out from [cur]. *)
Fixpoint fitting (cur : datetime) (l : list PlanTask.t) :
  list PlanTask.t :=
  match l with
  | [] => []
  | t :: rest =>
      if cur + duration t >? end_dt then []
      else t :: fitting (cur + duration t + brk) rest
  end.

Lemma duration_pos t : 0 < duration t.
Proof. apply minutes_pos. lia. Qed.

Lemma place_acc l : forall cur acc,
  place end_dt brk l cur acc = acc ++ place end_dt brk l cur [].
Proof.
  induction l as [|t rest IH]; intros cur acc; simpl.
  - now rewrite app_nil_r.
  - destruct (cur + duration t >? end_dt); [now rewrite app_nil_r|].
    destruct (cur + duration t + brk >=? end_dt); [reflexivity|].
    rewrite (IH _ (acc ++ _)), (IH _ [_]). now rewrite app_assoc.
Qed.

Lemma fitting_past_end l cur : end_dt <= cur -> fitting cur l = [].
Proof.
  destruct l as [|t rest]; simpl; [reflexivity|]. intros H.
  pose proof (duration_pos t).
  destruct (Z.gtb_spec (cur + duration t) end_dt); [reflexivity|lia].
Qed.

(** The loop places exactly the longest fitting prefix: its second
    [break] only leaves the loop where the first one would. *)
Lemma place_fitting l : forall cur,
  place end_dt brk l cur [] = blocks_from cur (fitting cur l).
Proof.
  induction l as [|t rest IH]; intros cur; simpl; [reflexivity|].
  destruct (cur + duration t >? end_dt); [reflexivity|]. simpl.
  destruct (Z.geb_spec (cur + duration t + brk) end_dt) as [H|H].
  - now rewrite fitting_past_end.
  - rewrite place_acc, IH. reflexivity.
Qed.

Lemma fitting_prefix l : forall cur,
  exists rest, l = fitting cur l ++ rest.
Proof.
  induction l as [|t l IH]; intros cur; simpl; [now exists []|].
  destruct (cur + duration t >? end_dt); [now exists (t :: l)|].
  destruct (IH (cur + duration t + brk)) as [rest E].
  exists rest. simpl. now rewrite <- E.
Qed.

Lemma blocks_from_made l : forall cur,
  Forall2 (fun t b => b = block_at (ScheduledBlock.start_local b) t)
    l (blocks_from cur l).
Proof.
  induction l; intros cur; simpl; constructor; auto.
Qed.

Lemma blocks_from_In b l : forall cur,
  In b (blocks_from cur l) ->
  exists t, In t l /\ b = block_at (ScheduledBlock.start_local b) t.
Proof.
  induction l as [|t l IH]; simpl; intros cur H; [contradiction|].
  destruct H as [H|H]; subst.
  - exists t. auto.
  - destruct (IH _ H) as (u & Hu & E). exists u. auto.
Qed.

Lemma fitting_in_window l : forall cur,
  0 <= brk ->
  Forall (fun b => cur <= ScheduledBlock.start_local b
                   /\ ScheduledBlock.start_local b
                      < ScheduledBlock.end_local b
                   /\ ScheduledBlock.end_local b <= end_dt)
    (blocks_from cur (fitting cur l)).
Proof.
  induction l as [|t l IH]; intros cur Hb; simpl; [constructor|].
  pose proof (duration_pos t).
  destruct (Z.gtb_spec (cur + duration t) end_dt); simpl; constructor.
  - simpl. lia.
  - eapply Forall_impl; [|apply IH; exact Hb]. simpl. intros b. lia.
Qed.

Lemma blocks_from_lower l : forall cur,
  0 <= brk ->
  Forall (fun b => cur <= ScheduledBlock.start_local b)
    (blocks_from cur l).
Proof.
  induction l as [|t l IH]; intros cur Hb; simpl; constructor.
  - simpl. lia.
  - pose proof (duration_pos t).
    eapply Forall_impl; [|apply IH; exact Hb]. simpl. intros b. lia.
Qed.

(** Laid out blocks start one after the other, each after the end of
    those before it. *)
Lemma blocks_from_sorted l : forall cur,
  0 <= brk ->
  StronglySorted
    (fun a b => ScheduledBlock.start_local a < ScheduledBlock.start_local b
                /\ ScheduledBlock.end_local a
                   <= ScheduledBlock.start_local b)
    (blocks_from cur l).
Proof.
  induction l as [|t l IH]; intros cur Hb; simpl; constructor; auto.
  pose proof (duration_pos t).
  eapply Forall_impl; [|apply blocks_from_lower; exact Hb].
  simpl. intros b. lia.
Qed.

Lemma fitting_app_misfit pre t post : forall cur,
  cursor_after cur pre + duration t > end_dt ->
  fitting cur (pre ++ t :: post) = fitting cur pre.
Proof.
  induction pre as [|u pre IH]; intros cur H; simpl in *.
  - destruct (Z.gtb_spec (cur + duration t) end_dt); [reflexivity|lia].
  - destruct (cur + duration u >? end_dt); [reflexivity|].
    now rewrite IH.
Qed.

Lemma fitting_all pre : forall cur,
  (forall p1 u p2, pre = p1 ++ u :: p2 ->
                   cursor_after cur p1 + duration u <= end_dt) ->
  fitting cur pre = pre.
Proof.
  induction pre as [|u pre IH]; intros cur H; simpl; [reflexivity|].
  pose proof (H [] u pre eq_refl) as H0. simpl in H0.
  destruct (Z.gtb_spec (cur + duration u) end_dt); [lia|].
  rewrite IH; [reflexivity|].
  intros p1 v p2 E. apply (H (u :: p1) v p2). now rewrite E.
Qed.

End Walk.

Lemma break_of_nonneg window : 0 <= break_of window.
Proof. apply minutes_nonneg. lia. Qed.

(** [build_schedule] lays out the longest fitting prefix of the sorted
    tasks. *)
Lemma build_schedule_fitting day tz tasks window :
  build_schedule day tz tasks window =
  blocks_from (break_of window)
    (combine day (PlanWindow.start_local window) tz)
    (fitting (combine day (PlanWindow.end_local window) tz)
       (break_of window)
       (combine day (PlanWindow.start_local window) tz)
       (ordered_by sort_key tasks)).
Proof. apply place_fitting. Qed.

(** ** The test of the repository and the saturation example *)

Definition three_tasks : list PlanTask.t :=
  [ PlanTask.make 1 (lit "Optional") 30 None OPTIONAL;
    PlanTask.make 2 (lit "Urgent") 30 None URGENT;
    PlanTask.make 3 (lit "Important") 30 None IMPORTANT ].

Example test_schedule_orders_urgent_before_optional :
  List.map
    (fun b => (ScheduledBlock.task_id b,
               ScheduledBlock.start_local b
               - combine date_2026_01_11 (hm 0 0) UTC))
    (build_schedule date_2026_01_11 UTC three_tasks PlanWindow.default)
  = [ (2, time_offset (hm 9 0));
      (3, time_offset (hm 9 35));
      (1, time_offset (hm 10 10)) ].
Proof. reflexivity. Qed.

(** ** Order, window and priority of the emitted blocks *)

Definition starts_before (a b : ScheduledBlock.t) : Prop :=
  ScheduledBlock.start_local a < ScheduledBlock.start_local b.

(** The intervals [[start, end)] of [a] and [b] have no instant in common. *)
Definition disjoint (a b : ScheduledBlock.t) : Prop :=
  ScheduledBlock.end_local a <= ScheduledBlock.start_local b
  \/ ScheduledBlock.end_local b <= ScheduledBlock.start_local a.

(** [b] is the block of task [t], at the start time it has. *)
Definition block_of (t : PlanTask.t) (b : ScheduledBlock.t) : Prop :=
  b = block_at (ScheduledBlock.start_local b) t.

Lemma blocks_from_prio_sorted brk l : forall cur,
  0 <= brk ->
  StronglySorted (fun x y => key_le (sort_key x) (sort_key y)) l ->
  StronglySorted
    (fun a b => starts_before a b
                /\ prio_rank (ScheduledBlock.priority a)
                   <= prio_rank (ScheduledBlock.priority b))
    (blocks_from brk cur l).
Proof.
  induction l as [|t l IH]; intros cur Hb Hs; simpl; [constructor|].
  apply StronglySorted_inv in Hs. destruct Hs as [Hs Ht].
  constructor; [now apply IH|].
  rewrite Forall_forall in *. intros b Hb'.
  pose proof (blocks_from_lower brk l (cur + duration t + brk) Hb) as Hlow.
  rewrite Forall_forall in Hlow. specialize (Hlow b Hb').
  destruct (blocks_from_In _ _ _ _ Hb') as (u & Hu & E).
  pose proof (duration_pos t). split.
  - unfold starts_before. simpl. lia.
  - rewrite E. simpl. apply (key_le_prio _ _ (Ht u Hu)).
Qed.

(** C1. Whatever the day, the zone, the tasks and the window, the blocks of
    [build_schedule] come in strictly increasing start time, each ending
    before the next ones start (so that they are pairwise disjoint); each
    lies within the window; each is the block of a task of the input; and
    a block of strictly higher priority (lower rank) than another one does
    not start after it. *)
Theorem build_schedule_ordering_invariant
    (day : date) (tz : ZoneInfo) (tasks : list PlanTask.t)
    (window : PlanWindow.t) :
  StronglySorted
    (fun a b => starts_before a b
                /\ ScheduledBlock.end_local a <= ScheduledBlock.start_local b
                /\ disjoint a b)
    (build_schedule day tz tasks window)
  /\ Forall
       (fun b => combine day (PlanWindow.start_local window) tz
                 <= ScheduledBlock.start_local b
                 /\ ScheduledBlock.start_local b < ScheduledBlock.end_local b
                 /\ ScheduledBlock.end_local b
                    <= combine day (PlanWindow.end_local window) tz)
       (build_schedule day tz tasks window)
  /\ Forall (fun b => exists t, In t tasks /\ block_of t b)
       (build_schedule day tz tasks window)
  /\ forall a b,
       In a (build_schedule day tz tasks window) ->
       In b (build_schedule day tz tasks window) ->
       prio_rank (ScheduledBlock.priority a)
       < prio_rank (ScheduledBlock.priority b) ->
       ScheduledBlock.start_local a <= ScheduledBlock.start_local b.
Proof.
  rewrite build_schedule_fitting.
  set (start_dt := combine day (PlanWindow.start_local window) tz).
  set (end_dt := combine day (PlanWindow.end_local window) tz).
  set (brk := break_of window).
  pose proof (break_of_nonneg window) as Hb. fold brk in Hb.
  set (ordered := ordered_by sort_key tasks).
  destruct (fitting_prefix end_dt brk ordered start_dt) as [rest E].
  set (placed := fitting end_dt brk start_dt ordered) in *.
  repeat split.
  - eapply StronglySorted_ind with (P := StronglySorted _);
      [constructor| |apply (blocks_from_sorted brk placed start_dt Hb)].
    intros a l _ IH Ha. constructor; [exact IH|].
    eapply Forall_impl; [|exact Ha]. unfold starts_before, disjoint.
    simpl. intros b. lia.
  - apply fitting_in_window. exact Hb.
  - rewrite Forall_forall. intros b Hin.
    destruct (blocks_from_In _ _ _ _ Hin) as (t & Ht & Hbt).
    exists t. split; [|exact Hbt].
    apply (PySort.sorted_by_In (fun x y => key_leb (sort_key x) (sort_key y))).
    fold (ordered_by sort_key tasks). fold ordered. rewrite E.
    apply in_or_app. now left.
  - intros a b Ha Hin Hlt.
    assert (Hs : StronglySorted
                   (fun x y => key_le (sort_key x) (sort_key y)) placed).
    { apply ListFacts.StronglySorted_app_l with (l2 := rest).
      rewrite <- E. apply ordered_by_sorted. }
    pose proof (blocks_from_prio_sorted brk placed start_dt Hb Hs) as Hp.
    destruct (ListFacts.StronglySorted_pair _ _ a b Hp Ha Hin)
      as [Eab|[[H1 H2]|[H1 H2]]]; unfold starts_before in *; subst; lia.
Qed.

(** ** The sort order *)

(** The emitted blocks are the blocks of a prefix of [ordered], one block
    per task and in the same order. *)
Definition emits_prefix_of (ordered : list PlanTask.t)
    (blocks : list ScheduledBlock.t) : Prop :=
  exists placed rest,
    ordered = placed ++ rest /\ Forall2 block_of placed blocks.

(** The due-time rank as the specification words it: a task with a due
    time before a task without one, and the earlier due time first. *)
Definition spec_due_rank (t : PlanTask.t) : Z * Z :=
  match PlanTask.due_local_time t with
  | None => (1, 0)
  | Some d => (0, time_offset d)
  end.

(** The composite key of the specification. *)
Definition spec_key (t : PlanTask.t) : key :=
  (prio_rank (PlanTask.priority t), spec_due_rank t,
   PlanTask.estimated_minutes t, PlanTask.task_id t).

(** Two tasks of one priority, due at 10:00:10 and at 10:00:30. *)
Definition two_due_tasks : list PlanTask.t :=
  [ PlanTask.make 1 (lit "A") 60 (Some (time.make 10 0 10 0)) IMPORTANT;
    PlanTask.make 2 (lit "B") 30 (Some (time.make 10 0 30 0)) IMPORTANT ].

Lemma build_schedule_emits_prefix day tz tasks window :
  emits_prefix_of (ordered_by sort_key tasks)
    (build_schedule day tz tasks window).
Proof.
  rewrite build_schedule_fitting.
  destruct (fitting_prefix (combine day (PlanWindow.end_local window) tz)
              (break_of window) (ordered_by sort_key tasks)
              (combine day (PlanWindow.start_local window) tz)) as [rest E].
  eexists _, rest. split; [exact E|]. apply blocks_from_made.
Qed.

(** The order on the specification's key is the order that the code sorts
    by as soon as the due times are whole minutes. *)
Lemma spec_key_agrees_on_whole_minutes tasks :
  (forall t d, In t tasks -> PlanTask.due_local_time t = Some d ->
               time.second d = 0 /\ time.microsecond d = 0) ->
  ordered_by spec_key tasks = ordered_by sort_key tasks.
Proof.
  intros H. apply PySort.sorted_by_ext. intros x y Hx Hy.
  unfold key_leb. f_equal. apply eq_true_iff_eq.
  rewrite !key_ltb_spec.
  unfold spec_key, sort_key, spec_due_rank, due_rank, key_lt.
  pose proof (H x) as Hx'. pose proof (H y) as Hy'.
  unfold time_offset, us_per_second.
  destruct (PlanTask.due_local_time x) as [dx|],
           (PlanTask.due_local_time y) as [dy|];
    try (destruct (Hx' dx Hx eq_refl) as [Sx Ux]);
    try (destruct (Hy' dy Hy eq_refl) as [Sy Uy]); lia.
Qed.

(** C2, as stated, fails: the task due at 10:00:10 is sorted after the one
    due at 10:00:30, which is shorter, so that the emitted blocks are no
    prefix of the tasks sorted on the specification's key. *)
Lemma build_schedule_ignores_due_seconds :
  List.map ScheduledBlock.task_id
    (build_schedule date_2026_01_11 UTC two_due_tasks PlanWindow.default)
  = [2; 1]
  /\ List.map PlanTask.task_id (ordered_by spec_key two_due_tasks) = [1; 2]
  /\ ~ emits_prefix_of (ordered_by spec_key two_due_tasks)
         (build_schedule date_2026_01_11 UTC two_due_tasks PlanWindow.default).
Proof.
  split; [reflexivity|]. split; [reflexivity|].
  intros (placed & rest & E & H).
  remember (build_schedule date_2026_01_11 UTC two_due_tasks
              PlanWindow.default) as blocks eqn:Eb.
  vm_compute in Eb. vm_compute in E. subst blocks.
  inversion H as [|t b l l' Hb Hl]; subst.
  injection E as Et _. subst t.
  unfold block_of in Hb. vm_compute in Hb. discriminate Hb.
Qed.

(** C2, amended. [build_schedule] sorts the tasks ascending on the key
    (priority rank; due-time rank, [(0, hour * 60 + minute)] for a task
    with a due time and [(1, 0)] for one without; estimated minutes; task
    id), compared lexicographically, tasks of one key staying in their
    input order; and the emitted blocks are the blocks of a prefix of that
    sorted list.  The due time counts by its hour and minute only. *)
Theorem build_schedule_emits_sorted_prefix
    (day : date) (tz : ZoneInfo) (tasks : list PlanTask.t)
    (window : PlanWindow.t) :
  Permutation tasks (ordered_by sort_key tasks)
  /\ StronglySorted (fun x y => ~ key_lt (sort_key y) (sort_key x))
       (ordered_by sort_key tasks)
  /\ (forall k0 : key,
        filter (fun t => key_leb (sort_key t) k0 && key_leb k0 (sort_key t))
          (ordered_by sort_key tasks)
        = filter (fun t => key_leb (sort_key t) k0 && key_leb k0 (sort_key t))
            tasks)
  /\ (forall t,
        sort_key t
        = (match PlanTask.priority t with
           | URGENT => 0 | IMPORTANT => 1 | OPTIONAL => 2
           end,
           match PlanTask.due_local_time t with
           | Some d => (0, time.hour d * 60 + time.minute d)
           | None => (1, 0)
           end,
           PlanTask.estimated_minutes t, PlanTask.task_id t))
  /\ emits_prefix_of (ordered_by sort_key tasks)
       (build_schedule day tz tasks window).
Proof.
  split; [apply ordered_by_perm|].
  split.
  { eapply StronglySorted_ind with (P := StronglySorted _);
      [constructor| |apply (ordered_by_sorted sort_key tasks)].
    intros a l _ IH Ha. constructor; [exact IH|].
    eapply Forall_impl; [|exact Ha]. intros b. apply key_le_spec. }
  split; [intros k0; apply (ordered_by_stable sort_key k0 tasks)|].
  split.
  { intros t. unfold sort_key, due_rank, prio_rank.
    destruct (PlanTask.due_local_time t); reflexivity. }
  apply build_schedule_emits_prefix.
Qed.

(** ** Where the walk stops *)

Lemma build_schedule_misfit day tz tasks window pre t post :
  ordered_by sort_key tasks = pre ++ t :: post ->
  cursor_after (break_of window)
    (combine day (PlanWindow.start_local window) tz) pre + duration t
  > combine day (PlanWindow.end_local window) tz ->
  build_schedule day tz tasks window
  = blocks_from (break_of window)
      (combine day (PlanWindow.start_local window) tz)
      (fitting (combine day (PlanWindow.end_local window) tz)
         (break_of window)
         (combine day (PlanWindow.start_local window) tz) pre).
Proof.
  intros E H. rewrite build_schedule_fitting, E.
  now rewrite fitting_app_misfit.
Qed.

Lemma build_schedule_empty_window day tz tasks window :
  combine day (PlanWindow.end_local window) tz
  <= combine day (PlanWindow.start_local window) tz ->
  build_schedule day tz tasks window = [].
Proof.
  intros H. rewrite build_schedule_fitting.
  now rewrite fitting_past_end.
Qed.

(** A long urgent task, an important one that no longer fits, and a short
    optional one that would. *)
Definition misfit_tasks : list PlanTask.t :=
  [ PlanTask.make 1 (lit "short") 10 None OPTIONAL;
    PlanTask.make 2 (lit "second") 300 None IMPORTANT;
    PlanTask.make 3 (lit "first") 300 None URGENT ].

Example misfit_tasks_schedule :
  List.map ScheduledBlock.task_id
    (build_schedule date_2026_01_11 UTC misfit_tasks PlanWindow.default)
  = [3].
Proof. reflexivity. Qed.

(** The window-exhaustion example: 600 minutes in the default window of
    540. *)
Example window_exhaustion :
  build_schedule date_2026_01_11 UTC
    [PlanTask.make 1 (lit "long") 600 None URGENT] PlanWindow.default = [].
Proof. reflexivity. Qed.

End Planner.

(* ------------------------------------------------------------------ *)
(** * Exceptions *)

Module Raising.

(** The exceptions of the calls that are modelled with what they raise. *)
Inductive exn :=
| OverflowError
| ValueError
| UnicodeEncodeError
| OperationalError
| OtherError (name : string).

(** What a call ends with: the value it returns, or the exception it
    raises. *)
Inductive result (A : Type) : Type :=
| Ok (a : A)
| Raise (e : exn).

Arguments Ok {A} a.
Arguments Raise {A} e.

Definition bind {A B} (c : result A) (k : A -> result B) : result B :=
  match c with
  | Ok a => k a
  | Raise e => Raise e
  end.

Notation "x <- c ;; k" := (bind c (fun x => k))
  (at level 61, c at next level, right associativity).

End Raising.

(* ------------------------------------------------------------------ *)
(** * planner.py: [build_schedule] with the range of [datetime] *)

Module Range.
Import Datetime PyStr Models Planner Raising.

(** [date.min.toordinal()] and [date.max.toordinal()]: the first day of
    year 1 and the last day of year 9999. *)
Definition min_ordinal : Z := 1.
Definition max_ordinal : Z := 3652059.

(** [timedelta.max.days] *)
Definition max_days : Z := 999999999.

(** The values that the constructors of [date] and of [time] accept. *)
Definition is_date (day : date) : Prop := min_ordinal <= day <= max_ordinal.

Definition is_time (t : time.t) : Prop :=
  0 <= time.hour t < 24 /\ 0 <= time.minute t < 60
  /\ 0 <= time.second t < 60 /\ 0 <= time.microsecond t < 1000000.

(** [timedelta(minutes=n)]: [OverflowError] for more than [max_days]
    days. *)
Definition timedelta_minutes (n : Z) : result timedelta :=
  if Z.abs (n / (24 * 60)) <=? max_days then Ok (minutes n)
  else Raise OverflowError.

(** [dt + delta]: [OverflowError] when the sum is a day outside years 1 to
    9999. *)
Definition plus (dt : datetime) (delta : timedelta) : result datetime :=
  let sum := dt + delta in
  if (min_ordinal <=? date_of sum) && (date_of sum <=? max_ordinal)
  then Ok sum
  else Raise OverflowError.

(** The [for t in ordered] loop, with the exceptions of its additions. *)
Fixpoint place (end_dt : datetime) (break_minutes : Z)
    (ordered : list PlanTask.t) (cur : datetime)
    (blocks : list ScheduledBlock.t) : result (list ScheduledBlock.t) :=
  match ordered with
  | [] => Ok blocks
  | t :: rest =>
      dur <- timedelta_minutes (Z.max 1 (PlanTask.estimated_minutes t)) ;;
      end_local <- plus cur dur ;;
      if end_local >? end_dt then Ok blocks
      else
        let block :=
          ScheduledBlock.make (PlanTask.task_id t) (PlanTask.title t)
            cur end_local (PlanTask.priority t) in
        let blocks := blocks ++ [block] in
        brk <- timedelta_minutes (Z.max 0 break_minutes) ;;
        cur <- plus (ScheduledBlock.end_local block) brk ;;
        if cur >=? end_dt then Ok blocks
        else place end_dt break_minutes rest cur blocks
  end.

Definition build_schedule (day : date) (tz : ZoneInfo)
    (tasks : list PlanTask.t) (window : PlanWindow.t) :
    result (list ScheduledBlock.t) :=
  let start_dt := combine day (PlanWindow.start_local window) tz in
  let end_dt := combine day (PlanWindow.end_local window) tz in
  let ordered := ordered_by sort_key tasks in
  place end_dt (PlanWindow.break_minutes window) ordered start_dt [].

(** The minutes from the end of [day] to the end of year 9999. *)
Definition minutes_left (day : date) : Z := (max_ordinal - day) * (24 * 60).

(** The first instant after year 9999. *)
Definition horizon : datetime := (max_ordinal + 1) * us_per_day.

(** A single task of ten thousand million minutes, as a line of the chat
    can ask for. *)
Definition endless_task : PlanTask.t :=
  PlanTask.make 1 (lit "forever") 10000000000 None URGENT.

(** ** Where the additions stay in range *)

Lemma date_of_spec (x : datetime) (lo hi : Z) :
  lo <= date_of x <= hi <-> lo * us_per_day <= x < (hi + 1) * us_per_day.
Proof.
  unfold date_of, us_per_day, us_per_minute, us_per_second.
  Z.to_euclidean_division_equations. lia.
Qed.

Lemma combine_in_day day t tz :
  is_time t ->
  day * us_per_day <= combine day t tz < (day + 1) * us_per_day.
Proof.
  unfold is_time, combine, time_offset, us_per_day, us_per_minute,
    us_per_second.
  lia.
Qed.

Lemma timedelta_minutes_ok n :
  0 <= n -> minutes n < horizon -> timedelta_minutes n = Ok (minutes n).
Proof.
  intros H0 H. unfold timedelta_minutes.
  destruct (Z.leb_spec (Z.abs (n / (24 * 60))) max_days) as [|Hd];
    [reflexivity|exfalso].
  unfold minutes, horizon, max_ordinal, max_days, us_per_day, us_per_minute,
    us_per_second in *.
  revert Hd. Z.to_euclidean_division_equations. lia.
Qed.

Lemma plus_ok dt delta :
  us_per_day <= dt + delta < horizon ->
  plus dt delta = Ok (dt + delta).
Proof.
  intros H. unfold plus. cbv zeta.
  destruct (date_of_spec (dt + delta) min_ordinal max_ordinal) as [_ S].
  destruct S as [S1 S2];
    [unfold horizon, min_ordinal in *; lia|].
  apply Z.leb_le in S1, S2. now rewrite S1, S2.
Qed.

(** What the loop returns is what the loop without the exceptions
    gives. *)
Lemma place_returns end_dt break_minutes l : forall cur acc blocks,
  place end_dt break_minutes l cur acc = Ok blocks ->
  blocks
  = Planner.place end_dt (minutes (Z.max 0 break_minutes)) l cur acc.
Proof.
  induction l as [|t rest IH]; intros cur acc blocks; cbn [place Planner.place].
  - intros H. now inversion H.
  - unfold timedelta_minutes at 1.
    destruct (Z.abs _ <=? max_days); [|discriminate]. cbn [bind].
    unfold plus at 1. cbv zeta.
    destruct (_ && _); [|discriminate]. cbn [bind].
    fold (duration t).
    destruct (cur + duration t >? end_dt); [intros H; now inversion H|].
    cbn [ScheduledBlock.end_local].
    unfold timedelta_minutes at 1.
    destruct (Z.abs _ <=? max_days); [|discriminate]. cbn [bind].
    unfold plus at 1. cbv zeta.
    destruct (_ && _); [|discriminate]. cbn [bind].
    unfold block_at. cbn [ScheduledBlock.end_local].
    destruct (cur + duration t + minutes (Z.max 0 break_minutes) >=? end_dt);
      [intros H; now inversion H|].
    apply IH.
Qed.

Lemma build_schedule_returns day tz tasks window blocks :
  build_schedule day tz tasks window = Ok blocks ->
  blocks = Planner.build_schedule day tz tasks window.
Proof. apply place_returns. Qed.

(** The loop raises nothing when the cursor, the end of the window, the
    break and the durations of the tasks stay below a [limit] from which
    they do not reach the horizon. *)
Lemma place_in_range end_dt break_minutes limit l : forall cur acc,
  us_per_day <= cur <= limit ->
  end_dt <= limit ->
  limit + minutes (Z.max 0 break_minutes) < horizon ->
  Forall (fun u => limit + duration u < horizon) l ->
  place end_dt break_minutes l cur acc
  = Ok (Planner.place end_dt (minutes (Z.max 0 break_minutes)) l cur acc).
Proof.
  induction l as [|t rest IH]; intros cur acc Hc He Hb Hl;
    cbn [place Planner.place]; [reflexivity|].
  inversion Hl as [|? ? Ht Hrest]; subst.
  pose proof (duration_pos t) as Hd.
  pose proof (minutes_nonneg (Z.max 0 break_minutes) ltac:(lia)) as Hbn.
  assert (Hu : 0 < us_per_day) by reflexivity.
  fold (duration t).
  rewrite timedelta_minutes_ok;
    [|lia|fold (duration t); lia]. cbn [bind]. fold (duration t).
  rewrite plus_ok by lia. cbn [bind].
  destruct (Z.gtb_spec (cur + duration t) end_dt) as [|Hfit];
    [reflexivity|].
  cbn [ScheduledBlock.end_local].
  rewrite timedelta_minutes_ok by lia. cbn [bind].
  rewrite plus_ok by lia. cbn [bind].
  unfold block_at. cbn [ScheduledBlock.end_local].
  destruct (Z.geb_spec (cur + duration t + minutes (Z.max 0 break_minutes))
              end_dt) as [|Hgo]; [reflexivity|].
  apply IH; auto. lia.
Qed.

(** The loop does not look past a task that does not fit. *)
Lemma place_app_misfit end_dt break_minutes pre t post : forall cur acc,
  cursor_after (minutes (Z.max 0 break_minutes)) cur pre + duration t
  > end_dt ->
  place end_dt break_minutes (pre ++ t :: post) cur acc
  = place end_dt break_minutes (pre ++ [t]) cur acc.
Proof.
  induction pre as [|u pre IH]; intros cur acc H; cbn [app place].
  - cbn [cursor_after] in H. fold (duration t).
    destruct (timedelta_minutes _) as [dur|] eqn:Ed; [|reflexivity].
    cbn [bind].
    assert (dur = duration t) as ->.
    { unfold timedelta_minutes in Ed.
      destruct (_ <=? _); now inversion Ed. }
    destruct (plus cur (duration t)) as [e|] eqn:Ee; [|reflexivity].
    cbn [bind].
    assert (e = cur + duration t) as ->.
    { unfold plus in Ee. cbv zeta in Ee.
      destruct (_ && _); now inversion Ee. }
    destruct (Z.gtb_spec (cur + duration t) end_dt); [reflexivity|lia].
  - cbn [cursor_after] in H.
    destruct (timedelta_minutes (Z.max 1 (PlanTask.estimated_minutes u)))
      as [dur|] eqn:Ed; [|reflexivity].
    cbn [bind].
    assert (dur = duration u) as ->.
    { unfold timedelta_minutes in Ed.
      destruct (_ <=? _); now inversion Ed. }
    destruct (plus cur (duration u)) as [e|] eqn:Ee; [|reflexivity].
    cbn [bind].
    assert (e = cur + duration u) as ->.
    { unfold plus in Ee. cbv zeta in Ee.
      destruct (_ && _); now inversion Ee. }
    destruct (cur + duration u >? end_dt); [reflexivity|].
    cbn [ScheduledBlock.end_local].
    destruct (timedelta_minutes (Z.max 0 break_minutes))
      as [brk|] eqn:Eb; [|reflexivity].
    cbn [bind].
    assert (brk = minutes (Z.max 0 break_minutes)) as ->.
    { unfold timedelta_minutes in Eb.
      destruct (_ <=? _); now inversion Eb. }
    destruct (plus (cur + duration u) (minutes (Z.max 0 break_minutes)))
      as [c|] eqn:Ec; [|reflexivity].
    cbn [bind].
    assert (c = cur + duration u + minutes (Z.max 0 break_minutes)) as ->.
    { unfold plus in Ec. cbv zeta in Ec.
      destruct (_ && _); now inversion Ec. }
    destruct (_ >=? end_dt); [reflexivity|].
    apply IH. exact H.
Qed.

Lemma duration_in_range day u :
  is_date day ->
  Z.max 1 (PlanTask.estimated_minutes u) <= minutes_left day ->
  (day + 1) * us_per_day - 1 + duration u < horizon.
Proof.
  unfold is_date, minutes_left, duration, minutes, horizon, max_ordinal,
    min_ordinal, us_per_day, us_per_minute, us_per_second.
  lia.
Qed.

(** A first task that does not fit: nothing is placed when the end it
    would have is a [datetime], and the addition raises when it is not. *)
Lemma place_first_misfit end_dt break_minutes u rest cur :
  us_per_day <= cur ->
  cur + duration u > end_dt ->
  place end_dt break_minutes (u :: rest) cur []
  = if date_of (cur + duration u) <=? max_ordinal then Ok []
    else Raise OverflowError.
Proof.
  intros Hc Hm. cbn [place]. fold (duration u).
  pose proof (duration_pos u) as Hd.
  unfold timedelta_minutes.
  destruct (Z.leb_spec (Z.abs (Z.max 1 (PlanTask.estimated_minutes u)
                               / (24 * 60))) max_days) as [Hok|Hbig].
  - cbn [bind]. fold (duration u). unfold plus. cbv zeta.
    assert (H1 : (min_ordinal <=? date_of (cur + duration u)) = true).
    { apply Z.leb_le.
      apply (proj2 (date_of_spec (cur + duration u) min_ordinal
                      (date_of (cur + duration u)))).
      split; [unfold min_ordinal; lia|].
      apply (proj1 (date_of_spec (cur + duration u)
                      (date_of (cur + duration u))
                      (date_of (cur + duration u)))). lia. }
    rewrite H1. cbn [andb].
    destruct (date_of (cur + duration u) <=? max_ordinal); [|reflexivity].
    cbn [bind].
    destruct (Z.gtb_spec (cur + duration u) end_dt); [reflexivity|lia].
  - cbn [bind].
    destruct (Z.leb_spec (date_of (cur + duration u)) max_ordinal)
      as [Hle|]; [exfalso|reflexivity].
    assert (Hs : 0 <= date_of (cur + duration u) <= max_ordinal).
    { split; [|exact Hle]. unfold date_of. apply Z.div_pos; [|reflexivity].
      assert (0 < us_per_day) by reflexivity. lia. }
    apply date_of_spec in Hs.
    pose proof (Z.le_max_l 1 (PlanTask.estimated_minutes u)) as Hn.
    revert Hbig Hs Hc Hn.
    unfold duration, minutes, max_days, max_ordinal, us_per_day,
      us_per_minute, us_per_second.
    generalize (Z.max 1 (PlanTask.estimated_minutes u)). intros n.
    Z.to_euclidean_division_equations. lia.
Qed.

(** ** Where the walk stops *)

(** A task longer than the window gives no empty schedule when it is long
    enough to lead past year 9999: the addition [cur + dur] raises. *)
Lemma build_schedule_raises_past_year_9999 :
  minutes (Z.max 1 (PlanTask.estimated_minutes endless_task))
  > combine date_2026_01_11 (PlanWindow.end_local PlanWindow.default) UTC
    - combine date_2026_01_11 (PlanWindow.start_local PlanWindow.default) UTC
  /\ build_schedule date_2026_01_11 UTC [endless_task] PlanWindow.default
     = Raise OverflowError
  /\ build_schedule date_2026_01_11 UTC [endless_task] PlanWindow.default
     <> Ok [].
Proof. split; [reflexivity|]. split; [reflexivity|discriminate]. Qed.

(** C3. On a day and in a window that [date] and [time] accept, with a
    break and with durations, up to the task in question, of no more
    minutes than are left from the end of the day to the end of year 9999:
    a task of the sorted order that does not end in the window at the
    cursor the tasks before it lead to ends the placement.
    [build_schedule] returns the blocks of a prefix of the tasks before it,
    and of all of them when it is the first such task; no task after it is
    placed, whatever its priority and its duration.  An empty task list
    gives no block.  In a window that ends no later than it starts, and for
    a single task longer than the window, [build_schedule] returns no
    block when the end of the first task is a [datetime], and raises
    [OverflowError] when it lies past year 9999. *)
Theorem build_schedule_stops_at_first_misfit :
  (forall day tz tasks window pre t post,
     is_date day ->
     is_time (PlanWindow.start_local window) ->
     is_time (PlanWindow.end_local window) ->
     Z.max 0 (PlanWindow.break_minutes window) <= minutes_left day ->
     Forall
       (fun u =>
          Z.max 1 (PlanTask.estimated_minutes u) <= minutes_left day)
       (pre ++ [t]) ->
     ordered_by sort_key tasks = pre ++ t :: post ->
     cursor_after (break_of window)
       (combine day (PlanWindow.start_local window) tz) pre
     + minutes (Z.max 1 (PlanTask.estimated_minutes t))
     > combine day (PlanWindow.end_local window) tz ->
     exists blocks,
       build_schedule day tz tasks window = Ok blocks
       /\ emits_prefix_of pre blocks
       /\ ((forall p1 u p2,
              pre = p1 ++ u :: p2 ->
              cursor_after (break_of window)
                (combine day (PlanWindow.start_local window) tz) p1
              + minutes (Z.max 1 (PlanTask.estimated_minutes u))
              <= combine day (PlanWindow.end_local window) tz) ->
           Forall2 block_of pre blocks))
  /\ (forall day tz window, build_schedule day tz [] window = Ok [])
  /\ (forall day tz tasks window,
        is_date day ->
        is_time (PlanWindow.start_local window) ->
        is_time (PlanWindow.end_local window) ->
        combine day (PlanWindow.end_local window) tz
        <= combine day (PlanWindow.start_local window) tz ->
        build_schedule day tz tasks window
        = match ordered_by sort_key tasks with
          | [] => Ok []
          | u :: _ =>
              if date_of
                   (combine day (PlanWindow.start_local window) tz
                    + minutes (Z.max 1 (PlanTask.estimated_minutes u)))
                 <=? max_ordinal
              then Ok []
              else Raise OverflowError
          end)
  /\ (forall day tz t window,
        is_date day ->
        is_time (PlanWindow.start_local window) ->
        is_time (PlanWindow.end_local window) ->
        minutes (Z.max 1 (PlanTask.estimated_minutes t))
        > combine day (PlanWindow.end_local window) tz
          - combine day (PlanWindow.start_local window) tz ->
        build_schedule day tz [t] window
        = if date_of
               (combine day (PlanWindow.start_local window) tz
                + minutes (Z.max 1 (PlanTask.estimated_minutes t)))
             <=? max_ordinal
          then Ok []
          else Raise OverflowError).
Proof.
  assert (Hu : 0 < us_per_day) by reflexivity.
  repeat apply conj.
  - intros day tz tasks window pre t post Hday Hs He Hb Hl E H.
    pose proof (combine_in_day day _ tz Hs) as Bs.
    pose proof (combine_in_day day _ tz He) as Be.
    set (start_dt := combine day (PlanWindow.start_local window) tz) in *.
    set (end_dt := combine day (PlanWindow.end_local window) tz) in *.
    fold (duration t) in H.
    assert (R : build_schedule day tz tasks window
                = Ok (blocks_from (break_of window) start_dt
                        (fitting end_dt (break_of window) start_dt pre))).
    { unfold build_schedule. cbv zeta. fold start_dt end_dt. rewrite E.
      rewrite place_app_misfit by exact H.
      rewrite (place_in_range _ _ ((day + 1) * us_per_day - 1)).
      - f_equal. fold (break_of window). rewrite place_fitting.
        now rewrite fitting_app_misfit.
      - unfold is_date, min_ordinal in Hday. nia.
      - lia.
      - pose proof (minutes_nonneg _ (Z.le_max_l 0
                      (PlanWindow.break_minutes window))).
        revert Hb Hday.
        unfold is_date, minutes_left, minutes, horizon, max_ordinal,
          min_ordinal, us_per_day, us_per_minute, us_per_second.
        lia.
      - eapply Forall_impl; [|exact Hl]. cbv beta. intros u.
        now apply duration_in_range. }
    eexists. split; [exact R|]. split.
    + destruct (fitting_prefix end_dt (break_of window) pre start_dt)
        as [rest Er].
      eexists _, rest. split; [exact Er|]. apply blocks_from_made.
    + intros Hfit. rewrite fitting_all by exact Hfit.
      apply blocks_from_made.
  - reflexivity.
  - intros day tz tasks window Hday Hs He Hw.
    pose proof (combine_in_day day _ tz Hs) as Bs.
    unfold build_schedule. cbv zeta.
    destruct (ordered_by sort_key tasks) as [|u rest]; [reflexivity|].
    pose proof (duration_pos u).
    apply place_first_misfit.
    + unfold is_date, min_ordinal in Hday. nia.
    + lia.
  - intros day tz t window Hday Hs He H.
    pose proof (combine_in_day day _ tz Hs) as Bs.
    unfold build_schedule. cbv zeta.
    change (ordered_by sort_key [t]) with [t].
    apply place_first_misfit.
    + unfold is_date, min_ordinal in Hday. nia.
    + fold (duration t) in H. lia.
Qed.

(** The important task of [misfit_tasks] does not fit after the urgent
    one: the optional task, which would, is not placed either. *)
Lemma build_schedule_stops_at_first_misfit_witness :
  exists blocks,
    build_schedule date_2026_01_11 UTC misfit_tasks PlanWindow.default
    = Ok blocks
    /\ emits_prefix_of [PlanTask.make 3 (lit "first") 300 None URGENT]
         blocks
    /\ List.map ScheduledBlock.task_id blocks = [3].
Proof.
  destruct (proj1 build_schedule_stops_at_first_misfit
              date_2026_01_11 UTC misfit_tasks PlanWindow.default
              [PlanTask.make 3 (lit "first") 300 None URGENT]
              (PlanTask.make 2 (lit "second") 300 None IMPORTANT)
              [PlanTask.make 1 (lit "short") 10 None OPTIONAL])
    as (blocks & E & Hp & _).
  - unfold is_date, min_ordinal, max_ordinal, date_2026_01_11. lia.
  - unfold is_time. simpl. lia.
  - unfold is_time. simpl. lia.
  - vm_compute. discriminate.
  - repeat constructor; vm_compute; discriminate.
  - reflexivity.
  - vm_compute. reflexivity.
  - exists blocks. split; [exact E|]. split; [exact Hp|].
    vm_compute in E. inversion E. reflexivity.
Defined.

End Range.

(* ------------------------------------------------------------------ *)
(** * jobs.py *)

Module Jobs.
Import Datetime Models.

Module DueCheck.
Record t := make { due_now : bool; scheduled_dt : datetime }.
End DueCheck.

(** The default of [window_minutes]. *)
Definition default_window_minutes : Z := 10.

(** [last_sent_day == today], for a [last_sent_day] that may be [None]. *)
Definition is_day (last_sent_day : option date) (today : date) : bool :=
  match last_sent_day with
  | Some d => d =? today
  | None => false
  end.

Definition due_for_daily_send (now : datetime) (today : date)
    (when_local : time.t) (tz : ZoneInfo) (last_sent_day : option date)
    (window_minutes : Z) : DueCheck.t :=
  let scheduled := combine today when_local tz in
  if is_day last_sent_day today then DueCheck.make false scheduled
  else if now <? scheduled then DueCheck.make false scheduled
  else if now - scheduled >? minutes window_minutes then
    DueCheck.make false scheduled
  else DueCheck.make true scheduled.

Definition carryover_priority (p : Priority) : Priority :=
  match p with
  | URGENT => URGENT
  | IMPORTANT => URGENT
  | OPTIONAL => IMPORTANT
  end.

Lemma is_day_spec last_sent_day today :
  is_day last_sent_day today = true <-> last_sent_day = Some today.
Proof.
  destruct last_sent_day as [d|]; simpl; [|split; discriminate].
  rewrite Z.eqb_eq. split; congruence.
Qed.

(** ** The tests of the repository and the boundary of the grace window *)

Example test_due_for_daily_send_only_once_per_day :
  DueCheck.due_now
    (due_for_daily_send (combine date_2026_01_11 (hm 8 5) UTC)
       date_2026_01_11 (hm 8 0) UTC None 10) = true
  /\ DueCheck.due_now
       (due_for_daily_send (combine date_2026_01_11 (hm 8 5) UTC)
          date_2026_01_11 (hm 8 0) UTC (Some date_2026_01_11) 10) = false.
Proof. split; reflexivity. Qed.

Example grace_window_boundary :
  List.map
    (fun now => DueCheck.due_now
       (due_for_daily_send (combine date_2026_01_11 now UTC)
          date_2026_01_11 (hm 8 0) UTC None 10))
    [hm 8 5; hm 7 59; hm 8 11; hm 8 10; time.make 8 10 0 1]
  = [true; false; false; true; false].
Proof. reflexivity. Qed.

Example test_carryover_priority_bumps :
  carryover_priority OPTIONAL = IMPORTANT
  /\ carryover_priority IMPORTANT = URGENT
  /\ carryover_priority URGENT = URGENT.
Proof. repeat split. Qed.

(** ** Dueness *)

(** C4. [due_now] holds exactly when the last day sent is not today, [now]
    is not before the scheduled instant and is no more than
    [window_minutes] after it.  The upper bound is included, and a last
    day sent equal to today gives [due_now = False] whatever [now] is. *)
Theorem due_for_daily_send_due_now_iff
    (now : datetime) (today : date) (when_local : time.t) (tz : ZoneInfo)
    (last_sent_day : option date) (window_minutes : Z) :
  (DueCheck.due_now
     (due_for_daily_send now today when_local tz last_sent_day
        window_minutes) = true
   <-> last_sent_day <> Some today
       /\ now >= combine today when_local tz
       /\ now - combine today when_local tz <= minutes window_minutes)
  /\ (last_sent_day <> Some today -> 0 <= window_minutes ->
      DueCheck.due_now
        (due_for_daily_send
           (combine today when_local tz + minutes window_minutes)
           today when_local tz last_sent_day window_minutes) = true)
  /\ (last_sent_day = Some today ->
      DueCheck.due_now
        (due_for_daily_send now today when_local tz last_sent_day
           window_minutes) = false).
Proof.
  assert (Hiff : forall now',
    DueCheck.due_now
      (due_for_daily_send now' today when_local tz last_sent_day
         window_minutes) = true
    <-> last_sent_day <> Some today
        /\ now' >= combine today when_local tz
        /\ now' - combine today when_local tz <= minutes window_minutes).
  { intros now'. unfold due_for_daily_send.
    pose proof (is_day_spec last_sent_day today) as Hd.
    destruct (is_day last_sent_day today); simpl.
    - split; [discriminate|]. intros [H _]. exfalso. apply H, Hd. reflexivity.
    - assert (Hne : last_sent_day <> Some today)
        by (intros E; apply Hd in E; discriminate).
      destruct (Z.ltb_spec now' (combine today when_local tz)); simpl.
      + split; [discriminate|]. lia.
      + destruct (Z.gtb_spec (now' - combine today when_local tz)
                    (minutes window_minutes)); simpl.
        * split; [discriminate|]. lia.
        * split; [|reflexivity]. intros _. repeat split; [exact Hne|lia|lia]. }
  split; [apply Hiff|]. split.
  - intros Hne Hw. apply Hiff. pose proof (minutes_nonneg _ Hw).
    repeat split; [exact Hne|lia|lia].
  - intros E. destruct (DueCheck.due_now _) eqn:D; [|reflexivity].
    apply Hiff in D. tauto.
Qed.

(** C10. The [scheduled_dt] of the result is [combine today when_local tz]
    on every path: it is the same for any two values of [now],
    [last_sent_day] and [window_minutes], whatever [due_now] is. *)
Theorem due_for_daily_send_scheduled_dt
    (now now' : datetime) (today : date) (when_local : time.t)
    (tz : ZoneInfo) (last_sent_day last_sent_day' : option date)
    (window_minutes window_minutes' : Z) :
  DueCheck.scheduled_dt
    (due_for_daily_send now today when_local tz last_sent_day
       window_minutes) = combine today when_local tz
  /\ DueCheck.scheduled_dt
       (due_for_daily_send now today when_local tz last_sent_day
          window_minutes)
     = DueCheck.scheduled_dt
         (due_for_daily_send now' today when_local tz last_sent_day'
            window_minutes').
Proof.
  assert (H : forall n l w,
    DueCheck.scheduled_dt (due_for_daily_send n today when_local tz l w)
    = combine today when_local tz).
  { intros n l w. unfold due_for_daily_send.
    destruct (is_day l today); [reflexivity|].
    destruct (n <? _); [reflexivity|].
    destruct (_ >? _); reflexivity. }
  now rewrite !H.
Qed.

(** ** Carryover *)

(** [p] is at least as high a priority as [q], in the order
    Urgent > Important > Optional. *)
Definition at_least (p q : Priority) : Prop :=
  match p, q with
  | URGENT, _ => True
  | IMPORTANT, (IMPORTANT | OPTIONAL) => True
  | OPTIONAL, OPTIONAL => True
  | _, _ => False
  end.

(** C7. [carryover_priority] maps Urgent to Urgent, Important to Urgent and
    Optional to Important; its result is never a lower priority than its
    argument; from Optional it reaches Urgent in two applications, and
    Urgent is a fixed point, so that any further application stays there. *)
Theorem carryover_priority_escalation :
  (forall p,
     carryover_priority p
     = match p with
       | URGENT => URGENT | IMPORTANT => URGENT | OPTIONAL => IMPORTANT
       end)
  /\ (forall p, at_least (carryover_priority p) p)
  /\ carryover_priority (carryover_priority OPTIONAL) = URGENT
  /\ carryover_priority URGENT = URGENT
  /\ (forall n p, (2 <= n)%nat -> Nat.iter n carryover_priority p = URGENT).
Proof.
  split; [intros []; reflexivity|].
  split; [intros []; exact I|].
  split; [reflexivity|]. split; [reflexivity|].
  intros n p Hn.
  destruct n as [|[|n]]; [lia|lia|].
  induction n as [|n IH].
  - destruct p; reflexivity.
  - change (carryover_priority (Nat.iter (S (S n)) carryover_priority p)
            = URGENT).
    rewrite IH by lia. reflexivity.
Qed.

End Jobs.

(* ------------------------------------------------------------------ *)
(** * prioritizer.py *)

Module Prioritizer.
Import Datetime PyStr Models.

Module TaskDraft.
Record t := make
  { title : str;
    estimated_minutes : Z;
    due_local_time : option time.t }.
End TaskDraft.

(** ** The deterministic classifier *)

Module HeuristicPrioritizer.
Section Keywords.

(** [self._urgent_kw.search(text)] and [self._important_kw.search(text)]
    find a match: the regular expressions are data of the class, and the
    engine that runs them belongs to Python's library. *)
Variable _urgent_kw : str -> bool.
Variable _important_kw : str -> bool.

(** [int((due_dt - now_local).total_seconds() // 60)]: the whole minutes
    left, rounded down.  [total_seconds()] is a float; as the difference is
    a whole number of microseconds and 181 minutes are a float, the test
    of the result against 180 is the one of the exact quotient. *)
Definition mins_left (due_dt now_local : datetime) : Z :=
  (due_dt - now_local) / us_per_minute.

(** The body of the loop: the priority appended for draft [d]. *)
Definition classify (today : date) (tz : ZoneInfo) (now_local : datetime)
    (d : TaskDraft.t) : Priority :=
  let text := strip (TaskDraft.title d) in
  let soon :=
    match TaskDraft.due_local_time d with
    | Some due =>
        let due_dt := combine today due tz in
        mins_left due_dt now_local <=? 180
    | None => false
    end in
  if soon then URGENT
  else if _urgent_kw text then URGENT
  else if _important_kw text then IMPORTANT
  else OPTIONAL.

(** [for d in drafts: ... out.append(...)] *)
Fixpoint loop (today : date) (tz : ZoneInfo) (now_local : datetime)
    (drafts : list TaskDraft.t) (out : list Priority) : list Priority :=
  match drafts with
  | [] => out
  | d :: rest =>
      loop today tz now_local rest (out ++ [classify today tz now_local d])
  end.

(** [prioritize]; [now_local] is what [datetime.now(tz)] returns. *)
Definition prioritize (drafts : list TaskDraft.t) (today : date)
    (tz : ZoneInfo) (now_local : datetime) : list Priority :=
  loop today tz now_local drafts [].

(** The keyword tiers: urgent keywords, then important ones, then
    Optional. *)
Definition keyword_tiers (text : str) : Priority :=
  if _urgent_kw text then URGENT
  else if _important_kw text then IMPORTANT
  else OPTIONAL.

Lemma loop_map today tz now_local drafts : forall out,
  loop today tz now_local drafts out
  = out ++ List.map (classify today tz now_local) drafts.
Proof.
  induction drafts as [|d rest IH]; intros out; simpl.
  - now rewrite app_nil_r.
  - now rewrite IH, <- app_assoc.
Qed.

Lemma prioritize_map drafts today tz now_local :
  prioritize drafts today tz now_local
  = List.map (classify today tz now_local) drafts.
Proof. apply loop_map. Qed.

Lemma prioritize_length drafts today tz now_local :
  length (prioritize drafts today tz now_local) = length drafts.
Proof. rewrite prioritize_map. apply length_map. Qed.

Lemma mins_left_le_180 due_dt now_local :
  mins_left due_dt now_local <= 180 <-> due_dt - now_local < minutes 181.
Proof.
  unfold mins_left, minutes, us_per_minute, us_per_second.
  pose proof (Z.div_mod (due_dt - now_local) (60 * 1000000) ltac:(lia)).
  pose proof (Z.mod_pos_bound (due_dt - now_local) (60 * 1000000) ltac:(lia)).
  lia.
Qed.

End Keywords.

(** The searches on a title that holds no keyword. *)
Definition no_keyword : str -> bool := fun _ => false.

(** A draft due at 12:00, classified at 08:59:30 of the same day. *)
Definition mail_at_noon : TaskDraft.t :=
  TaskDraft.make (lit "mail") 20 (Some (hm 12 0)).

Definition half_past_0859 : datetime :=
  combine date_2026_01_11 (time.make 8 59 30 0) UTC.

(** C5, as stated, fails: 180 minutes and 30 seconds before its due time
    a draft without keyword is Urgent, not Optional. *)
Lemma heuristic_rounds_minutes_down :
  combine date_2026_01_11 (hm 12 0) UTC - half_past_0859 > minutes 180
  /\ TaskDraft.due_local_time mail_at_noon = Some (hm 12 0)
  /\ prioritize no_keyword no_keyword [mail_at_noon] date_2026_01_11 UTC
       half_past_0859 = [URGENT]
  /\ keyword_tiers no_keyword no_keyword (strip (TaskDraft.title mail_at_noon))
     = OPTIONAL.
Proof. repeat split. Qed.

(** C5, amended.  For a draft with a due time, with the due instant
    [combine today due tz]: when the whole minutes left, rounded down, are
    at most 180, that is when the due instant is less than 181 minutes
    after [now_local] (or is past), the draft is Urgent whatever its title;
    when the due instant is 181 minutes or more after [now_local], its
    priority is that of the keyword tiers on its stripped title. *)
Theorem heuristic_due_time_override
    (_urgent_kw _important_kw : str -> bool) (drafts : list TaskDraft.t)
    (today : date) (tz : ZoneInfo) (now_local : datetime)
    (i : nat) (d : TaskDraft.t) (due : time.t) :
  nth_error drafts i = Some d ->
  TaskDraft.due_local_time d = Some due ->
  (combine today due tz - now_local < minutes 181 ->
   nth_error (prioritize _urgent_kw _important_kw drafts today tz now_local) i
   = Some URGENT)
  /\ (combine today due tz - now_local >= minutes 181 ->
      nth_error
        (prioritize _urgent_kw _important_kw drafts today tz now_local) i
      = Some (keyword_tiers _urgent_kw _important_kw
                (strip (TaskDraft.title d)))).
Proof.
  intros Hi Hd. rewrite prioritize_map.
  rewrite nth_error_map, Hi. simpl.
  unfold classify, keyword_tiers. rewrite Hd.
  pose proof (mins_left_le_180 (combine today due tz) now_local) as H.
  destruct (Z.leb_spec (mins_left (combine today due tz) now_local) 180)
    as [Hle|Hgt]; split; intros Hlt; try reflexivity.
  - apply H in Hle.
    unfold combine, minutes, us_per_day, us_per_minute, us_per_second in *.
    lia.
  - apply H in Hlt.
    unfold combine, minutes, us_per_day, us_per_minute, us_per_second in *.
    lia.
Qed.

Lemma heuristic_due_time_override_witness :
  nth_error
    (prioritize no_keyword no_keyword [mail_at_noon] date_2026_01_11 UTC
       half_past_0859) 0
  = Some URGENT.
Proof.
  refine (proj1 (heuristic_due_time_override no_keyword no_keyword
                   [mail_at_noon] date_2026_01_11 UTC half_past_0859
                   0%nat mail_at_noon (hm 12 0) eq_refl eq_refl) _).
  reflexivity.
Defined.

End HeuristicPrioritizer.

(** ** The parser of the external service's reply *)

(** The values that [json.loads] returns. *)
#[local] Set Warnings "-register-all".
Inductive json :=
| JNull
| JBool (b : bool)
| JInt (n : Z)
| JFloat (literal : str)
| JStr (s : str)
| JList (items : list json)
| JDict (members : list (str * json)).
#[local] Set Warnings "register-all".

(** [Priority(x2)]: the member of the enumeration whose value is [x2];
    [None] stands for the [ValueError] of any other string. *)
Definition Priority_of_value (x2 : str) : option Priority :=
  if str_eqb x2 (lit "urgent") then Some URGENT
  else if str_eqb x2 (lit "important") then Some IMPORTANT
  else if str_eqb x2 (lit "optional") then Some OPTIONAL
  else None.

(** The value of a member. *)
Definition value_of (p : Priority) : str :=
  match p with
  | URGENT => lit "urgent"
  | IMPORTANT => lit "important"
  | OPTIONAL => lit "optional"
  end.

Section Parser.

(** [json.loads], with [None] for the exception of a text that is no JSON
    document, and the case tables of [str.lower]: both belong to Python's
    library. *)
Variable json_loads : str -> option json.
Variable unicode_lower : str -> str.

(** [x.strip().lower()] *)
Definition normalize (x : str) : str := lower unicode_lower (strip x).

(** The [for x in arr] loop of the [try] block; [None] stands for an
    exception raised on the way. *)
Fixpoint items_loop (arr : list json) (out : list Priority) :
  option (list Priority) :=
  match arr with
  | [] => Some out
  | JStr x :: rest =>
      match Priority_of_value (normalize x) with
      | Some p => items_loop rest (out ++ [p])
      | None => None
      end
  | _ :: _ => None
  end.

(** The body of the [try] block. *)
Definition try_body (text : str) (expected_len : Z) : option (list Priority) :=
  match json_loads text with
  | None => None
  | Some (JList arr) =>
      if negb (Z.of_nat (length arr) =? expected_len) then None
      else items_loop arr []
  | Some _ => None
  end.

(** [[Priority.IMPORTANT for _ in range(expected_len)]] *)
Definition all_important (expected_len : Z) : list Priority :=
  repeat IMPORTANT (Z.to_nat expected_len).

Definition _parse_priority_json_array (text : str) (expected_len : Z) :
  list Priority :=
  match try_body text expected_len with
  | Some out => out
  | None => all_important expected_len
  end.

(** The labels of a reply: the strings that the items of a list are, when
    all of them are strings. *)
Fixpoint labels_of (arr : list json) : option (list str) :=
  match arr with
  | [] => Some []
  | JStr x :: rest => option_map (cons x) (labels_of rest)
  | _ :: _ => None
  end.

(** The priorities of a list of labels, when all of them are recognized. *)
Fixpoint map_labels (labels : list str) : option (list Priority) :=
  match labels with
  | [] => Some []
  | x :: rest =>
      match Priority_of_value (normalize x), map_labels rest with
      | Some p, Some ps => Some (p :: ps)
      | _, _ => None
      end
  end.

Lemma items_loop_spec arr : forall out,
  items_loop arr out
  = match labels_of arr with
    | Some labels => option_map (app out) (map_labels labels)
    | None => None
    end.
Proof.
  induction arr as [|x arr IH]; intros out; simpl.
  - now rewrite app_nil_r.
  - destruct x; try reflexivity.
    destruct (Priority_of_value (normalize s)) as [p|] eqn:E.
    + rewrite IH. destruct (labels_of arr) as [labels|]; simpl;
        [|reflexivity].
      rewrite E. destruct (map_labels labels); simpl; [|reflexivity].
      now rewrite <- app_assoc.
    + destruct (labels_of arr) as [labels|]; simpl; [|reflexivity].
      now rewrite E.
Qed.

Lemma labels_of_length arr labels :
  labels_of arr = Some labels -> length labels = length arr.
Proof.
  revert labels. induction arr as [|x arr IH]; simpl; intros labels H.
  - now inversion H.
  - destruct x; try discriminate.
    destruct (labels_of arr) as [l|]; simpl in H; [|discriminate].
    inversion H. simpl. f_equal. now apply IH.
Qed.

Lemma labels_of_strings labels : labels_of (List.map JStr labels) = Some labels.
Proof.
  induction labels as [|x l IH]; simpl; [reflexivity|]. now rewrite IH.
Qed.

Lemma labels_of_inv arr labels :
  labels_of arr = Some labels -> arr = List.map JStr labels.
Proof.
  revert labels. induction arr as [|x arr IH]; simpl; intros labels H.
  - now inversion H.
  - destruct x; try discriminate.
    destruct (labels_of arr) as [l|]; simpl in H; [|discriminate].
    inversion H. simpl. f_equal. now apply IH.
Qed.

Lemma map_labels_spec labels out :
  map_labels labels = Some out <->
  Forall2 (fun x p => Priority_of_value (normalize x) = Some p) labels out.
Proof.
  revert out. induction labels as [|x l IH]; simpl; intros out.
  - split; [intros H; inversion H; constructor|intros H; now inversion H].
  - split.
    + destruct (Priority_of_value (normalize x)) as [p|] eqn:E;
        [|discriminate].
      destruct (map_labels l) as [ps|]; [|discriminate].
      intros H. inversion H. constructor; [exact E|]. now apply IH.
    + intros H. inversion H as [|? p ? ps Hx Hl]; subst.
      rewrite Hx. apply IH in Hl. now rewrite Hl.
Qed.

Lemma all_important_length n : length (all_important n) = Z.to_nat n.
Proof. apply repeat_length. Qed.

End Parser.

(** The reply is accepted exactly when it is a list of [expected_len]
    strings that all normalize to a priority name. *)
Lemma try_body_spec json_loads unicode_lower text expected_len out :
  try_body json_loads unicode_lower text expected_len = Some out <->
  exists labels,
    json_loads text = Some (JList (List.map JStr labels))
    /\ Z.of_nat (length labels) = expected_len
    /\ Forall2
         (fun x p => Priority_of_value (normalize unicode_lower x) = Some p)
         labels out.
Proof.
  unfold try_body. split.
  - destruct (json_loads text) as [[| | | | |arr|]|]; try discriminate.
    destruct (Z.eqb_spec (Z.of_nat (length arr)) expected_len) as [El|];
      simpl; [|discriminate].
    rewrite items_loop_spec.
    destruct (labels_of arr) as [labels|] eqn:E; [|discriminate].
    destruct (map_labels unicode_lower labels) as [ps|] eqn:Em;
      [|discriminate].
    simpl. intros H. inversion H; subst out. exists labels.
    rewrite <- (labels_of_inv _ _ E), (labels_of_length _ _ E).
    repeat split; auto. now apply map_labels_spec.
  - intros (labels & -> & El & H). rewrite length_map.
    apply Z.eqb_eq in El. rewrite El. simpl.
    rewrite items_loop_spec, labels_of_strings.
    apply map_labels_spec in H. now rewrite H.
Qed.

(** C6. Whatever the reply and the expected length [n], the parser returns
    a list of [n] priorities, which is either the priority of every label
    of a reply that is a list of [n] recognized labels, or [n] times
    Important.  A reply that is a list of [n] strings, each of which
    normalizes to the name of a priority, gives the list of these
    priorities, label by label; the result is [n] times Important after a
    parse failure, for a value that is no list, for a list of another
    length, for an item that is no string and for a label that is no
    priority name.  The function is total, and no result mixes mapped
    labels with the fallback. *)
Theorem parse_priority_json_array_all_or_nothing
    (json_loads : str -> option json) (unicode_lower : str -> str)
    (text : str) (expected_len : Z) :
  length (_parse_priority_json_array json_loads unicode_lower text
            expected_len) = Z.to_nat expected_len
  /\ ((exists labels,
         json_loads text = Some (JList (List.map JStr labels))
         /\ Z.of_nat (length labels) = expected_len
         /\ Forall2
              (fun x p =>
                 Priority_of_value (normalize unicode_lower x) = Some p)
              labels
              (_parse_priority_json_array json_loads unicode_lower text
                 expected_len))
      \/ _parse_priority_json_array json_loads unicode_lower text
           expected_len = all_important expected_len)
  /\ (json_loads text = None ->
      _parse_priority_json_array json_loads unicode_lower text expected_len
      = all_important expected_len)
  /\ (forall v, json_loads text = Some v -> (forall arr, v <> JList arr) ->
      _parse_priority_json_array json_loads unicode_lower text expected_len
      = all_important expected_len)
  /\ (forall arr, json_loads text = Some (JList arr) ->
      Z.of_nat (length arr) <> expected_len ->
      _parse_priority_json_array json_loads unicode_lower text expected_len
      = all_important expected_len)
  /\ (forall arr x, json_loads text = Some (JList arr) ->
      In x arr -> (forall s, x <> JStr s) ->
      _parse_priority_json_array json_loads unicode_lower text expected_len
      = all_important expected_len)
  /\ (forall arr s, json_loads text = Some (JList arr) ->
      In (JStr s) arr ->
      Priority_of_value (normalize unicode_lower s) = None ->
      _parse_priority_json_array json_loads unicode_lower text expected_len
      = all_important expected_len)
  /\ (forall labels priorities,
      json_loads text = Some (JList (List.map JStr labels)) ->
      Z.of_nat (length labels) = expected_len ->
      Forall2 (fun x p => normalize unicode_lower x = value_of p)
        labels priorities ->
      _parse_priority_json_array json_loads unicode_lower text expected_len
      = priorities).
Proof.
  assert (Hnew : forall labels priorities,
             json_loads text = Some (JList (List.map JStr labels)) ->
             Z.of_nat (length labels) = expected_len ->
             Forall2 (fun x p => normalize unicode_lower x = value_of p)
               labels priorities ->
             try_body json_loads unicode_lower text expected_len
             = Some priorities).
  { intros labels priorities Hl Hn Hf.
    apply try_body_spec. exists labels.
    split; [exact Hl|]. split; [exact Hn|].
    eapply Forall2_impl; [|exact Hf]. cbv beta. intros x p ->.
    destruct p; reflexivity. }
  unfold _parse_priority_json_array.
  pose proof (try_body_spec json_loads unicode_lower text expected_len) as S.
  destruct (try_body json_loads unicode_lower text expected_len)
    as [out|] eqn:E.
  - destruct (proj1 (S out) eq_refl) as (labels & Hl & Hn & Hf).
    split.
    { rewrite <- (Forall2_length Hf), <- Hn. now rewrite Nat2Z.id. }
    split; [left; now exists labels|].
    split; [intros H; congruence|].
    split.
    { intros v Hv Hno. rewrite Hl in Hv. inversion Hv. subst v.
      now destruct (Hno (List.map JStr labels)). }
    split.
    { intros arr Ha Hne. rewrite Hl in Ha. inversion Ha. subst arr.
      rewrite length_map in Hne. contradiction. }
    split.
    { intros arr x Ha Hx Hno. rewrite Hl in Ha. inversion Ha. subst arr.
      apply in_map_iff in Hx. destruct Hx as (s & <- & _).
      now destruct (Hno s). }
    split.
    { intros arr s Ha Hs Hnone. rewrite Hl in Ha. inversion Ha. subst arr.
      apply in_map_iff in Hs. destruct Hs as (s' & Es & Hin).
      inversion Es. subst s'. exfalso. clear - Hf Hin Hnone.
      induction Hf as [|x p l ps Hx Hf IH]; [contradiction|].
      destruct Hin as [->|Hin]; [congruence|auto]. }
    intros labels' priorities Hl' Hn' Hf'.
    specialize (Hnew labels' priorities Hl' Hn' Hf'). congruence.
  - split; [apply all_important_length|].
    split; [now right|].
    do 5 (split; [reflexivity|]).
    intros labels' priorities Hl' Hn' Hf'.
    specialize (Hnew labels' priorities Hl' Hn' Hf'). discriminate.
Qed.

(** ** Letter case and surrounding white space *)

(** [s] is [label] up to the case of its letters, for a [label] in lower
    case. *)
Definition case_variant (s label : str) : Prop :=
  Forall2 (fun c l => c = l \/ c = l - 32) s label.

(** [x] is the name of [p] up to letter case and surrounding white space. *)
Definition spelling_of (p : Priority) (x : str) : Prop :=
  exists w1 s w2,
    x = w1 ++ s ++ w2
    /\ forallb isspace w1 = true /\ forallb isspace w2 = true
    /\ case_variant s (value_of p).

Lemma letter_not_space c : 65 <= c <= 122 -> isspace c = false.
Proof.
  intros H. unfold isspace.
  replace (c <=? 13) with false by (symmetry; apply Z.leb_gt; lia).
  replace (c <=? 32) with false by (symmetry; apply Z.leb_gt; lia).
  replace (8192 <=? c) with false by (symmetry; apply Z.leb_gt; lia).
  repeat match goal with
         | |- context [c =? ?k] =>
             replace (c =? k) with false by (symmetry; apply Z.eqb_neq; lia)
         end.
  now rewrite !andb_false_r.
Qed.

Lemma case_variant_lower s label :
  Forall (fun l => 97 <= l <= 122) label ->
  case_variant s label ->
  forallb is_ascii s = true
  /\ List.map ascii_lower s = label
  /\ Forall (fun c => isspace c = false) s.
Proof.
  intros Hl Hv. induction Hv as [|c l s label Hc Hv IH]; simpl.
  - repeat split; constructor.
  - inversion Hl as [|? ? Hl1 Hl2]; subst.
    destruct (IH Hl2) as (Ha & Hm & Hs).
    rewrite Ha, Hm. unfold is_ascii, ascii_lower.
    repeat split.
    + apply andb_true_iff. split; [|reflexivity].
      apply andb_true_iff. split; [apply Z.leb_le|apply Z.ltb_lt];
        destruct Hc; lia.
    + f_equal. destruct Hc as [->| ->].
      * replace (l <=? 90) with false by (symmetry; apply Z.leb_gt; lia).
        now rewrite andb_false_r.
      * replace (65 <=? l - 32) with true by (symmetry; apply Z.leb_le; lia).
        replace (l - 32 <=? 90) with true
          by (symmetry; apply Z.leb_le; lia).
        simpl. lia.
    + constructor; [|exact Hs]. apply letter_not_space. destruct Hc; lia.
Qed.

Lemma value_of_lower_case p : Forall (fun l => 97 <= l <= 122) (value_of p).
Proof. destruct p; repeat constructor; simpl; lia. Qed.

Lemma Priority_of_value_of p : Priority_of_value (value_of p) = Some p.
Proof. destruct p; reflexivity. Qed.

Lemma normalize_spelling unicode_lower p x :
  spelling_of p x -> normalize unicode_lower x = value_of p.
Proof.
  intros (w1 & s & w2 & -> & H1 & H2 & Hv).
  destruct (case_variant_lower _ _ (value_of_lower_case p) Hv)
    as (Ha & Hm & Hs).
  unfold normalize, lower. rewrite strip_sandwich by assumption.
  now rewrite Ha.
Qed.

(** C9. Each label is stripped and put in lower case before it is looked
    up among the three priority names: a reply that is a list of
    [expected_len] strings, each the name of a priority up to letter case
    and surrounding white space, is mapped to these priorities, and is not
    answered by the fallback. *)
Theorem parse_priority_json_array_normalizes
    (json_loads : str -> option json) (unicode_lower : str -> str)
    (text : str) (expected_len : Z)
    (labels : list str) (priorities : list Priority) :
  json_loads text = Some (JList (List.map JStr labels)) ->
  Z.of_nat (length labels) = expected_len ->
  Forall2 (fun x p => spelling_of p x) labels priorities ->
  Forall2
    (fun x p => Priority_of_value (lower unicode_lower (strip x)) = Some p)
    labels priorities
  /\ _parse_priority_json_array json_loads unicode_lower text expected_len
     = priorities.
Proof.
  intros Hl Hn Hs.
  assert (Hf : Forall2
                 (fun x p =>
                    Priority_of_value (normalize unicode_lower x) = Some p)
                 labels priorities).
  { eapply Forall2_impl; [|exact Hs]. simpl. intros x p Hx.
    rewrite (normalize_spelling unicode_lower p x Hx).
    apply Priority_of_value_of. }
  split; [exact Hf|].
  unfold _parse_priority_json_array.
  assert (E : try_body json_loads unicode_lower text expected_len
              = Some priorities)
    by (apply try_body_spec; now exists labels).
  now rewrite E.
Qed.

(** A reply with a label in upper case between spaces and one with a
    capital. *)
Definition shouted_reply : list str := [lit "  URGENT "; lit "Optional"].

Lemma parse_priority_json_array_normalizes_witness :
  _parse_priority_json_array
    (fun _ => Some (JList (List.map JStr shouted_reply))) (fun s => s)
    (lit "[...]") 2
  = [URGENT; OPTIONAL].
Proof.
  refine (proj2 (parse_priority_json_array_normalizes
                   (fun _ => Some (JList (List.map JStr shouted_reply)))
                   (fun s => s) (lit "[...]") 2 shouted_reply
                   [URGENT; OPTIONAL] eq_refl eq_refl _)).
  constructor; [|constructor; [|constructor]].
  - exists (lit "  "), (lit "URGENT"), (lit " ").
    repeat split. unfold case_variant. simpl.
    repeat (apply Forall2_cons;
            [first [left; reflexivity|right; reflexivity]|]).
    apply Forall2_nil.
  - exists [], (lit "Optional"), [].
    repeat split. unfold case_variant. simpl.
    repeat (apply Forall2_cons;
            [first [left; reflexivity|right; reflexivity]|]).
    apply Forall2_nil.
Defined.

End Prioritizer.

(* ------------------------------------------------------------------ *)
(** * storage.py: the [tasks] table *)

Module Storage.
Import Datetime PyStr Models.

(** The rows of the table, each read as [_row_to_task] reads it, and the
    largest id that [AUTOINCREMENT] has given out. *)
Record t := make { tasks : list Task.t; last_id : Z }.

(** [_to_iso_dt] keeps the seconds, [_to_iso_time] the minutes. *)
Definition stored_dt (dt : datetime) : datetime :=
  dt - dt mod us_per_second.

Definition stored_time (due : option time.t) : option time.t :=
  option_map (fun d => time.make (time.hour d) (time.minute d) 0 0) due.

(** The id of the next row: one more than every id of the table and than
    every id given out before. *)
Definition next_id (st : t) : Z :=
  fold_right Z.max (last_id st) (List.map Task.id (tasks st)) + 1.

(** [add_task], by the id it returns and the table it leaves;
    [Sqlite.add_task] adds the exceptions of the parameters that SQLite
    does not take. *)
Definition add_task (st : t) (telegram_user_id : Z) (title : str)
    (created_at : datetime) (day : date) (estimated_minutes : Z)
    (due_local_time : option time.t) (priority : Priority) : Z * t :=
  let id := next_id st in
  let row :=
    Task.make id telegram_user_id title (stored_dt created_at) day
      estimated_minutes (stored_time due_local_time) priority PENDING in
  (id, make (tasks st ++ [row]) id).

(** [SELECT * FROM tasks WHERE telegram_user_id=? AND day=? [AND status=?]
    ORDER BY id ASC] *)
Definition list_tasks (st : t) (telegram_user_id : Z) (day : date)
    (status : option TaskStatus) : list Task.t :=
  PySort.sorted_by (fun a b => Task.id a <=? Task.id b)
    (filter
       (fun r =>
          (Task.telegram_user_id r =? telegram_user_id)
          && (Task.day r =? day)
          && match status with
             | None => true
             | Some s => TaskStatus_eqb (Task.status r) s
             end)
       (tasks st)).

Definition with_status (s : TaskStatus) (r : Task.t) : Task.t :=
  Task.make (Task.id r) (Task.telegram_user_id r) (Task.title r)
    (Task.created_at r) (Task.day r) (Task.estimated_minutes r)
    (Task.due_local_time r) (Task.priority r) s.

Definition update_task_status (st : t) (telegram_user_id task_id : Z)
    (status : TaskStatus) : t :=
  make
    (List.map
       (fun r =>
          if (Task.telegram_user_id r =? telegram_user_id)
             && (Task.id r =? task_id)
          then with_status status r else r)
       (tasks st))
    (last_id st).

Definition delete_tasks_for_day (st : t) (telegram_user_id : Z)
    (day : date) : t :=
  make
    (filter
       (fun r =>
          negb ((Task.telegram_user_id r =? telegram_user_id)
                && (Task.day r =? day)))
       (tasks st))
    (last_id st).

End Storage.

(* ------------------------------------------------------------------ *)
(** * bot.py: the evening check *)

Module Bot.
Import Datetime PyStr Models.

(** The texts that the evening check sends: the acknowledgement that all
    tasks are closed, and the summary of the pending tasks with its line on
    what happened to them. *)
Inductive message :=
| AllClosed
| EveningSummary (pending : list Task.t) (carried : bool).

(** What the coordinator acts on: the storage and the messages sent, each
    with its [chat_id]. *)
Record world := World { storage : Storage.t; sent : list (Z * message) }.

Definition action (A : Type) : Type := world -> A * world.

Definition ret {A} (a : A) : action A := fun w => (a, w).

Definition bind {A B} (c : action A) (k : A -> action B) : action B :=
  fun w => let (a, w') := c w in k a w'.

Notation "x <- c ;; k" := (bind c (fun x => k))
  (at level 61, c at next level, right associativity).
Notation "c ;;; k" := (bind c (fun _ => k))
  (at level 61, right associativity).

Definition list_tasks (telegram_user_id : Z) (day : date)
    (status : option TaskStatus) : action (list Task.t) :=
  fun w => (Storage.list_tasks (storage w) telegram_user_id day status, w).

Definition add_task (telegram_user_id : Z) (title : str)
    (created_at : datetime) (day : date) (estimated_minutes : Z)
    (due_local_time : option time.t) (priority : Priority) : action Z :=
  fun w =>
    let (id, st) :=
      Storage.add_task (storage w) telegram_user_id title created_at day
        estimated_minutes due_local_time priority in
    (id, World st (sent w)).

Definition send_message (chat_id : Z) (text : message) : action unit :=
  fun w => (tt, World (storage w) (sent w ++ [(chat_id, text)])).

Fixpoint for_each {A} (l : list A) (body : A -> action unit) : action unit :=
  match l with
  | [] => ret tt
  | x :: rest => body x ;;; for_each rest body
  end.

Definition is_empty {A} (l : list A) : bool :=
  match l with [] => true | _ :: _ => false end.

(** [_evening_check]; [now] and [now_local] are what its two calls of
    [datetime.now(tz)] return. *)
Definition _evening_check (user_id : Z) (tz : ZoneInfo)
    (now now_local : datetime) : action unit :=
  let today := date_of now in
  pending <- list_tasks user_id today (Some PENDING) ;;
  if is_empty pending then send_message user_id AllClosed
  else
    let tomorrow := today + 1 in
    already <- list_tasks user_id tomorrow None ;;
    (if is_empty already then
       for_each pending (fun t =>
         add_task user_id (Task.title t) now_local tomorrow
           (Task.estimated_minutes t) (Task.due_local_time t)
           (Jobs.carryover_priority (Task.priority t)) ;;;
         ret tt)
     else ret tt) ;;;
    send_message user_id (EveningSummary pending (is_empty already)).

(** ** The evening check and the plan of tomorrow *)

(** A user with one pending task today; in [planned_world] one task is
    recorded for tomorrow as well, and it is done. *)
Definition evening : datetime := combine date_2026_01_11 (hm 20 0) UTC.

Definition pending_today : Task.t :=
  Task.make 1 7 (lit "report") (combine date_2026_01_11 (hm 8 0) UTC)
    date_2026_01_11 60 (Some (hm 17 0)) OPTIONAL PENDING.

Definition done_tomorrow : Task.t :=
  Task.make 2 7 (lit "call") (combine date_2026_01_11 (hm 8 0) UTC)
    (date_2026_01_11 + 1) 30 None IMPORTANT DONE.

Definition unplanned_world : world :=
  World (Storage.make [pending_today] 1) [].

Definition planned_world : world :=
  World (Storage.make [pending_today; done_tomorrow] 2) [].

Example evening_check_carries_over :
  snd (_evening_check 7 UTC evening evening unplanned_world)
  = World
      (Storage.make
         [ pending_today;
           Task.make 2 7 (lit "report") evening (date_2026_01_11 + 1) 60
             (Some (hm 17 0)) IMPORTANT PENDING ]
         2)
      [(7, EveningSummary [pending_today] true)].
Proof. reflexivity. Qed.

Example evening_check_all_closed :
  snd (_evening_check 7 UTC evening evening
         (World (Storage.make [done_tomorrow] 2) []))
  = World (Storage.make [done_tomorrow] 2) [(7, AllClosed)].
Proof. reflexivity. Qed.

Lemma bind_list_tasks {B} user_id day status (k : list Task.t -> action B) w :
  bind (list_tasks user_id day status) k w
  = k (Storage.list_tasks (storage w) user_id day status) w.
Proof. reflexivity. Qed.

(** [r] is the row that carries the pending task [t] over to [tomorrow]. *)
Definition carried_over (user_id : Z) (tomorrow : date) (t r : Task.t) :
  Prop :=
  Task.telegram_user_id r = user_id
  /\ Task.title r = Task.title t
  /\ Task.day r = tomorrow
  /\ Task.estimated_minutes r = Task.estimated_minutes t
  /\ Task.due_local_time r = Storage.stored_time (Task.due_local_time t)
  /\ Task.priority r = Jobs.carryover_priority (Task.priority t)
  /\ Task.status r = PENDING.

Lemma carry_loop_rows user_id now_local tomorrow pending : forall w,
  exists rows,
    Storage.tasks
      (storage
         (snd (for_each pending
                 (fun t =>
                    add_task user_id (Task.title t) now_local tomorrow
                      (Task.estimated_minutes t) (Task.due_local_time t)
                      (Jobs.carryover_priority (Task.priority t)) ;;;
                    ret tt) w)))
    = Storage.tasks (storage w) ++ rows
    /\ Forall2 (carried_over user_id tomorrow) pending rows.
Proof.
  induction pending as [|t pending IH]; intros w; simpl.
  - exists []. split; [now rewrite app_nil_r|constructor].
  - unfold bind at 1. unfold bind at 1. unfold add_task at 1. simpl.
    match goal with
    | |- context [for_each pending ?body ?w'] =>
        destruct (IH w') as (rows & E & H)
    end.
    eexists (_ :: rows). split.
    + rewrite E. simpl. rewrite <- app_assoc. reflexivity.
    + constructor; [|exact H]. repeat split.
Qed.

(** Without a plan for tomorrow, the evening check adds one row per pending
    task, with the priority that [carryover_priority] gives. *)
Lemma evening_check_carries_pending_over user_id tz now now_local w :
  Storage.list_tasks (storage w) user_id (date_of now) (Some PENDING) <> [] ->
  Storage.list_tasks (storage w) user_id (date_of now + 1) None = [] ->
  exists rows,
    Storage.tasks (storage (snd (_evening_check user_id tz now now_local w)))
    = Storage.tasks (storage w) ++ rows
    /\ Forall2 (carried_over user_id (date_of now + 1))
         (Storage.list_tasks (storage w) user_id (date_of now)
            (Some PENDING))
         rows.
Proof.
  intros Hp Ha. unfold _evening_check.
  rewrite bind_list_tasks.
  destruct (Storage.list_tasks (storage w) user_id (date_of now)
              (Some PENDING)) as [|t pending] eqn:Ep; [congruence|].
  cbn [is_empty]. rewrite bind_list_tasks, Ha. cbn [is_empty].
  destruct (carry_loop_rows user_id now_local (date_of now + 1)
              (t :: pending) w) as (rows & E & H).
  exists rows. split; [|exact H].
  unfold bind at 1.
  destruct (for_each (t :: pending) _ w) as [u w'] eqn:Ef.
  exact E.
Qed.

(** C8. When today has pending tasks and tomorrow has a task recorded, of
    whatever status, the evening check leaves the storage as it is (no task
    is created and none is modified, so that the rows of tomorrow are the
    same) and its summary says that nothing was carried over; and the
    storage changes only on the path where today has pending tasks and
    tomorrow has no task at all. *)
Theorem evening_check_keeps_planned_tomorrow
    (user_id : Z) (tz : ZoneInfo) (now now_local : datetime) (w : world) :
  (Storage.list_tasks (storage w) user_id (date_of now) (Some PENDING) <> [] ->
   Storage.list_tasks (storage w) user_id (date_of now + 1) None <> [] ->
   storage (snd (_evening_check user_id tz now now_local w)) = storage w
   /\ Storage.list_tasks
        (storage (snd (_evening_check user_id tz now now_local w)))
        user_id (date_of now + 1) None
      = Storage.list_tasks (storage w) user_id (date_of now + 1) None
   /\ sent (snd (_evening_check user_id tz now now_local w))
      = sent w
        ++ [(user_id,
             EveningSummary
               (Storage.list_tasks (storage w) user_id (date_of now)
                  (Some PENDING))
               false)])
  /\ (storage (snd (_evening_check user_id tz now now_local w)) <> storage w ->
      Storage.list_tasks (storage w) user_id (date_of now) (Some PENDING)
      <> []
      /\ Storage.list_tasks (storage w) user_id (date_of now + 1) None = []).
Proof.
  unfold _evening_check, bind, list_tasks. simpl.
  destruct (Storage.list_tasks (storage w) user_id (date_of now)
              (Some PENDING)) as [|t pending] eqn:Ep; simpl.
  - split; [intros H; now destruct H|]. intros H. now destruct H.
  - destruct (Storage.list_tasks (storage w) user_id (date_of now + 1) None)
      as [|a already] eqn:Ea; simpl.
    + split; [intros _ H; now destruct H|]. intros _. split; [discriminate|].
      reflexivity.
    + rewrite Ea. split; [intros _ _; repeat split|].
      intros H. now destruct H.
Qed.

Lemma evening_check_keeps_planned_tomorrow_witness :
  storage (snd (_evening_check 7 UTC evening evening planned_world))
  = storage planned_world.
Proof.
  refine (proj1 (proj1 (evening_check_keeps_planned_tomorrow
                          7 UTC evening evening planned_world)
                   _ _)).
  - vm_compute. discriminate.
  - vm_compute. discriminate.
Defined.

End Bot.

(* ------------------------------------------------------------------ *)
(** * planner.py: the shape of a schedule *)

Module PlannerFacts.
Import Datetime PyStr Models Planner.

(** [blocks] start at [cur] and follow one another, [brk] after the end of
    each. *)
Fixpoint laid_out (brk : timedelta) (cur : datetime)
    (blocks : list ScheduledBlock.t) : Prop :=
  match blocks with
  | [] => True
  | b :: rest =>
      ScheduledBlock.start_local b = cur
      /\ laid_out brk (ScheduledBlock.end_local b + brk) rest
  end.

(** The time that the tasks of a list take, breaks between them
    included. *)
Definition load (brk : timedelta) (tasks : list PlanTask.t) : timedelta :=
  fold_right Z.add 0 (List.map duration tasks)
  + brk * (Z.of_nat (length tasks) - 1).

Lemma blocks_from_laid_out brk l : forall cur,
  laid_out brk cur (blocks_from brk cur l).
Proof.
  induction l as [|t l IH]; intros cur; simpl; [exact I|].
  split; [reflexivity|apply IH].
Qed.

Lemma blocks_from_task_ids brk l : forall cur,
  List.map ScheduledBlock.task_id (blocks_from brk cur l)
  = List.map PlanTask.task_id l.
Proof.
  induction l as [|t l IH]; intros cur; simpl; [reflexivity|].
  now rewrite IH.
Qed.

Lemma blocks_from_app brk l1 l2 : forall cur,
  blocks_from brk cur (l1 ++ l2)
  = blocks_from brk cur l1 ++ blocks_from brk (cursor_after brk cur l1) l2.
Proof.
  induction l1 as [|t l1 IH]; intros cur; simpl; [reflexivity|].
  now rewrite IH.
Qed.

Lemma load_cons brk t l :
  l <> [] -> load brk (t :: l) = duration t + brk + load brk l.
Proof.
  intros Hl. unfold load. cbn [List.map fold_right length].
  rewrite Nat2Z.inj_succ. lia.
Qed.

Lemma load_lower brk l : 0 <= brk -> l <> [] -> 0 < load brk l.
Proof.
  intros Hb. induction l as [|t l IH]; [congruence|]. intros _.
  pose proof (duration_pos t).
  destruct l as [|u l].
  - unfold load. simpl. lia.
  - rewrite load_cons by discriminate.
    assert (0 < load brk (u :: l)) by (apply IH; discriminate). lia.
Qed.

Lemma fitting_whole end_dt brk l : forall cur,
  0 <= brk -> l <> [] -> cur + load brk l <= end_dt ->
  fitting end_dt brk cur l = l.
Proof.
  induction l as [|t l IH]; intros cur Hb Hne H; [congruence|].
  simpl. destruct l as [|u l].
  - unfold load in H. simpl in H.
    destruct (Z.gtb_spec (cur + duration t) end_dt); [lia|reflexivity].
  - rewrite load_cons in H by discriminate.
    pose proof (load_lower brk (u :: l) Hb ltac:(discriminate)).
    destruct (Z.gtb_spec (cur + duration t) end_dt); [lia|].
    rewrite IH; [reflexivity|exact Hb|discriminate|lia].
Qed.

Lemma load_perm brk l l' : Permutation l l' -> load brk l = load brk l'.
Proof.
  intros H. unfold load. rewrite (Permutation_length H). f_equal.
  induction H; simpl; lia.
Qed.

(** X1.  The blocks of a schedule are laid out from the start of the window
    without idle time: the first one starts with the window, and each
    other one [max(0, break_minutes)] minutes after the end of the one
    before it. *)
Theorem build_schedule_laid_out
    (day : date) (tz : ZoneInfo) (tasks : list PlanTask.t)
    (window : PlanWindow.t) :
  laid_out (minutes (Z.max 0 (PlanWindow.break_minutes window)))
    (combine day (PlanWindow.start_local window) tz)
    (build_schedule day tz tasks window).
Proof.
  rewrite build_schedule_fitting. apply blocks_from_laid_out.
Qed.

(** X2.  When the tasks, with a break between each two, take no more time than
    the window has, every task gets its block: the blocks are those of
    all the sorted tasks. *)
Theorem build_schedule_places_all_that_fit
    (day : date) (tz : ZoneInfo) (tasks : list PlanTask.t)
    (window : PlanWindow.t) :
  tasks <> [] ->
  combine day (PlanWindow.start_local window) tz
  + load (break_of window) tasks
  <= combine day (PlanWindow.end_local window) tz ->
  Forall2 block_of (ordered_by sort_key tasks)
    (build_schedule day tz tasks window)
  /\ length (build_schedule day tz tasks window) = length tasks
  /\ Permutation (List.map PlanTask.task_id tasks)
       (List.map ScheduledBlock.task_id (build_schedule day tz tasks window)).
Proof.
  intros Hne H. rewrite build_schedule_fitting.
  pose proof (ordered_by_perm sort_key tasks) as Hp.
  rewrite fitting_whole.
  - split; [apply blocks_from_made|]. split.
    + rewrite <- (Forall2_length
                    (blocks_from_made (break_of window)
                       (ordered_by sort_key tasks) _)).
      symmetry. now apply Permutation_length.
    + rewrite blocks_from_task_ids. now apply Permutation_map.
  - apply break_of_nonneg.
  - intros E. rewrite E in Hp. apply Permutation_sym, Permutation_nil in Hp.
    contradiction.
  - now rewrite <- (load_perm _ _ _ Hp).
Qed.

Lemma build_schedule_places_all_that_fit_witness :
  length (build_schedule date_2026_01_11 UTC three_tasks PlanWindow.default)
  = length three_tasks.
Proof.
  refine (proj1 (proj2 (build_schedule_places_all_that_fit
                          date_2026_01_11 UTC three_tasks PlanWindow.default
                          _ _))).
  - discriminate.
  - vm_compute. discriminate.
Defined.

(** ** Independence of the input order *)

(** Two sorted lists with the same members, for an order in which no two
    different members are equivalent, are equal. *)
Lemma sorted_perm_unique {A} (R : A -> A -> Prop) (l1 : list A) :
  forall l2,
    StronglySorted R l1 -> StronglySorted R l2 -> Permutation l1 l2 ->
    (forall x y, In x l1 -> In y l1 -> R x y -> R y x -> x = y) ->
    l1 = l2.
Proof.
  induction l1 as [|a l1 IH]; intros l2 S1 S2 P Anti.
  - apply Permutation_nil in P. now subst.
  - destruct l2 as [|b l2];
      [apply Permutation_sym, Permutation_nil in P; discriminate|].
    apply StronglySorted_inv in S1, S2.
    destruct S1 as [S1 Ha], S2 as [S2 Hb]. rewrite Forall_forall in Ha, Hb.
    assert (E : a = b).
    { assert (Hab : In a (b :: l2))
        by (apply (Permutation_in _ P); now left).
      assert (Hba : In b (a :: l1))
        by (apply (Permutation_in _ (Permutation_sym P)); now left).
      destruct Hab as [Hab|Hab]; [now subst|].
      destruct Hba as [Hba|Hba]; [now subst|].
      apply Anti; [now left|now right|apply Ha, Hba|apply Hb, Hab]. }
    subst b. f_equal. apply IH; auto.
    + now apply Permutation_cons_inv in P.
    + intros x y Hx Hy. apply Anti; now right.
Qed.

Lemma key_le_antisym a b : key_le a b -> key_le b a -> a = b.
Proof.
  rewrite !key_le_spec.
  destruct a as [[[p1 [d1 m1]] e1] i1], b as [[[p2 [d2 m2]] e2] i2].
  unfold key_lt. intros H1 H2.
  assert (p1 = p2 /\ d1 = d2 /\ m1 = m2 /\ e1 = e2 /\ i1 = i2) by lia.
  intuition congruence.
Qed.

Lemma same_id_same_task (tasks : list PlanTask.t) x y :
  NoDup (List.map PlanTask.task_id tasks) ->
  In x tasks -> In y tasks -> PlanTask.task_id x = PlanTask.task_id y ->
  x = y.
Proof.
  induction tasks as [|t tasks IH]; simpl; [tauto|].
  intros Hn Hx Hy E. inversion Hn as [|? ? Hnot Hn']; subst.
  destruct Hx as [Hx|Hx], Hy as [Hy|Hy]; subst; auto.
  - exfalso. apply Hnot. rewrite E. now apply in_map.
  - exfalso. apply Hnot. rewrite <- E. now apply in_map.
Qed.

Lemma ordered_by_perm_invariant tasks tasks' :
  NoDup (List.map PlanTask.task_id tasks) ->
  Permutation tasks tasks' ->
  ordered_by sort_key tasks = ordered_by sort_key tasks'.
Proof.
  intros Hn P.
  apply (sorted_perm_unique (fun x y => key_le (sort_key x) (sort_key y))).
  - apply ordered_by_sorted.
  - apply ordered_by_sorted.
  - rewrite <- (ordered_by_perm sort_key tasks).
    rewrite <- (ordered_by_perm sort_key tasks'). exact P.
  - intros x y Hx Hy Hxy Hyx.
    apply (Permutation_in _ (Permutation_sym (ordered_by_perm _ tasks)))
      in Hx, Hy.
    apply (same_id_same_task tasks); auto.
    pose proof (key_le_antisym _ _ Hxy Hyx) as E.
    unfold sort_key in E. now inversion E.
Qed.

(** X3.  When the task ids are distinct, the schedule does not depend on the
    order in which the tasks are given. *)
Theorem build_schedule_input_order
    (day : date) (tz : ZoneInfo) (tasks tasks' : list PlanTask.t)
    (window : PlanWindow.t) :
  NoDup (List.map PlanTask.task_id tasks) ->
  Permutation tasks tasks' ->
  build_schedule day tz tasks window = build_schedule day tz tasks' window.
Proof.
  intros Hn P. unfold build_schedule.
  now rewrite (ordered_by_perm_invariant tasks tasks' Hn P).
Qed.

Lemma build_schedule_input_order_witness :
  build_schedule date_2026_01_11 UTC three_tasks PlanWindow.default
  = build_schedule date_2026_01_11 UTC (rev three_tasks) PlanWindow.default.
Proof.
  apply build_schedule_input_order.
  - repeat constructor; simpl; intuition discriminate.
  - apply Permutation_rev.
Defined.

Lemma block_ids_of_distinct_tasks day tz tasks window :
  NoDup (List.map PlanTask.task_id tasks) ->
  NoDup (List.map ScheduledBlock.task_id (build_schedule day tz tasks window))
  /\ incl (List.map ScheduledBlock.task_id
             (build_schedule day tz tasks window))
       (List.map PlanTask.task_id tasks).
Proof.
  intros Hn. rewrite build_schedule_fitting.
  destruct (fitting_prefix (combine day (PlanWindow.end_local window) tz)
              (break_of window) (ordered_by sort_key tasks)
              (combine day (PlanWindow.start_local window) tz)) as [rest E].
  rewrite blocks_from_task_ids.
  pose proof (Permutation_map PlanTask.task_id (ordered_by_perm sort_key tasks))
    as P.
  rewrite E, map_app in P. split.
  - apply (Permutation_NoDup P) in Hn. now apply NoDup_app_remove_r in Hn.
  - intros i Hi. apply (Permutation_in _ (Permutation_sym P)).
    apply in_or_app. now left.
Qed.

(** X4.  When the task ids are distinct, no task gets two blocks: the task ids
    of the blocks are distinct, and each is the id of a task. *)
Theorem build_schedule_one_block_per_task
    (day : date) (tz : ZoneInfo) (tasks : list PlanTask.t)
    (window : PlanWindow.t) :
  NoDup (List.map PlanTask.task_id tasks) ->
  NoDup (List.map ScheduledBlock.task_id (build_schedule day tz tasks window))
  /\ incl (List.map ScheduledBlock.task_id
             (build_schedule day tz tasks window))
       (List.map PlanTask.task_id tasks).
Proof. apply block_ids_of_distinct_tasks. Qed.

Lemma build_schedule_one_block_per_task_witness :
  NoDup (List.map ScheduledBlock.task_id
           (build_schedule date_2026_01_11 UTC three_tasks
              PlanWindow.default)).
Proof.
  refine (proj1 (build_schedule_one_block_per_task date_2026_01_11 UTC
                   three_tasks PlanWindow.default _)).
  repeat constructor; simpl; intuition discriminate.
Defined.

(** ** A longer window *)

Lemma fitting_longer e e' brk l : forall cur,
  e <= e' ->
  exists more,
    fitting e' brk cur l = fitting e brk cur l ++ more.
Proof.
  induction l as [|t l IH]; intros cur He; simpl; [now exists []|].
  destruct (Z.gtb_spec (cur + duration t) e) as [H|H].
  - eexists. reflexivity.
  - destruct (Z.gtb_spec (cur + duration t) e'); [lia|].
    destruct (IH (cur + duration t + brk) He) as [more E].
    exists more. simpl. now rewrite E.
Qed.

(** X5.  A window that ends later, with the same start and break, keeps every
    block of the schedule as it is and may only add blocks after them. *)
Theorem build_schedule_longer_window
    (day : date) (tz : ZoneInfo) (tasks : list PlanTask.t)
    (window : PlanWindow.t) (end_local' : time.t) :
  combine day (PlanWindow.end_local window) tz <= combine day end_local' tz ->
  exists more,
    build_schedule day tz tasks
      (PlanWindow.make (PlanWindow.start_local window) end_local'
         (PlanWindow.break_minutes window))
    = build_schedule day tz tasks window ++ more.
Proof.
  intros He. rewrite !build_schedule_fitting. simpl.
  change (break_of (PlanWindow.make (PlanWindow.start_local window)
                      end_local' (PlanWindow.break_minutes window)))
    with (break_of window).
  destruct (fitting_longer _ _ (break_of window)
              (ordered_by sort_key tasks)
              (combine day (PlanWindow.start_local window) tz) He)
    as [more E].
  rewrite E, blocks_from_app. eexists. reflexivity.
Qed.

Lemma build_schedule_longer_window_witness :
  exists more,
    build_schedule date_2026_01_11 UTC misfit_tasks
      (PlanWindow.make (hm 9 0) (hm 23 0) 5)
    = build_schedule date_2026_01_11 UTC misfit_tasks PlanWindow.default
      ++ more.
Proof.
  apply (build_schedule_longer_window date_2026_01_11 UTC misfit_tasks
           PlanWindow.default (hm 23 0)).
  vm_compute. discriminate.
Defined.

End PlannerFacts.

(* ------------------------------------------------------------------ *)
(** * storage.py: what the operations on the [tasks] table do *)

Module StorageFacts.
Import Datetime PyStr Models Storage.

(** The selection of [list_tasks]. *)
Definition selected (telegram_user_id : Z) (day : date)
    (status : option TaskStatus) (r : Task.t) : bool :=
  (Task.telegram_user_id r =? telegram_user_id)
  && (Task.day r =? day)
  && match status with
     | None => true
     | Some s => TaskStatus_eqb (Task.status r) s
     end.

Definition by_id (a b : Task.t) : bool := Task.id a <=? Task.id b.

(** The state that the code keeps the table in: rows in the order of their
    ids, which are distinct, and none above the last id given out. *)
Definition consistent (st : Storage.t) : Prop :=
  StronglySorted (fun a b => Task.id a < Task.id b) (tasks st)
  /\ Forall (fun r => Task.id r <= last_id st) (tasks st).

(** The row that [add_task] writes. *)
Definition new_row (st : Storage.t) (telegram_user_id : Z) (title : str)
    (created_at : datetime) (day : date) (estimated_minutes : Z)
    (due_local_time : option time.t) (priority : Priority) : Task.t :=
  Task.make (next_id st) telegram_user_id title (stored_dt created_at) day
    estimated_minutes (stored_time due_local_time) priority PENDING.

Lemma list_tasks_filter st u d s :
  list_tasks st u d s
  = PySort.sorted_by by_id (filter (selected u d s) (tasks st)).
Proof. reflexivity. Qed.

Lemma fold_max_ge (l : list Z) (z : Z) :
  z <= fold_right Z.max z l /\ Forall (fun x => x <= fold_right Z.max z l) l.
Proof.
  induction l as [|x l [IH1 IH2]]; simpl; [split; [lia|constructor]|].
  split; [lia|]. constructor; [lia|].
  eapply Forall_impl; [|exact IH2]. simpl. lia.
Qed.

Lemma next_id_above st :
  last_id st < next_id st
  /\ Forall (fun r => Task.id r < next_id st) (tasks st).
Proof.
  unfold next_id.
  destruct (fold_max_ge (List.map Task.id (tasks st)) (last_id st))
    as [H1 H2].
  split; [lia|]. rewrite Forall_map in H2.
  eapply Forall_impl; [|exact H2]. simpl. lia.
Qed.

Lemma insert_last {A} (leb : A -> A -> bool) a x l :
  leb a x = true ->
  PySort.insert leb a (l ++ [x]) = PySort.insert leb a l ++ [x].
Proof.
  intros H. induction l as [|y l IH]; simpl.
  - now rewrite H.
  - destruct (leb a y); [reflexivity|]. now rewrite IH.
Qed.

Lemma sorted_by_last {A} (leb : A -> A -> bool) x l :
  (forall a, In a l -> leb a x = true) ->
  PySort.sorted_by leb (l ++ [x]) = PySort.sorted_by leb l ++ [x].
Proof.
  induction l as [|a l IH]; intros H; simpl; [reflexivity|].
  rewrite IH by (intros; apply H; now right).
  apply insert_last. apply H. now left.
Qed.

Lemma filter_filter_same {A} (p q : A -> bool) l :
  (forall x, In x l -> p x = true -> q x = true) ->
  filter p (filter q l) = filter p l.
Proof.
  induction l as [|x l IH]; intros H; simpl; [reflexivity|].
  destruct (q x) eqn:Q; simpl.
  - destruct (p x); rewrite IH; auto; intros; apply H; simpl; auto.
  - destruct (p x) eqn:P.
    + rewrite (H x) in Q; simpl; auto; discriminate.
    + apply IH. intros; apply H; simpl; auto.
Qed.

Lemma filter_none {A} (p : A -> bool) l :
  (forall x, In x l -> p x = false) -> filter p l = [].
Proof.
  induction l as [|x l IH]; intros H; simpl; [reflexivity|].
  rewrite (H x) by (now left). apply IH. intros; apply H; now right.
Qed.

(** ** Ids *)

(** X6.  From a consistent table, [add_task] returns an id above the last id
    given out, so above every id of the table, and leaves the table
    consistent; [delete_tasks_for_day] and [update_task_status] leave it
    consistent without touching the last id: the id of a deleted task is
    never given to another task. *)
Theorem task_ids_are_never_reused
    (st : Storage.t) (telegram_user_id : Z) (title : str)
    (created_at : datetime) (day : date) (estimated_minutes : Z)
    (due_local_time : option time.t) (priority : Priority) :
  consistent st ->
  (last_id st
   < fst (add_task st telegram_user_id title created_at day
            estimated_minutes due_local_time priority)
   /\ consistent
        (snd (add_task st telegram_user_id title created_at day
                estimated_minutes due_local_time priority))
   /\ last_id
        (snd (add_task st telegram_user_id title created_at day
                estimated_minutes due_local_time priority))
      = fst (add_task st telegram_user_id title created_at day
               estimated_minutes due_local_time priority))
  /\ (forall u d,
        consistent (delete_tasks_for_day st u d)
        /\ last_id (delete_tasks_for_day st u d) = last_id st)
  /\ (forall u i s,
        consistent (update_task_status st u i s)
        /\ last_id (update_task_status st u i s) = last_id st).
Proof.
  intros [Hs Hl]. destruct (next_id_above st) as [Hn1 Hn2].
  split; [|split].
  - simpl. split; [exact Hn1|]. split; [|reflexivity]. split; simpl.
    + clear Hl. induction Hs as [|a l Hs IH Ha]; simpl.
      * repeat constructor.
      * inversion Hn2; subst. constructor; [now apply IH|].
        apply Forall_app. split; [exact Ha|]. repeat constructor. simpl.
        assumption.
    + apply Forall_app. split.
      * eapply Forall_impl; [|exact Hn2]. simpl. lia.
      * repeat constructor. simpl. lia.
  - intros u d. split; [|reflexivity]. split; simpl.
    + clear Hl Hn2. induction Hs as [|a l Hs IH Ha]; simpl; [constructor|].
      destruct (negb _); [|exact IH].
      constructor; [exact IH|]. apply incl_Forall with (l1 := l); auto.
      intros x Hx. now apply filter_In in Hx.
    + apply incl_Forall with (l1 := tasks st); auto.
      intros x Hx. now apply filter_In in Hx.
  - intros u i s. split; [|reflexivity].
    assert (Hid : forall r,
      Task.id (if (Task.telegram_user_id r =? u) && (Task.id r =? i)
               then with_status s r else r) = Task.id r)
      by (intros r; destruct (_ && _); reflexivity).
    split; simpl.
    + clear Hl Hn2. induction Hs as [|a l Hs IH Ha]; simpl; [constructor|].
      constructor; [exact IH|]. rewrite Forall_map.
      eapply Forall_impl; [|exact Ha]. simpl. intros r. now rewrite !Hid.
    + rewrite Forall_map. eapply Forall_impl; [|exact Hl]. simpl.
      intros r. now rewrite Hid.
Qed.

(** An empty table, and a table with two rows. *)
Definition two_rows : Storage.t :=
  make
    [ Task.make 1 7 (lit "report") 0 date_2026_01_11 60 None OPTIONAL PENDING;
      Task.make 4 8 (lit "call") 0 date_2026_01_11 30 None URGENT DONE ]
    5.

Lemma task_ids_are_never_reused_witness :
  last_id two_rows
  < fst (add_task two_rows 7 (lit "mail") 0 date_2026_01_11 20 None URGENT).
Proof.
  refine (proj1 (proj1 (task_ids_are_never_reused two_rows 7 (lit "mail") 0
                          date_2026_01_11 20 None URGENT _))).
  split; simpl; repeat constructor; simpl; lia.
Defined.

(** ** Adding and listing *)

Lemma add_task_listing st telegram_user_id title created_at day
    estimated_minutes due_local_time priority u d s :
  list_tasks
    (snd (add_task st telegram_user_id title created_at day
            estimated_minutes due_local_time priority)) u d s
  = list_tasks st u d s
    ++ (if selected u d s
             (new_row st telegram_user_id title created_at day
                estimated_minutes due_local_time priority)
        then [new_row st telegram_user_id title created_at day
                estimated_minutes due_local_time priority]
        else []).
Proof.
  rewrite !list_tasks_filter. simpl tasks. rewrite filter_app. simpl filter.
  fold (new_row st telegram_user_id title created_at day estimated_minutes
          due_local_time priority).
  destruct (selected u d s _); [|now rewrite !app_nil_r].
  apply sorted_by_last. intros a Ha. apply filter_In in Ha.
  destruct Ha as [Ha _]. destruct (next_id_above st) as [_ Hn].
  rewrite Forall_forall in Hn. specialize (Hn a Ha).
  unfold by_id. simpl. apply Z.leb_le. lia.
Qed.

(** X8.  [list_tasks] returns the rows of the user and the day, of the status
    asked for when one is, each as often as the table has it, in
    ascending order of id. *)
Theorem list_tasks_selects_and_sorts
    (st : Storage.t) (u : Z) (d : date) (s : option TaskStatus) :
  Permutation (filter (selected u d s) (tasks st)) (list_tasks st u d s)
  /\ StronglySorted (fun a b => Task.id a <= Task.id b) (list_tasks st u d s)
  /\ forall r,
       In r (list_tasks st u d s)
       <-> In r (tasks st)
           /\ Task.telegram_user_id r = u /\ Task.day r = d
           /\ match s with None => True | Some x => Task.status r = x end.
Proof.
  rewrite list_tasks_filter. split; [apply PySort.sorted_by_perm|]. split.
  - pose proof (PySort.sorted_by_sorted by_id) as H.
    eapply StronglySorted_ind with (P := StronglySorted _);
      [constructor| |apply H].
    + intros a l _ IH Ha. constructor; [exact IH|].
      eapply Forall_impl; [|exact Ha]. unfold by_id. intros b.
      apply Z.leb_le.
    + intros x y. unfold by_id. rewrite !Z.leb_le. lia.
    + intros x y z. unfold by_id. rewrite !Z.leb_le. lia.
  - intros r. rewrite PySort.sorted_by_In, filter_In. unfold selected.
    rewrite !andb_true_iff, !Z.eqb_eq.
    destruct s as [x|].
    + destruct (Task.status r), x; simpl; intuition congruence.
    + intuition.
Qed.

(** ** Deleting a day *)

Lemma delete_day_listing_empty st telegram_user_id day s :
  list_tasks (delete_tasks_for_day st telegram_user_id day)
    telegram_user_id day s = [].
Proof.
  rewrite !list_tasks_filter. simpl tasks.
  rewrite filter_none; [reflexivity|].
  intros r Hr. apply filter_In in Hr. destruct Hr as [_ Hr].
  unfold selected. apply negb_true_iff in Hr. now rewrite Hr.
Qed.

Lemma delete_day_listing_other st telegram_user_id day u d s :
  u <> telegram_user_id \/ d <> day ->
  list_tasks (delete_tasks_for_day st telegram_user_id day) u d s
  = list_tasks st u d s.
Proof.
  intros Hne. rewrite !list_tasks_filter. simpl tasks.
  rewrite filter_filter_same; [reflexivity|].
  intros r _. unfold selected. rewrite !andb_true_iff, !Z.eqb_eq.
  intros [[Hu Hd] _]. apply negb_true_iff, andb_false_iff.
  rewrite !Z.eqb_neq. destruct Hne; [left|right]; congruence.
Qed.

(** X9.  After [delete_tasks_for_day], the listings of that user and day are
    empty, and those of any other user or day are what they were. *)
Theorem delete_tasks_for_day_then_list_tasks
    (st : Storage.t) (telegram_user_id : Z) (day : date)
    (u : Z) (d : date) (s : option TaskStatus) :
  list_tasks (delete_tasks_for_day st telegram_user_id day)
    telegram_user_id day s = []
  /\ (u <> telegram_user_id \/ d <> day ->
      list_tasks (delete_tasks_for_day st telegram_user_id day) u d s
      = list_tasks st u d s).
Proof.
  split; [apply delete_day_listing_empty|apply delete_day_listing_other].
Qed.

Lemma delete_tasks_for_day_then_list_tasks_witness :
  list_tasks (delete_tasks_for_day two_rows 7 date_2026_01_11) 8
    date_2026_01_11 None
  = list_tasks two_rows 8 date_2026_01_11 None.
Proof.
  refine (proj2 (delete_tasks_for_day_then_list_tasks two_rows 7
                   date_2026_01_11 8 date_2026_01_11 None) _).
  left. discriminate.
Defined.

(** ** Marking a task *)

Lemma map_mark_filter (p : Task.t -> bool) (f : Task.t -> Task.t) l :
  (forall r, In r l -> p (f r) = p r) ->
  (forall r, In r l -> p r = true -> f r = r) ->
  filter p (List.map f l) = filter p l.
Proof.
  induction l as [|r l IH]; intros H1 H2; simpl; [reflexivity|].
  rewrite H1 by (now left).
  rewrite IH;
    [|intros; apply H1; simpl; auto|intros; apply H2; simpl; auto].
  destruct (p r) eqn:P; [|reflexivity].
  now rewrite H2 by (simpl; auto).
Qed.

(** X10.  [update_task_status] changes no row of another user: the listings of
    every other user are what they were.  After a task is marked done or
    skipped, no pending listing of its user has a row of its id; and the
    rows that are marked keep everything but their status. *)
Theorem update_task_status_scope
    (st : Storage.t) (telegram_user_id task_id : Z) (status : TaskStatus) :
  (forall u d s,
     u <> telegram_user_id ->
     list_tasks (update_task_status st telegram_user_id task_id status) u d s
     = list_tasks st u d s)
  /\ (status <> PENDING ->
      forall d r,
        In r (list_tasks
                (update_task_status st telegram_user_id task_id status)
                telegram_user_id d (Some PENDING)) ->
        Task.id r <> task_id)
  /\ (forall d r,
        In r (list_tasks st telegram_user_id d None) ->
        Task.id r = task_id ->
        In (with_status status r)
          (list_tasks (update_task_status st telegram_user_id task_id status)
             telegram_user_id d (Some status)))
  /\ length (tasks (update_task_status st telegram_user_id task_id status))
     = length (tasks st).
Proof.
  split; [|split; [|split]].
  - intros u d s Hu. rewrite !list_tasks_filter. simpl tasks.
    rewrite map_mark_filter; [reflexivity| |].
    + intros r _. destruct (Z.eqb_spec (Task.telegram_user_id r)
                              telegram_user_id) as [E|E]; simpl;
        [|reflexivity].
      destruct (Task.id r =? task_id); [|reflexivity].
      unfold selected. simpl. rewrite E.
      destruct (Z.eqb_spec telegram_user_id u); [congruence|reflexivity].
    + intros r _ Hsel. unfold selected in Hsel.
      rewrite !andb_true_iff, Z.eqb_eq in Hsel.
      destruct Hsel as [[E _] _].
      destruct (Z.eqb_spec (Task.telegram_user_id r) telegram_user_id);
        [congruence|reflexivity].
  - intros Hs d r Hr Eid. rewrite list_tasks_filter in Hr.
    apply PySort.sorted_by_In, filter_In in Hr. destruct Hr as [Hr Hsel].
    simpl in Hr. apply in_map_iff in Hr. destruct Hr as (r0 & E & _).
    unfold selected in Hsel. rewrite !andb_true_iff, !Z.eqb_eq in Hsel.
    destruct Hsel as [[Hu _] Hst].
    destruct (Z.eqb_spec (Task.telegram_user_id r0) telegram_user_id)
      as [E1|E1], (Z.eqb_spec (Task.id r0) task_id) as [E2|E2];
      simpl in E; subst r; simpl in *; try congruence.
    destruct status; simpl in Hst; congruence.
  - intros d r Hr Eid. rewrite list_tasks_filter in *.
    apply PySort.sorted_by_In, filter_In in Hr. destruct Hr as [Hr Hsel].
    apply PySort.sorted_by_In, filter_In. split.
    + simpl. apply in_map_iff. exists r. split; [|exact Hr].
      unfold selected in Hsel. rewrite !andb_true_iff, !Z.eqb_eq in Hsel.
      destruct Hsel as [[Hu _] _].
      rewrite Hu, Eid, !Z.eqb_refl. reflexivity.
    + unfold selected in *. simpl.
      rewrite !andb_true_iff in *. destruct Hsel as [[Hu Hd] _].
      repeat split; auto. destruct status; reflexivity.
  - simpl. apply length_map.
Qed.

Lemma update_task_status_scope_witness :
  list_tasks (update_task_status two_rows 7 4 PENDING) 8 date_2026_01_11
    None
  = list_tasks two_rows 8 date_2026_01_11 None.
Proof.
  refine (proj1 (update_task_status_scope two_rows 7 4 PENDING) 8
            date_2026_01_11 None _).
  discriminate.
Defined.

End StorageFacts.

(* ------------------------------------------------------------------ *)
(** * storage.py: what SQLite takes as a parameter *)

Module Sqlite.
Import Datetime PyStr Models Storage StorageFacts Raising.

(** An [int] is bound as a 64-bit [INTEGER]: [sqlite3] raises
    [OverflowError] for any other. *)
Definition int64 (n : Z) : bool := (- 2 ^ 63 <=? n) && (n <? 2 ^ 63).

(** A [str] is bound in UTF-8, which has no encoding of a surrogate:
    [sqlite3] raises [UnicodeEncodeError] for a [str] with one. *)
Definition is_surrogate (c : Z) : bool := (55296 <=? c) && (c <=? 57343).

Definition encodable (s : str) : bool :=
  forallb (fun c => negb (is_surrogate c)) s.

(** [add_task], with its exceptions.  The parameters are bound in the
    order of the statement, of which [telegram_user_id], [title] and
    [estimated_minutes] can fail; then [AUTOINCREMENT] gives the next id,
    or fails with [SQLITE_FULL] once the largest id has been given out.
    An exception leaves the table as it is. *)
Definition add_task (st : Storage.t) (telegram_user_id : Z) (title : str)
    (created_at : datetime) (day : date) (estimated_minutes : Z)
    (due_local_time : option time.t) (priority : Priority) :
  result (Z * Storage.t) :=
  if negb (int64 telegram_user_id) then Raise OverflowError
  else if negb (encodable title) then Raise UnicodeEncodeError
  else if negb (int64 estimated_minutes) then Raise OverflowError
  else if 2 ^ 63 <=? next_id st then Raise OperationalError
  else
    Ok (Storage.add_task st telegram_user_id title created_at day
          estimated_minutes due_local_time priority).

(** [list_tasks], with the exception of its parameter
    [telegram_user_id]. *)
Definition list_tasks (st : Storage.t) (telegram_user_id : Z) (day : date)
    (status : option TaskStatus) : result (list Task.t) :=
  if negb (int64 telegram_user_id) then Raise OverflowError
  else Ok (Storage.list_tasks st telegram_user_id day status).

(** An estimate of 2^63 minutes. *)
Example add_task_of_too_many_minutes :
  add_task two_rows 7 (lit "mail") 0 date_2026_01_11 (2 ^ 63) None URGENT
  = Raise OverflowError
  /\ add_task two_rows 7 (lit "mail") 0 date_2026_01_11 (2 ^ 63 - 1) None
       URGENT
     = Ok (6,
           Storage.make
             (tasks two_rows
              ++ [Task.make 6 7 (lit "mail") 0 date_2026_01_11 (2 ^ 63 - 1)
                    None URGENT PENDING])
             6).
Proof. split; reflexivity. Qed.

(** ** Adding and listing *)

(** X7.  [add_task] writes a row when SQLite takes the user id, the title
    and the estimate and an id is left: it returns the id of the row, and
    every listing that returned before returns the same rows, followed by
    the new row when the row is of its user and day and the listing is for
    no status or for pending.  The row has the arguments as its fields, the
    creation time cut to the second and the due time to the minute, and is
    pending.  In every other case [add_task] raises and no row is written:
    [OverflowError] for a user id or an estimate outside 64 bits. *)
Theorem add_task_then_list_tasks
    (st : Storage.t) (telegram_user_id : Z) (title : str)
    (created_at : datetime) (day : date) (estimated_minutes : Z)
    (due_local_time : option time.t) (priority : Priority) :
  (int64 telegram_user_id = true ->
   encodable title = true ->
   int64 estimated_minutes = true ->
   next_id st < 2 ^ 63 ->
   exists id st',
     add_task st telegram_user_id title created_at day estimated_minutes
       due_local_time priority = Ok (id, st')
     /\ last_id st < id
     /\ forall u d s rows,
          list_tasks st u d s = Ok rows ->
          list_tasks st' u d s
          = Ok (rows
                ++ (if selected u d s
                         (Task.make id telegram_user_id title
                            (created_at - created_at mod 1000000) day
                            estimated_minutes
                            (option_map
                               (fun t =>
                                  time.make (time.hour t) (time.minute t)
                                    0 0)
                               due_local_time)
                            priority PENDING)
                    then
                      [Task.make id telegram_user_id title
                         (created_at - created_at mod 1000000) day
                         estimated_minutes
                         (option_map
                            (fun t =>
                               time.make (time.hour t) (time.minute t) 0 0)
                            due_local_time)
                         priority PENDING]
                    else [])))
  /\ (int64 telegram_user_id = false ->
      add_task st telegram_user_id title created_at day estimated_minutes
        due_local_time priority = Raise OverflowError)
  /\ (int64 telegram_user_id = true ->
      encodable title = true ->
      int64 estimated_minutes = false ->
      add_task st telegram_user_id title created_at day estimated_minutes
        due_local_time priority = Raise OverflowError)
  /\ (int64 telegram_user_id && encodable title && int64 estimated_minutes
      && (next_id st <? 2 ^ 63) = false ->
      exists e,
        add_task st telegram_user_id title created_at day estimated_minutes
          due_local_time priority = Raise e).
Proof.
  unfold add_task. split; [|split; [|split]].
  - intros -> -> -> Hn. cbn [negb].
    destruct (Z.leb_spec (2 ^ 63) (next_id st)) as [|_]; [lia|].
    eexists _, _. split; [reflexivity|].
    split; [apply next_id_above|].
    intros u d s rows. unfold list_tasks.
    destruct (int64 u); cbn [negb]; [|discriminate].
    intros H. inversion H. subst rows. f_equal.
    apply add_task_listing.
  - intros ->. reflexivity.
  - intros -> -> ->. reflexivity.
  - destruct (int64 telegram_user_id); cbn [negb andb];
      [|intros _; eexists; reflexivity].
    destruct (encodable title); cbn [negb andb];
      [|intros _; eexists; reflexivity].
    destruct (int64 estimated_minutes); cbn [negb andb];
      [|intros _; eexists; reflexivity].
    intros H. apply Z.ltb_ge in H. apply Z.leb_le in H. rewrite H.
    eexists; reflexivity.
Qed.

End Sqlite.

(* ------------------------------------------------------------------ *)
(** * storage.py: the [users] and [user_state] tables *)

Module Users.
Import Datetime PyStr Models.

(** [models.User] *)
Module User.
Record t := make
  { telegram_user_id : Z;
    timezone : str;
    morning_prompt_time : time.t;
    evening_check_time : time.t }.
End User.

(** The two tables: the rows of [users], each read as [get_user] reads it,
    and those of [user_state], a user id with the two days
    [last_morning_sent_day] and [last_evening_sent_day], [None] for
    [NULL].  The first row of a key is the row of that key; SQL leaves the
    order of the rows of [list_user_ids] open, and nothing below depends on
    it. *)
Record t := make
  { users : list User.t;
    user_state : list (Z * (option date * option date)) }.

Definition empty : t := make [] [].

(** [_to_iso_time] keeps the hour and the minute. *)
Definition stored_time (d : time.t) : time.t :=
  time.make (time.hour d) (time.minute d) 0 0.

Definition list_user_ids (st : t) : list Z :=
  List.map User.telegram_user_id (users st).

Fixpoint find_state (rows : list (Z * (option date * option date)))
    (telegram_user_id : Z) : option (option date * option date) :=
  match rows with
  | [] => None
  | (k, v) :: rest =>
      if k =? telegram_user_id then Some v
      else find_state rest telegram_user_id
  end.

Definition get_last_sent_days (st : t) (telegram_user_id : Z) :
  option date * option date :=
  match find_state (user_state st) telegram_user_id with
  | None => (None, None)
  | Some (lm, le) => (lm, le)
  end.

(** [INSERT ... ON CONFLICT(telegram_user_id) DO UPDATE SET ...]: the row
    of the key becomes [update v] when it is [v], and [insert] is added
    when there is none. *)
Fixpoint upsert_state (k : Z) (insert : option date * option date)
    (update : option date * option date -> option date * option date)
    (rows : list (Z * (option date * option date))) :
  list (Z * (option date * option date)) :=
  match rows with
  | [] => [(k, insert)]
  | (k', v) :: rest =>
      if k' =? k then (k', update v) :: rest
      else (k', v) :: upsert_state k insert update rest
  end.

Definition set_last_morning_sent_day (st : t) (telegram_user_id : Z)
    (day : date) : t :=
  make (users st)
    (upsert_state telegram_user_id (Some day, None)
       (fun v => (Some day, snd v)) (user_state st)).

Definition set_last_evening_sent_day (st : t) (telegram_user_id : Z)
    (day : date) : t :=
  make (users st)
    (upsert_state telegram_user_id (None, Some day)
       (fun v => (fst v, Some day)) (user_state st)).

Fixpoint upsert_row (row : User.t) (rows : list User.t) : list User.t :=
  match rows with
  | [] => [row]
  | r :: rest =>
      if User.telegram_user_id r =? User.telegram_user_id row
      then row :: rest
      else r :: upsert_row row rest
  end.

Definition upsert_user (st : t) (user : User.t) : t :=
  make
    (upsert_row
       (User.make (User.telegram_user_id user) (User.timezone user)
          (stored_time (User.morning_prompt_time user))
          (stored_time (User.evening_check_time user)))
       (users st))
    (user_state st).

Fixpoint find_user (rows : list User.t) (telegram_user_id : Z) :
  option User.t :=
  match rows with
  | [] => None
  | r :: rest =>
      if User.telegram_user_id r =? telegram_user_id then Some r
      else find_user rest telegram_user_id
  end.

Definition get_user (st : t) (telegram_user_id : Z) : option User.t :=
  find_user (users st) telegram_user_id.

(** ** bot.py: [user_or_default] *)

Definition default_user (user_id : Z) : User.t :=
  User.make user_id (lit "UTC") (hm 8 0) (hm 20 0).

(** The user returned and the storage left. *)
Definition user_or_default (st : t) (user_id : Z) : User.t * t :=
  match get_user st user_id with
  | Some u => (u, st)
  | None => (default_user user_id, upsert_user st (default_user user_id))
  end.

(** ** Lookups after updates *)

Lemma find_upsert_state k insert update rows k' :
  find_state (upsert_state k insert update rows) k'
  = if k' =? k
    then Some (match find_state rows k with
               | Some v => update v
               | None => insert
               end)
    else find_state rows k'.
Proof.
  induction rows as [|[k0 v] rows IH]; simpl.
  - rewrite (Z.eqb_sym k k'). reflexivity.
  - destruct (Z.eqb_spec k0 k) as [E|E]; simpl.
    + subst k0. rewrite (Z.eqb_sym k k').
      destruct (k' =? k); reflexivity.
    + rewrite IH. destruct (Z.eqb_spec k' k) as [E'|E'].
      * subst k'. now destruct (Z.eqb_spec k0 k).
      * reflexivity.
Qed.

Lemma find_upsert_row row rows k :
  find_user (upsert_row row rows) k
  = if k =? User.telegram_user_id row then Some row else find_user rows k.
Proof.
  induction rows as [|r rows IH]; simpl.
  - rewrite (Z.eqb_sym _ k). reflexivity.
  - destruct (Z.eqb_spec (User.telegram_user_id r)
                (User.telegram_user_id row)) as [E|E]; simpl.
    + rewrite E, (Z.eqb_sym _ k).
      destruct (k =? User.telegram_user_id row); reflexivity.
    + rewrite IH. destruct (Z.eqb_spec k (User.telegram_user_id row))
        as [E'|E']; [|reflexivity].
      subst k. now destruct (Z.eqb_spec (User.telegram_user_id r)
                               (User.telegram_user_id row)).
Qed.

Lemma find_user_id rows k u :
  find_user rows k = Some u -> User.telegram_user_id u = k.
Proof.
  induction rows as [|r rows IH]; simpl; [discriminate|].
  destruct (Z.eqb_spec (User.telegram_user_id r) k); [|exact IH].
  intros H. now inversion H; subst.
Qed.

Lemma upsert_row_ids row rows k :
  In k (List.map User.telegram_user_id (upsert_row row rows))
  <-> k = User.telegram_user_id row
      \/ In k (List.map User.telegram_user_id rows).
Proof.
  induction rows as [|r rows IH]; simpl; [intuition|].
  destruct (Z.eqb_spec (User.telegram_user_id r)
              (User.telegram_user_id row)) as [E|E]; simpl.
  - rewrite E. intuition.
  - rewrite IH. intuition.
Qed.

Lemma get_last_sent_days_set_morning st u day k :
  get_last_sent_days (set_last_morning_sent_day st u day) k
  = if k =? u then (Some day, snd (get_last_sent_days st u))
    else get_last_sent_days st k.
Proof.
  unfold get_last_sent_days, set_last_morning_sent_day. simpl.
  rewrite find_upsert_state. destruct (k =? u); [|reflexivity].
  destruct (find_state (user_state st) u) as [[lm le]|]; reflexivity.
Qed.

Lemma get_last_sent_days_set_evening st u day k :
  get_last_sent_days (set_last_evening_sent_day st u day) k
  = if k =? u then (fst (get_last_sent_days st u), Some day)
    else get_last_sent_days st k.
Proof.
  unfold get_last_sent_days, set_last_evening_sent_day. simpl.
  rewrite find_upsert_state. destruct (k =? u); [|reflexivity].
  destruct (find_state (user_state st) u) as [[lm le]|]; reflexivity.
Qed.

(** X11.  Recording the day of the morning prompt of a user keeps the day of
    their evening check, and the other way round; the day recorded is the
    day read back; the days of every other user, and the [users] table,
    are what they were. *)
Theorem last_sent_days_round_trip
    (st : t) (telegram_user_id : Z) (day : date) :
  get_last_sent_days (set_last_morning_sent_day st telegram_user_id day)
    telegram_user_id
  = (Some day, snd (get_last_sent_days st telegram_user_id))
  /\ get_last_sent_days (set_last_evening_sent_day st telegram_user_id day)
       telegram_user_id
     = (fst (get_last_sent_days st telegram_user_id), Some day)
  /\ (forall k, k <> telegram_user_id ->
        get_last_sent_days
          (set_last_morning_sent_day st telegram_user_id day) k
        = get_last_sent_days st k
        /\ get_last_sent_days
             (set_last_evening_sent_day st telegram_user_id day) k
           = get_last_sent_days st k)
  /\ users (set_last_morning_sent_day st telegram_user_id day) = users st
  /\ users (set_last_evening_sent_day st telegram_user_id day) = users st.
Proof.
  rewrite get_last_sent_days_set_morning, get_last_sent_days_set_evening.
  rewrite Z.eqb_refl. repeat split.
  - rewrite get_last_sent_days_set_morning.
    now destruct (Z.eqb_spec k telegram_user_id).
  - rewrite get_last_sent_days_set_evening.
    now destruct (Z.eqb_spec k telegram_user_id).
Qed.

(** X12.  [get_user] after [upsert_user] returns the user with the two times of
    day cut to the minute; every other user is read as before; the ids of
    [list_user_ids] are those of before and the id of the user; and
    [user_state] is untouched. *)
Theorem upsert_user_round_trip (st : t) (user : User.t) :
  get_user (upsert_user st user) (User.telegram_user_id user)
  = Some
      (User.make (User.telegram_user_id user) (User.timezone user)
         (time.make (time.hour (User.morning_prompt_time user))
            (time.minute (User.morning_prompt_time user)) 0 0)
         (time.make (time.hour (User.evening_check_time user))
            (time.minute (User.evening_check_time user)) 0 0))
  /\ (forall k, k <> User.telegram_user_id user ->
        get_user (upsert_user st user) k = get_user st k)
  /\ (forall k, In k (list_user_ids (upsert_user st user))
                <-> k = User.telegram_user_id user
                    \/ In k (list_user_ids st))
  /\ user_state (upsert_user st user) = user_state st.
Proof.
  unfold get_user, upsert_user, list_user_ids. simpl.
  split; [|split; [|split]].
  - rewrite find_upsert_row. simpl. now rewrite Z.eqb_refl.
  - intros k Hk. rewrite find_upsert_row. simpl.
    now destruct (Z.eqb_spec k (User.telegram_user_id user)).
  - intros k. rewrite upsert_row_ids. simpl. reflexivity.
  - reflexivity.
Qed.

(** X13.  [user_or_default] returns the stored user and leaves the storage as it
    is when the user is registered; otherwise it registers the user with
    zone UTC and the times 08:00 and 20:00.  Either way the user returned
    has the id asked for and is the one that [get_user] reads afterwards,
    the other users are untouched, and a second call changes nothing. *)
Theorem user_or_default_registers_once (st : t) (user_id : Z) :
  (forall u, get_user st user_id = Some u ->
             user_or_default st user_id = (u, st))
  /\ (get_user st user_id = None ->
      fst (user_or_default st user_id)
      = User.make user_id (lit "UTC") (hm 8 0) (hm 20 0))
  /\ get_user (snd (user_or_default st user_id)) user_id
     = Some (fst (user_or_default st user_id))
  /\ User.telegram_user_id (fst (user_or_default st user_id)) = user_id
  /\ (forall k, k <> user_id ->
        get_user (snd (user_or_default st user_id)) k = get_user st k)
  /\ user_or_default (snd (user_or_default st user_id)) user_id
     = user_or_default st user_id
  /\ user_state (snd (user_or_default st user_id)) = user_state st.
Proof.
  unfold user_or_default.
  destruct (get_user st user_id) as [u|] eqn:E.
  - simpl. rewrite E. repeat split; auto.
    + intros u' H. now inversion H.
    + discriminate.
    + unfold get_user in E. now apply find_user_id in E.
  - assert (G : get_user (upsert_user st (default_user user_id)) user_id
                = Some (default_user user_id)).
    { unfold get_user, upsert_user. simpl. rewrite find_upsert_row. simpl.
      now rewrite Z.eqb_refl. }
    simpl. rewrite G. repeat split; auto.
    + discriminate.
    + intros k Hk. unfold get_user, upsert_user. simpl.
      rewrite find_upsert_row. simpl. now destruct (Z.eqb_spec k user_id).
Qed.

End Users.

(* ------------------------------------------------------------------ *)
(** * bot.py: the periodic tick *)

Module Coordinator.
Import Datetime PyStr Models Users.

(** What the tick sends: the morning prompt, and the texts of the evening
    check. *)
Inductive notice :=
| MorningPrompt
| EveningCheck (text : Bot.message).

(** The storage and the messages sent, each with its [chat_id].  The sends
    are taken to succeed. *)
Record world := World
  { users_db : Users.t;
    tasks_db : Storage.t;
    sent : list (Z * notice) }.

(** What [datetime.now(tz)] returns to one turn of the loop: to the tick
    itself, and to the two calls of the evening check. *)
Record readings := Readings
  { tick_now : datetime;
    check_now : datetime;
    check_now_local : datetime }.

Section Tick.

(** [ZoneInfo(key)], with [None] for the exception of an unknown key. *)
Variable ZoneInfo_of : str -> option ZoneInfo.

(** [await self._evening_check(app, user_id, tz)] *)
Definition evening_check (w : world) (user_id : Z) (tz : ZoneInfo)
    (r : readings) : world :=
  let bw :=
    snd (Bot._evening_check user_id tz (check_now r) (check_now_local r)
           (Bot.World (tasks_db w) [])) in
  World (users_db w) (Bot.storage bw)
    (sent w
     ++ List.map (fun cm => (fst cm, EveningCheck (snd cm))) (Bot.sent bw)).

(** One turn of the loop of [_daily_tick]; [None] stands for the exception
    of [ZoneInfo], which ends the tick. *)
Definition tick_user (w : world) (user_id : Z) (r : readings) :
  option world :=
  let (u, db) := user_or_default (users_db w) user_id in
  match ZoneInfo_of (User.timezone u) with
  | None => None
  | Some tz =>
      let now := tick_now r in
      let today := date_of now in
      let (last_morning, last_evening) := get_last_sent_days db user_id in
      let m :=
        Jobs.due_for_daily_send now today (User.morning_prompt_time u) tz
          last_morning Jobs.default_window_minutes in
      let w1 :=
        if Jobs.DueCheck.due_now m then
          World (set_last_morning_sent_day db user_id today) (tasks_db w)
            (sent w ++ [(user_id, MorningPrompt)])
        else World db (tasks_db w) (sent w) in
      let e :=
        Jobs.due_for_daily_send now today (User.evening_check_time u) tz
          last_evening Jobs.default_window_minutes in
      if Jobs.DueCheck.due_now e then
        let w2 := evening_check w1 user_id tz r in
        Some (World (set_last_evening_sent_day (users_db w2) user_id today)
                (tasks_db w2) (sent w2))
      else Some w1
  end.

(** [for user_id in self.storage.list_user_ids(): ...]; [clock] gives the
    readings of the turn of each user. *)
Fixpoint tick_loop (w : world) (ids : list Z) (clock : Z -> readings) :
  option world :=
  match ids with
  | [] => Some w
  | user_id :: rest =>
      match tick_user w user_id (clock user_id) with
      | None => None
      | Some w' => tick_loop w' rest clock
      end
  end.

Definition _daily_tick (w : world) (clock : Z -> readings) : option world :=
  tick_loop w (list_user_ids (users_db w)) clock.

(** The morning prompts and the evening texts sent to [u]. *)
Definition morning_prompts (u : Z) (l : list (Z * notice)) : nat :=
  length
    (filter
       (fun cm => (fst cm =? u)
                  && match snd cm with MorningPrompt => true | _ => false end)
       l).

Definition evening_texts (u : Z) (l : list (Z * notice)) : nat :=
  length
    (filter
       (fun cm => (fst cm =? u)
                  && match snd cm with EveningCheck _ => true | _ => false end)
       l).

End Tick.

(** ** The evening check sends one text *)

Lemma carry_loop_sent user_id now_local tomorrow pending : forall w,
  Bot.sent
    (snd (Bot.for_each pending
            (fun t =>
               Bot.bind
                 (Bot.add_task user_id (Task.title t) now_local tomorrow
                    (Task.estimated_minutes t) (Task.due_local_time t)
                    (Jobs.carryover_priority (Task.priority t)))
                 (fun _ => Bot.ret tt)) w))
  = Bot.sent w.
Proof.
  induction pending as [|t pending IH]; intros w; simpl; [reflexivity|].
  unfold Bot.bind at 1. unfold Bot.bind at 1. unfold Bot.add_task at 1.
  simpl. rewrite IH. reflexivity.
Qed.

Lemma evening_check_sends_one user_id tz now now_local w :
  exists text,
    Bot.sent (snd (Bot._evening_check user_id tz now now_local w))
    = Bot.sent w ++ [(user_id, text)].
Proof.
  unfold Bot._evening_check. rewrite Bot.bind_list_tasks.
  destruct (Storage.list_tasks (Bot.storage w) user_id (date_of now)
              (Some PENDING)) as [|t pending]; cbn [Bot.is_empty].
  - eexists. reflexivity.
  - rewrite Bot.bind_list_tasks.
    destruct (Storage.list_tasks (Bot.storage w) user_id (date_of now + 1)
                None) as [|a already]; cbn [Bot.is_empty].
    + unfold Bot.bind at 1.
      pose proof (carry_loop_sent user_id now_local (date_of now + 1)
                    (t :: pending) w) as H.
      destruct (Bot.for_each (t :: pending) _ w) as [x w'].
      simpl in *. rewrite H. eexists. reflexivity.
    + eexists. reflexivity.
Qed.

(** ** What one turn does *)

Lemma due_now_not_sent now today when_local tz last_sent_day window_minutes :
  Jobs.DueCheck.due_now
    (Jobs.due_for_daily_send now today when_local tz last_sent_day
       window_minutes) = true ->
  last_sent_day <> Some today.
Proof.
  unfold Jobs.due_for_daily_send.
  destruct (Jobs.is_day last_sent_day today) eqn:E; [discriminate|].
  intros _ H. apply Jobs.is_day_spec in H. congruence.
Qed.

Lemma user_or_default_state st user_id x :
  get_last_sent_days (snd (user_or_default st user_id)) x
  = get_last_sent_days st x.
Proof.
  unfold user_or_default. destruct (get_user st user_id); reflexivity.
Qed.

Lemma count_app_one (p : Z * notice -> bool) l x :
  length (filter p (l ++ [x]))
  = (length (filter p l) + (if p x then 1 else 0))%nat.
Proof.
  rewrite filter_app, length_app. simpl. now destruct (p x).
Qed.

(** A turn for user [k] sends the morning prompt ([sm]) and runs the
    evening check ([se]) only when the day recorded for it is not today,
    records today for what it does, sends one message for each, all to
    [k], and leaves the days of the other users alone. *)
Lemma tick_user_effect ZoneInfo_of w k r w' :
  tick_user ZoneInfo_of w k r = Some w' ->
  exists sm se : bool,
    (sm = true ->
     fst (get_last_sent_days (users_db w) k) <> Some (date_of (tick_now r)))
    /\ (se = true ->
        snd (get_last_sent_days (users_db w) k)
        <> Some (date_of (tick_now r)))
    /\ (forall x,
          get_last_sent_days (users_db w') x
          = if x =? k
            then (if sm then Some (date_of (tick_now r))
                  else fst (get_last_sent_days (users_db w) k),
                  if se then Some (date_of (tick_now r))
                  else snd (get_last_sent_days (users_db w) k))
            else get_last_sent_days (users_db w) x)
    /\ (forall u,
          morning_prompts u (sent w')
          = (morning_prompts u (sent w)
             + (if sm && (k =? u)%Z then 1 else 0))%nat)
    /\ (forall u,
          evening_texts u (sent w')
          = (evening_texts u (sent w)
             + (if se && (k =? u)%Z then 1 else 0))%nat).
Proof.
  unfold tick_user.
  pose proof (user_or_default_state (users_db w) k) as Hst.
  destruct (user_or_default (users_db w) k) as [u db]. simpl in Hst.
  destruct (ZoneInfo_of (User.timezone u)) as [tz|]; [|discriminate].
  pose proof (Hst k) as Hk.
  destruct (get_last_sent_days db k) as [lm le].
  rewrite <- Hk. simpl fst. simpl snd.
  destruct (Jobs.DueCheck.due_now
              (Jobs.due_for_daily_send (tick_now r) (date_of (tick_now r))
                 (User.morning_prompt_time u) tz lm
                 Jobs.default_window_minutes)) eqn:Dm;
    destruct (Jobs.DueCheck.due_now
                (Jobs.due_for_daily_send (tick_now r) (date_of (tick_now r))
                   (User.evening_check_time u) tz le
                   Jobs.default_window_minutes)) eqn:De;
    intros H; inversion H; subst w'; clear H;
    [exists true, true|exists true, false|exists false, true
    |exists false, false];
    (split;
     [intros Hb; first [discriminate Hb|now apply due_now_not_sent in Dm]|]);
    (split;
     [intros Hb; first [discriminate Hb|now apply due_now_not_sent in De]|]).
  all: unfold evening_check; cbn [users_db tasks_db sent];
    try (destruct (evening_check_sends_one k tz (check_now r)
                     (check_now_local r) (Bot.World (tasks_db w) []))
           as [text Et];
         rewrite Et; cbn [Bot.sent app List.map fst snd]).
  all: split; [|split].
  all: try (intros x;
            rewrite ?get_last_sent_days_set_evening,
              ?get_last_sent_days_set_morning;
            destruct (Z.eqb_spec x k) as [->|Hx];
            rewrite ?Z.eqb_refl, ?Hst, <- ?Hk; reflexivity).
  all: intros x; unfold morning_prompts, evening_texts;
    rewrite ?count_app_one; cbn [fst snd];
    rewrite ?andb_false_r, ?andb_true_r; cbn [andb];
    destruct (k =? x); lia.
Qed.

(** ** Once a day *)

(** The ticks that the scheduler runs one after the other, each with the
    readings of its clock. *)
Fixpoint ticks (ZoneInfo_of : str -> option ZoneInfo) (w : world)
    (clocks : list (Z -> readings)) : option world :=
  match clocks with
  | [] => Some w
  | clock :: rest =>
      match _daily_tick ZoneInfo_of w clock with
      | None => None
      | Some w' => ticks ZoneInfo_of w' rest
      end
  end.

(** At most one more prompt than [base] was sent to [u], and if one was,
    day [d] is recorded for it. *)
Definition morning_budget (base : nat) (d : date) (u : Z) (w : world) :
  Prop :=
  morning_prompts u (sent w) = base
  \/ (morning_prompts u (sent w) = S base
      /\ fst (get_last_sent_days (users_db w) u) = Some d).

Definition evening_budget (base : nat) (d : date) (u : Z) (w : world) :
  Prop :=
  evening_texts u (sent w) = base
  \/ (evening_texts u (sent w) = S base
      /\ snd (get_last_sent_days (users_db w) u) = Some d).

Lemma tick_user_budget ZoneInfo_of base d u w k r w' :
  tick_user ZoneInfo_of w k r = Some w' ->
  (k = u -> date_of (tick_now r) = d) ->
  (morning_budget base d u w -> morning_budget base d u w')
  /\ (evening_budget base d u w -> evening_budget base d u w').
Proof.
  intros H Hd. apply tick_user_effect in H.
  destruct H as (sm & se & Hm & He & Hs & Cm & Ce).
  unfold morning_budget, evening_budget.
  rewrite (Cm u), (Ce u), (Hs u).
  destruct (Z.eqb_spec k u) as [E|E].
  - subst k. rewrite Z.eqb_refl, !andb_true_r, (Hd eq_refl) in *.
    cbn [fst snd]. split; intros [B|[B1 B2]].
    + destruct sm; [right; split; [lia|reflexivity]|left; lia].
    + destruct sm; [now destruct (Hm eq_refl)|right; split; [lia|exact B2]].
    + destruct se; [right; split; [lia|reflexivity]|left; lia].
    + destruct se; [now destruct (He eq_refl)|right; split; [lia|exact B2]].
  - rewrite !andb_false_r.
    replace (u =? k) with false
      by (symmetry; apply Z.eqb_neq; congruence).
    rewrite !Nat.add_0_r. tauto.
Qed.

Lemma tick_loop_budget ZoneInfo_of base d u clock ids : forall w w',
  tick_loop ZoneInfo_of w ids clock = Some w' ->
  date_of (tick_now (clock u)) = d ->
  (morning_budget base d u w -> morning_budget base d u w')
  /\ (evening_budget base d u w -> evening_budget base d u w').
Proof.
  induction ids as [|k ids IH]; intros w w' H Hd; simpl in H.
  - inversion H. tauto.
  - destruct (tick_user ZoneInfo_of w k (clock k)) as [w1|] eqn:E;
      [|discriminate].
    destruct (tick_user_budget ZoneInfo_of base d u w k (clock k) w1 E)
      as [M1 E1]; [intros ->; exact Hd|].
    destruct (IH w1 w' H Hd) as [M2 E2]. split; auto.
Qed.

Lemma ticks_budget ZoneInfo_of base d u clocks : forall w w',
  ticks ZoneInfo_of w clocks = Some w' ->
  Forall (fun clock => date_of (tick_now (clock u)) = d) clocks ->
  (morning_budget base d u w -> morning_budget base d u w')
  /\ (evening_budget base d u w -> evening_budget base d u w').
Proof.
  induction clocks as [|c clocks IH]; intros w w' H Hd; simpl in H.
  - inversion H. tauto.
  - destruct (_daily_tick ZoneInfo_of w c) as [w1|] eqn:E; [|discriminate].
    inversion Hd as [|? ? Hc Hd']; subst.
    destruct (tick_loop_budget ZoneInfo_of base (date_of (tick_now (c u))) u
                c _ w w1 E eq_refl) as [M1 E1].
    destruct (IH w1 w' H Hd') as [M2 E2]. split; auto.
Qed.

(** X14.  However many ticks run while the clock of a user reads one and the
    same day, for whatever users and with whatever else in the storage,
    the user is sent at most one morning prompt and at most one text of
    the evening check. *)
Theorem daily_prompts_once_a_day
    (ZoneInfo_of : str -> option ZoneInfo) (w w' : world)
    (clocks : list (Z -> readings)) (u : Z) (d : date) :
  ticks ZoneInfo_of w clocks = Some w' ->
  Forall (fun clock => date_of (tick_now (clock u)) = d) clocks ->
  (morning_prompts u (sent w') <= morning_prompts u (sent w) + 1)%nat
  /\ (evening_texts u (sent w') <= evening_texts u (sent w) + 1)%nat.
Proof.
  intros H Hd.
  destruct (ticks_budget ZoneInfo_of (morning_prompts u (sent w)) d u clocks
              w w' H Hd) as [M _].
  destruct (ticks_budget ZoneInfo_of (evening_texts u (sent w)) d u clocks
              w w' H Hd) as [_ E].
  destruct (M (or_introl eq_refl)) as [M1|[M1 _]],
           (E (or_introl eq_refl)) as [E1|[E1 _]]; lia.
Qed.

(** A user whose prompts are due at 08:00 and 20:00, and three ticks of one
    morning. *)
Definition one_user : world :=
  World (Users.make [default_user 7] []) (Storage.make [] 0) [].

Definition morning_clocks : list (Z -> readings) :=
  List.map
    (fun t _ =>
       Readings (combine date_2026_01_11 t UTC)
         (combine date_2026_01_11 t UTC) (combine date_2026_01_11 t UTC))
    [hm 7 55; hm 8 0; hm 8 5].

Example three_ticks_one_prompt :
  option_map sent (ticks (fun _ => Some UTC) one_user morning_clocks)
  = Some [(7, MorningPrompt)].
Proof. reflexivity. Qed.

Lemma daily_prompts_once_a_day_witness :
  exists w',
    ticks (fun _ => Some UTC) one_user morning_clocks = Some w'
    /\ (morning_prompts 7 (sent w')
        <= morning_prompts 7 (sent one_user) + 1)%nat.
Proof.
  eexists. split; [reflexivity|].
  refine (proj1 (daily_prompts_once_a_day (fun _ => Some UTC) one_user _
                   morning_clocks 7 date_2026_01_11 eq_refl _)).
  repeat constructor.
Defined.

End Coordinator.

(* ------------------------------------------------------------------ *)
(** * bot.py: what the evening check writes *)

Module EveningFacts.
Import Datetime PyStr Models.

Lemma check_without_pending user_id tz now now_local w :
  Storage.list_tasks (Bot.storage w) user_id (date_of now) (Some PENDING)
  = [] ->
  snd (Bot._evening_check user_id tz now now_local w)
  = Bot.World (Bot.storage w) (Bot.sent w ++ [(user_id, Bot.AllClosed)]).
Proof.
  intros H. unfold Bot._evening_check.
  rewrite Bot.bind_list_tasks, H. reflexivity.
Qed.

Lemma check_with_plan user_id tz now now_local w :
  Storage.list_tasks (Bot.storage w) user_id (date_of now + 1) None <> [] ->
  Bot.storage (snd (Bot._evening_check user_id tz now now_local w))
  = Bot.storage w.
Proof.
  intros H. unfold Bot._evening_check. rewrite Bot.bind_list_tasks.
  destruct (Storage.list_tasks (Bot.storage w) user_id (date_of now)
              (Some PENDING)) as [|t pending]; cbn [Bot.is_empty];
    [reflexivity|].
  rewrite Bot.bind_list_tasks.
  destruct (Storage.list_tasks (Bot.storage w) user_id (date_of now + 1)
              None) as [|a already]; [congruence|reflexivity].
Qed.

(** X15.  With pending tasks today and no task recorded for tomorrow, the
    evening check adds one row per pending task, after the rows of the
    table: for the same user and dated tomorrow, with the title and the
    estimate of the task, its due time cut to the minute, the priority
    that [carryover_priority] gives, and pending. *)
Theorem evening_check_carries_each_pending
    (user_id : Z) (tz : ZoneInfo) (now now_local : datetime)
    (w : Bot.world) :
  Storage.list_tasks (Bot.storage w) user_id (date_of now) (Some PENDING)
  <> [] ->
  Storage.list_tasks (Bot.storage w) user_id (date_of now + 1) None = [] ->
  exists rows,
    Storage.tasks
      (Bot.storage (snd (Bot._evening_check user_id tz now now_local w)))
    = Storage.tasks (Bot.storage w) ++ rows
    /\ Forall2
         (fun t r =>
            Task.telegram_user_id r = user_id
            /\ Task.title r = Task.title t
            /\ Task.day r = date_of now + 1
            /\ Task.estimated_minutes r = Task.estimated_minutes t
            /\ Task.due_local_time r
               = Storage.stored_time (Task.due_local_time t)
            /\ Task.priority r = Jobs.carryover_priority (Task.priority t)
            /\ Task.status r = PENDING)
         (Storage.list_tasks (Bot.storage w) user_id (date_of now)
            (Some PENDING))
         rows.
Proof. apply Bot.evening_check_carries_pending_over. Qed.

Lemma evening_check_carries_each_pending_witness :
  exists rows,
    Storage.tasks
      (Bot.storage
         (snd (Bot._evening_check 7 UTC Bot.evening Bot.evening
                 Bot.unplanned_world)))
    = Storage.tasks (Bot.storage Bot.unplanned_world) ++ rows
    /\ length rows = 1%nat.
Proof.
  destruct (evening_check_carries_each_pending 7 UTC Bot.evening Bot.evening
              Bot.unplanned_world) as (rows & E & H).
  - vm_compute. discriminate.
  - reflexivity.
  - exists rows. split; [exact E|].
    apply Forall2_length in H. rewrite <- H. reflexivity.
Defined.

(** X16.  An evening check that runs again on the same day, whatever the time,
    writes nothing: tasks are carried over once. *)
Theorem evening_check_again_writes_nothing
    (user_id : Z) (tz : ZoneInfo) (now now_local now' now_local' : datetime)
    (w : Bot.world) :
  date_of now' = date_of now ->
  Bot.storage
    (snd (Bot._evening_check user_id tz now' now_local'
            (snd (Bot._evening_check user_id tz now now_local w))))
  = Bot.storage (snd (Bot._evening_check user_id tz now now_local w)).
Proof.
  intros Hd.
  destruct (Storage.list_tasks (Bot.storage w) user_id (date_of now)
              (Some PENDING)) as [|t pending] eqn:Ep.
  - rewrite (check_without_pending user_id tz now now_local w Ep).
    rewrite check_without_pending; [reflexivity|]. simpl. now rewrite Hd.
  - destruct (Storage.list_tasks (Bot.storage w) user_id (date_of now + 1)
                None) as [|a already] eqn:Ea.
    + destruct (Bot.evening_check_carries_pending_over user_id tz now
                  now_local w) as (rows & E & H);
        [congruence|exact Ea|].
      rewrite Ep in H. inversion H as [|? r ? rows' Hr Hrows]; subst.
      apply check_with_plan. rewrite Hd.
      assert (Hin : In r (Storage.list_tasks
                            (Bot.storage
                               (snd (Bot._evening_check user_id tz now
                                       now_local w)))
                            user_id (date_of now + 1) None)).
      { unfold Storage.list_tasks. apply PySort.sorted_by_In, filter_In.
        split.
        - rewrite E. apply in_or_app. right. now left.
        - destruct Hr as (Hu & _ & Hday & _).
          rewrite Hu, Hday, !Z.eqb_refl. reflexivity. }
      intros Hnil. rewrite Hnil in Hin. contradiction.
    + assert (Hs : Bot.storage
                     (snd (Bot._evening_check user_id tz now now_local w))
                   = Bot.storage w)
        by (apply check_with_plan; rewrite Ea; discriminate).
      apply check_with_plan. rewrite Hs, Hd, Ea. discriminate.
Qed.

Lemma evening_check_again_writes_nothing_witness :
  Bot.storage
    (snd (Bot._evening_check 7 UTC Bot.evening Bot.evening
            (snd (Bot._evening_check 7 UTC Bot.evening Bot.evening
                    Bot.unplanned_world))))
  = Bot.storage
      (snd (Bot._evening_check 7 UTC Bot.evening Bot.evening
              Bot.unplanned_world)).
Proof.
  apply (evening_check_again_writes_nothing 7 UTC Bot.evening Bot.evening
           Bot.evening Bot.evening Bot.unplanned_world).
  reflexivity.
Defined.

End EveningFacts.

(* ------------------------------------------------------------------ *)
(** * bot.py: [on_text], from the parsed lines to the plan *)

Module Replan.
Import Datetime PyStr Models Storage StorageFacts.

(** [parsing.ParsedTaskInput] *)
Module ParsedTaskInput.
Record t := make
  { title : str;
    estimated_minutes : Z;
    due_local_time : option time.t }.
End ParsedTaskInput.

(** [TaskDraft(title=p.title, ...) for p in parsed] *)
Definition drafts_of (parsed : list ParsedTaskInput.t) :
  list Prioritizer.TaskDraft.t :=
  List.map
    (fun p =>
       Prioritizer.TaskDraft.make (ParsedTaskInput.title p)
         (ParsedTaskInput.estimated_minutes p)
         (ParsedTaskInput.due_local_time p))
    parsed.

(** [for p, pr in zip(parsed, priorities, strict=True): ...], with the
    storage it leaves and the [task_ids] it collects; [None] stands for the
    [ValueError] that [zip] raises when one list ends before the other. *)
Fixpoint add_parsed (st : Storage.t) (user_id : Z) (now_local : datetime)
    (today : date) (parsed : list ParsedTaskInput.t)
    (priorities : list Priority) (task_ids : list Z) :
  Storage.t * option (list Z) :=
  match parsed, priorities with
  | [], [] => (st, Some task_ids)
  | p :: parsed', pr :: priorities' =>
      let (task_id, st') :=
        add_task st user_id (ParsedTaskInput.title p) now_local today
          (ParsedTaskInput.estimated_minutes p)
          (ParsedTaskInput.due_local_time p) pr in
      add_parsed st' user_id now_local today parsed' priorities'
        (task_ids ++ [task_id])
  | _, _ => (st, None)
  end.

(** The tasks of today are deleted, then the parsed ones are added. *)
Definition store_plan (st : Storage.t) (user_id : Z) (now_local : datetime)
    (parsed : list ParsedTaskInput.t) (priorities : list Priority) :
  Storage.t * option (list Z) :=
  let today := date_of now_local in
  add_parsed (delete_tasks_for_day st user_id today) user_id now_local today
    parsed priorities [].

(** [PlanTask(task_id=t.id, ...) for t in tasks] *)
Definition plan_tasks_of (tasks : list Task.t) : list Planner.PlanTask.t :=
  List.map
    (fun t =>
       Planner.PlanTask.make (Task.id t) (Task.title t)
         (Task.estimated_minutes t) (Task.due_local_time t)
         (Task.priority t))
    tasks.

(** What [on_text] does with at least one parsed line: the storage it
    leaves and the blocks it schedules ([None] after the [ValueError]). *)
Definition plan_today (st : Storage.t) (user_id : Z) (tz : ZoneInfo)
    (now_local : datetime) (parsed : list ParsedTaskInput.t)
    (priorities : list Priority) :
  Storage.t * option (list ScheduledBlock.t) :=
  let today := date_of now_local in
  let (st', task_ids) := store_plan st user_id now_local parsed priorities in
  match task_ids with
  | None => (st', None)
  | Some _ =>
      let tasks := list_tasks st' user_id today (Some PENDING) in
      (st',
       Some (Planner.build_schedule today tz (plan_tasks_of tasks)
               Planner.PlanWindow.default))
  end.

(** How [on_text] ends: with the answer that no task was found, with the
    [ValueError] of [zip], or with a schedule. *)
Inductive outcome :=
| NoTaskFound
| Raised
| Scheduled (blocks : list ScheduledBlock.t).

(** [on_text] for a user who is entering tasks, from the parsed lines on,
    when nothing raises but [zip]; [priorities] is what the prioritizer
    returns for them.  [Handler.on_text] is the whole of it, with the
    guard and the exceptions. *)
Definition on_text (st : Storage.t) (user_id : Z) (tz : ZoneInfo)
    (now_local : datetime) (parsed : list ParsedTaskInput.t)
    (priorities : list Priority) : Storage.t * outcome :=
  match parsed with
  | [] => (st, NoTaskFound)
  | _ :: _ =>
      match plan_today st user_id tz now_local parsed priorities with
      | (st', None) => (st', Raised)
      | (st', Some blocks) => (st', Scheduled blocks)
      end
  end.

(** [r] is the row stored for the parsed line [p] with priority [pr]. *)
Definition stored_as (user_id : Z) (now_local : datetime)
    (ppr : ParsedTaskInput.t * Priority) (r : Task.t) : Prop :=
  Task.telegram_user_id r = user_id
  /\ Task.title r = ParsedTaskInput.title (fst ppr)
  /\ Task.created_at r = stored_dt now_local
  /\ Task.day r = date_of now_local
  /\ Task.estimated_minutes r = ParsedTaskInput.estimated_minutes (fst ppr)
  /\ Task.due_local_time r
     = stored_time (ParsedTaskInput.due_local_time (fst ppr))
  /\ Task.priority r = snd ppr
  /\ Task.status r = PENDING.

Lemma add_parsed_rows user_id now_local parsed :
  forall priorities st task_ids,
    length priorities = length parsed ->
    exists rows,
      snd (add_parsed st user_id now_local (date_of now_local) parsed
             priorities task_ids)
      = Some (task_ids ++ List.map Task.id rows)
      /\ Forall2 (stored_as user_id now_local) (List.combine parsed priorities)
           rows
      /\ (forall u d s,
            list_tasks
              (fst (add_parsed st user_id now_local (date_of now_local)
                      parsed priorities task_ids)) u d s
            = list_tasks st u d s ++ filter (selected u d s) rows)
      /\ StronglySorted Z.lt (List.map Task.id rows)
      /\ Forall (fun r => last_id st < Task.id r) rows.
Proof.
  induction parsed as [|p parsed IH]; intros [|pr priorities] st ids Hl;
    try discriminate.
  - exists []. simpl. rewrite app_nil_r. repeat split; try constructor.
    intros. now rewrite app_nil_r.
  - simpl in Hl. injection Hl as Hl. cbn [add_parsed].
    destruct (add_task st user_id (ParsedTaskInput.title p) now_local
                (date_of now_local) (ParsedTaskInput.estimated_minutes p)
                (ParsedTaskInput.due_local_time p) pr)
      as [task_id st1] eqn:Ea.
    destruct (IH priorities st1 (ids ++ [task_id]) Hl)
      as (rows & Hids & Hrows & Hlist & Hsorted & Habove).
    pose proof (add_task_listing st user_id (ParsedTaskInput.title p)
                  now_local (date_of now_local)
                  (ParsedTaskInput.estimated_minutes p)
                  (ParsedTaskInput.due_local_time p) pr) as Hadd.
    rewrite Ea in Hadd. simpl snd in Hadd.
    set (row := new_row st user_id (ParsedTaskInput.title p) now_local
                  (date_of now_local) (ParsedTaskInput.estimated_minutes p)
                  (ParsedTaskInput.due_local_time p) pr) in *.
    assert (Eid : task_id = Task.id row /\ last_id st1 = Task.id row)
      by (unfold add_task in Ea; inversion Ea; split; reflexivity).
    destruct Eid as [Eid Elast]. destruct (next_id_above st) as [Hn _].
    exists (row :: rows). split; [|split; [|split; [|split]]].
    + rewrite Hids, <- app_assoc, Eid. reflexivity.
    + constructor; [|exact Hrows]. repeat split.
    + intros u d s. rewrite Hlist, Hadd, <- app_assoc. f_equal. simpl.
      destruct (selected u d s row); reflexivity.
    + cbn [List.map]. constructor; [exact Hsorted|]. rewrite Forall_map.
      eapply Forall_impl; [|exact Habove]. intros r Hr. cbv beta in *.
      rewrite <- Elast. exact Hr.
    + constructor; [exact Hn|].
      eapply Forall_impl; [|exact Habove]. intros r Hr. cbv beta in *.
      rewrite Elast in Hr. change (Task.id row) with (next_id st) in Hr.
      lia.
Qed.

Lemma stored_rows_selected user_id now_local l rows u d s :
  Forall2 (stored_as user_id now_local) l rows ->
  filter (selected u d s) rows
  = if (user_id =? u) && (date_of now_local =? d)
       && match s with
          | None | Some PENDING => true
          | Some _ => false
          end
    then rows else [].
Proof.
  induction 1 as [|x r l rows Hr H IH]; simpl.
  - now destruct (_ && _).
  - rewrite IH. destruct Hr as (Hu & _ & _ & Hd & _ & _ & _ & Hs).
    unfold selected. rewrite Hu, Hd, Hs.
    destruct (user_id =? u), (date_of now_local =? d); simpl;
      try reflexivity.
    destruct s as [[| |]|]; reflexivity.
Qed.

Lemma add_parsed_mismatch user_id now_local today parsed :
  forall priorities st task_ids,
    length priorities <> length parsed ->
    snd (add_parsed st user_id now_local today parsed priorities task_ids)
    = None.
Proof.
  induction parsed as [|p parsed IH]; intros [|pr priorities] st ids Hl;
    simpl in *; try reflexivity; try congruence.
  apply IH. congruence.
Qed.

Lemma sorted_lt_NoDup (l : list Z) : StronglySorted Z.lt l -> NoDup l.
Proof.
  induction 1 as [|a l Hs IH Ha]; constructor; [|exact IH].
  rewrite Forall_forall in Ha. intros Hin. specialize (Ha a Hin). lia.
Qed.

Lemma parse_priority_length json_loads unicode_lower text n :
  length (Prioritizer._parse_priority_json_array json_loads unicode_lower
            text n) = Z.to_nat n.
Proof.
  unfold Prioritizer._parse_priority_json_array.
  destruct (Prioritizer.try_body json_loads unicode_lower text n)
    as [out|] eqn:E; [|apply Prioritizer.all_important_length].
  apply Prioritizer.try_body_spec in E.
  destruct E as (labels & _ & Hn & Hf).
  rewrite <- (Forall2_length Hf), <- Hn. now rewrite Nat2Z.id.
Qed.

Lemma store_plan_rows_exist st user_id now_local parsed priorities :
  length priorities = length parsed ->
  exists task_ids,
    snd (store_plan st user_id now_local parsed priorities) = Some task_ids.
Proof.
  intros Hl. unfold store_plan.
  destruct (add_parsed_rows user_id now_local parsed priorities
              (delete_tasks_for_day st user_id (date_of now_local)) [] Hl)
    as (rows & Hids & _).
  eexists. exact Hids.
Qed.

Lemma plan_today_storage st user_id tz now_local parsed priorities :
  fst (plan_today st user_id tz now_local parsed priorities)
  = fst (store_plan st user_id now_local parsed priorities).
Proof.
  unfold plan_today.
  destruct (store_plan st user_id now_local parsed priorities) as [st' [l|]];
    reflexivity.
Qed.

Lemma on_text_storage st user_id tz now_local p parsed priorities :
  fst (on_text st user_id tz now_local (p :: parsed) priorities)
  = fst (store_plan st user_id now_local (p :: parsed) priorities).
Proof.
  unfold on_text. rewrite <- (plan_today_storage _ _ tz).
  destruct (plan_today st user_id tz now_local (p :: parsed) priorities)
    as [st' [blocks|]]; reflexivity.
Qed.

Lemma on_text_raised st user_id tz now_local parsed priorities :
  snd (on_text st user_id tz now_local parsed priorities) = Raised
  <-> parsed <> [] /\ length priorities <> length parsed.
Proof.
  unfold on_text. destruct parsed as [|p parsed].
  - simpl. split; [discriminate|]. intros [H _]. congruence.
  - unfold plan_today.
    destruct (Nat.eq_dec (length priorities) (length (p :: parsed)))
      as [Hl|Hl].
    + destruct (store_plan_rows_exist st user_id now_local (p :: parsed)
                  priorities Hl) as (ids & E).
      destruct (store_plan st user_id now_local (p :: parsed) priorities)
        as [st' o]. simpl in E. subst o. simpl.
      split; [discriminate|]. intros [_ H]. contradiction.
    + pose proof (add_parsed_mismatch user_id now_local
                    (date_of now_local) (p :: parsed) priorities
                    (delete_tasks_for_day st user_id (date_of now_local))
                    [] Hl) as E.
      unfold store_plan.
      destruct (add_parsed _ user_id now_local (date_of now_local)
                  (p :: parsed) priorities []) as [st' o].
      simpl in E. subst o. simpl. split; [|reflexivity].
      intros _. split; [discriminate|exact Hl].
Qed.

(** ** The blocks of the plan *)

(** Two lines, typed in at 08:30 by the user of [StorageFacts.two_rows]. *)
Definition two_lines : list ParsedTaskInput.t :=
  [ ParsedTaskInput.make (lit "call") 30 (Some (hm 10 30));
    ParsedTaskInput.make (lit "mail") 20 None ].

Definition half_past_eight : datetime :=
  combine date_2026_01_11 (hm 8 30) UTC.

Example on_text_two_lines :
  List.map (fun r => (Task.id r, Task.priority r))
    (list_tasks
       (fst (on_text two_rows 7 UTC half_past_eight two_lines
               [URGENT; OPTIONAL]))
       7 (date_of half_past_eight) None)
  = [(6, URGENT); (7, OPTIONAL)].
Proof. reflexivity. Qed.

(** X19.  The blocks that [on_text] schedules are blocks of the tasks that it
    leaves pending for the user today, one at most for each. *)
Theorem on_text_blocks_of_stored_tasks
    (st st' : Storage.t) (user_id : Z) (tz : ZoneInfo)
    (now_local : datetime) (parsed : list ParsedTaskInput.t)
    (priorities : list Priority) (blocks : list ScheduledBlock.t) :
  on_text st user_id tz now_local parsed priorities
  = (st', Scheduled blocks) ->
  NoDup (List.map ScheduledBlock.task_id blocks)
  /\ incl (List.map ScheduledBlock.task_id blocks)
       (List.map Task.id
          (list_tasks st' user_id (date_of now_local) (Some PENDING))).
Proof.
  intros H. unfold on_text in H.
  destruct parsed as [|p parsed]; [discriminate|].
  destruct (Nat.eq_dec (length priorities) (length (p :: parsed)))
    as [Hl|Hl].
  - destruct (add_parsed_rows user_id now_local (p :: parsed) priorities
                (delete_tasks_for_day st user_id (date_of now_local)) [] Hl)
      as (rows & Hids & Hrows & Hlist & Hsorted & _).
    unfold plan_today, store_plan in H.
    destruct (add_parsed _ user_id now_local (date_of now_local)
                (p :: parsed) priorities []) as [st1 o].
    simpl in Hids, Hlist. subst o. inversion H; subst st' blocks. clear H.
    rewrite Hlist, delete_day_listing_empty,
      (stored_rows_selected _ _ _ _ _ _ _ Hrows), !Z.eqb_refl.
    simpl.
    assert (E : List.map Planner.PlanTask.task_id (plan_tasks_of rows)
                = List.map Task.id rows)
      by (unfold plan_tasks_of; rewrite map_map; reflexivity).
    rewrite <- E. apply PlannerFacts.block_ids_of_distinct_tasks.
    rewrite E. now apply sorted_lt_NoDup.
  - pose proof (add_parsed_mismatch user_id now_local (date_of now_local)
                  (p :: parsed) priorities
                  (delete_tasks_for_day st user_id (date_of now_local)) []
                  Hl) as E.
    unfold plan_today, store_plan in H.
    destruct (add_parsed _ user_id now_local (date_of now_local)
                (p :: parsed) priorities []) as [st1 o].
    cbn [snd] in E. subst o. discriminate H.
Qed.

Lemma on_text_blocks_of_stored_tasks_witness :
  exists st' blocks,
    on_text two_rows 7 UTC half_past_eight two_lines [URGENT; OPTIONAL]
    = (st', Scheduled blocks)
    /\ NoDup (List.map ScheduledBlock.task_id blocks).
Proof.
  eexists _, _. split; [reflexivity|].
  refine (proj1 (on_text_blocks_of_stored_tasks two_rows _ 7 UTC
                   half_past_eight two_lines [URGENT; OPTIONAL] _
                   eq_refl)).
Defined.

End Replan.

(* ------------------------------------------------------------------ *)
(** * jobs.py and bot.py: the grace window and the period of the tick *)

Module TickCadence.
Import Datetime Models Jobs.

(** The dueness that the tick computes at [now]: [today] is the date of
    [now]. *)
Definition due_at (now : datetime) (when_local : time.t) (tz : ZoneInfo)
    (last_sent_day : option date) (window_minutes : Z) : bool :=
  DueCheck.due_now
    (due_for_daily_send now (date_of now) when_local tz last_sent_day
       window_minutes).

Lemma date_of_within day (x : datetime) :
  day * us_per_day <= x < (day + 1) * us_per_day -> date_of x = day.
Proof.
  intros H. unfold date_of. symmetry.
  apply (Z.div_unique_pos x us_per_day day (x - day * us_per_day)).
  - unfold us_per_day, us_per_minute, us_per_second in *. lia.
  - lia.
Qed.

(** [datetime.now(tz)] at the instant [t], an instant being the reading of
    the clock of UTC: [utcoffset] gives the offset of the zone from UTC at
    each instant. *)
Definition now_in (utcoffset : Z -> timedelta) (t : Z) : datetime :=
  t + utcoffset t.

(** A reading in the window that starts at the time of the prompt. *)
Lemma due_in_window (now : datetime) (day : date) (when_local : time.t)
    (tz : ZoneInfo) (last_sent_day : option date) (window_minutes : Z)
    (gap : timedelta) :
  gap <= minutes window_minutes ->
  0 <= time_offset when_local ->
  time_offset when_local + gap <= us_per_day ->
  last_sent_day <> Some day ->
  combine day when_local tz <= now < combine day when_local tz + gap ->
  date_of now = day
  /\ due_at now when_local tz last_sent_day window_minutes = true.
Proof.
  intros Hw Hoff Hend Hlast Hnow.
  set (scheduled := combine day when_local tz) in *.
  assert (Hday : date_of now = day).
  { apply date_of_within. unfold scheduled, combine in *. lia. }
  split; [exact Hday|].
  unfold due_at. rewrite Hday. unfold due_for_daily_send.
  fold scheduled.
  destruct (is_day last_sent_day day) eqn:E;
    [apply is_day_spec in E; contradiction|].
  destruct (Z.ltb_spec now scheduled); [lia|].
  destruct (Z.gtb_spec (now - scheduled) (minutes window_minutes));
    [lia|reflexivity].
Qed.

(** Readings that start no later than the time of the prompt, reach it,
    and never advance by more than [gap] from one to the next: one of them
    is in the window. *)
Lemma some_reading_is_due (reading : nat -> datetime) (day : date)
    (when_local : time.t) (tz : ZoneInfo) (last_sent_day : option date)
    (window_minutes : Z) (gap : timedelta) :
  0 < gap <= minutes window_minutes ->
  0 <= time_offset when_local ->
  time_offset when_local + gap <= us_per_day ->
  last_sent_day <> Some day ->
  reading 0%nat <= combine day when_local tz ->
  forall n,
    (forall k, (k < n)%nat -> reading (S k) - reading k <= gap) ->
    combine day when_local tz <= reading n ->
    exists k,
      (k <= n)%nat
      /\ date_of (reading k) = day
      /\ due_at (reading k) when_local tz last_sent_day window_minutes
         = true.
Proof.
  intros Hg Hoff Hend Hlast H0.
  induction n as [|n IH]; intros Hstep Hn.
  - exists 0%nat. split; [lia|].
    apply (due_in_window _ _ _ _ _ _ gap); auto; lia.
  - destruct (Z.le_gt_cases (combine day when_local tz) (reading n))
      as [Hle|Hgt].
    + destruct IH as (k & Hk & Hd); [intros k Hk; apply Hstep; lia|exact Hle|].
      exists k. split; [lia|exact Hd].
    + exists (S n). split; [lia|].
      apply (due_in_window _ _ _ _ _ _ gap); auto; [lia|].
      specialize (Hstep n ltac:(lia)). lia.
Qed.

(** X20.  Ticks that come every [period] of elapsed time, from the instant
    [t0] on, with a period no longer than the grace window, in a zone whose
    offset from UTC is never larger at a tick than at the tick before (it
    does not move forward between them), and is more than minus a day:
    the ticks meet the window of a prompt that was not sent that day.  One
    of them finds it due, on the day of the prompt in the zone, as long as
    the first tick is no later than the prompt and the time of the prompt
    is no less than a period before midnight. *)
Theorem periodic_tick_meets_the_window
    (utcoffset : Z -> timedelta) (t0 : Z) (day : date)
    (when_local : time.t) (tz : ZoneInfo) (last_sent_day : option date)
    (window_minutes : Z) (period : timedelta) :
  0 < period <= minutes window_minutes ->
  0 <= time_offset when_local ->
  time_offset when_local + period <= us_per_day ->
  last_sent_day <> Some day ->
  (forall k, 0 <= k ->
     - us_per_day < utcoffset (t0 + (k + 1) * period)
                    <= utcoffset (t0 + k * period)) ->
  now_in utcoffset t0 <= combine day when_local tz ->
  exists k,
    0 <= k
    /\ date_of (now_in utcoffset (t0 + k * period)) = day
    /\ due_at (now_in utcoffset (t0 + k * period)) when_local tz
         last_sent_day window_minutes
       = true.
Proof.
  intros [Hp Hw] Hoff Hend Hlast Hzone Hnow.
  set (scheduled := combine day when_local tz) in *.
  set (reading := fun k : nat => now_in utcoffset (t0 + Z.of_nat k * period)).
  set (n := Z.to_nat ((scheduled - t0 + us_per_day) / period + 1)).
  assert (Hupd : 0 < us_per_day) by reflexivity.
  assert (Hr0 : reading 0%nat = now_in utcoffset t0).
  { unfold reading. f_equal. simpl. lia. }
  assert (Hlow : forall k : nat,
             t0 + Z.of_nat k * period - us_per_day < reading (S k)).
  { intros k. unfold reading, now_in.
    destruct (Hzone (Z.of_nat k) ltac:(lia)) as [Hlo _].
    replace (Z.of_nat (S k)) with (Z.of_nat k + 1) by lia. nia. }
  destruct (some_reading_is_due reading day when_local tz last_sent_day
              window_minutes period) with (n := S n)
    as (k & _ & Hday & Hdue); auto; try lia.
  - intros k _. unfold reading, now_in.
    destruct (Hzone (Z.of_nat k) ltac:(lia)) as [_ Hup].
    replace (Z.of_nat (S k)) with (Z.of_nat k + 1) by lia. nia.
  - fold scheduled. specialize (Hlow n).
    assert (scheduled - t0 + us_per_day < (Z.of_nat n) * period); [|lia].
    unfold n.
    pose proof (Z.div_mod (scheduled - t0 + us_per_day) period
                  ltac:(lia)) as Hdm.
    pose proof (Z.mod_pos_bound (scheduled - t0 + us_per_day) period Hp).
    destruct (Z.le_gt_cases 0 ((scheduled - t0 + us_per_day) / period + 1))
      as [Hq|Hq].
    + rewrite Z2Nat.id by exact Hq. nia.
    + replace (Z.to_nat _) with 0%nat by lia. nia.
  - exists (Z.of_nat k). split; [lia|]. split; [exact Hday|exact Hdue].
Qed.

Lemma periodic_tick_meets_the_window_witness :
  exists k,
    0 <= k
    /\ date_of
         (now_in (fun _ => 0)
            (combine date_2026_01_11 (hm 7 3) UTC + k * minutes 5))
       = date_2026_01_11
    /\ due_at
         (now_in (fun _ => 0)
            (combine date_2026_01_11 (hm 7 3) UTC + k * minutes 5))
         (hm 8 0) UTC None 10 = true.
Proof.
  apply (periodic_tick_meets_the_window (fun _ => 0)
           (combine date_2026_01_11 (hm 7 3) UTC) date_2026_01_11 (hm 8 0)
           UTC None 10 (minutes 5)).
  - split; [reflexivity|]. vm_compute. discriminate.
  - vm_compute. discriminate.
  - vm_compute. discriminate.
  - discriminate.
  - intros k _. split; [reflexivity|]. lia.
  - vm_compute. discriminate.
Defined.

(** The offset of Europe/Berlin around 2026-03-29, when it moves forward
    from one hour to two at 01:00 UTC: the ticks of 00:55 and 01:00 UTC
    read 01:55 and 03:00, and a prompt set for 02:30 is due at none of the
    ticks of that day. *)
Definition date_2026_03_29 : date := date_2026_01_11 + 77.

Definition berlin_offset (t : Z) : timedelta :=
  if t <? combine date_2026_03_29 (hm 1 0) UTC then minutes 60
  else minutes 120.

Example prompt_in_the_skipped_hour_is_missed :
  List.map
    (fun k =>
       now_in berlin_offset
         (combine date_2026_03_29 (hm 0 50) UTC + k * minutes 5))
    [0; 1; 2; 3]
  = [ combine date_2026_03_29 (hm 1 50) UTC;
      combine date_2026_03_29 (hm 1 55) UTC;
      combine date_2026_03_29 (hm 3 0) UTC;
      combine date_2026_03_29 (hm 3 5) UTC ]
  /\ forallb
       (fun k =>
          negb
            (due_at
               (now_in berlin_offset
                  (combine date_2026_03_29 (hm 0 0) UTC + k * minutes 5))
               (hm 2 30) UTC None 10))
       (List.map Z.of_nat (seq 0 288))
     = true.
Proof. split; vm_compute; reflexivity. Qed.

(** A prompt set for 23:58 is met by no tick that comes on the minutes
    that are multiples of five: the window runs into the next day, where
    the tick looks for the prompt of that day. *)
Example prompt_before_midnight_is_missed :
  List.map
    (fun now => due_at now (hm 23 58) UTC None 10)
    [ combine date_2026_01_11 (hm 23 55) UTC;
      combine (date_2026_01_11 + 1) (hm 0 0) UTC;
      combine (date_2026_01_11 + 1) (hm 0 5) UTC ]
  = [false; false; false].
Proof. reflexivity. Qed.

End TickCadence.

(* ------------------------------------------------------------------ *)
(** * prioritizer.py: the rules of the deterministic classifier *)

Module PrioritizerFacts.
Import Datetime PyStr Models Prioritizer.
Import HeuristicPrioritizer.

(** X21.  The drafts are classified one by one: the priorities of a list of
    drafts are those of its parts, one after the other, and there are as
    many priorities as drafts. *)
Theorem heuristic_classifies_each_draft_alone
    (_urgent_kw _important_kw : str -> bool)
    (drafts more : list TaskDraft.t) (today : date) (tz : ZoneInfo)
    (now_local : datetime) :
  prioritize _urgent_kw _important_kw (drafts ++ more) today tz now_local
  = prioritize _urgent_kw _important_kw drafts today tz now_local
    ++ prioritize _urgent_kw _important_kw more today tz now_local
  /\ length (prioritize _urgent_kw _important_kw drafts today tz now_local)
     = length drafts.
Proof.
  rewrite !prioritize_map, map_app, length_map. split; reflexivity.
Qed.

(** X22.  A draft whose stripped title has an urgent keyword is Urgent whatever
    its due time; a draft without due time gets the priority of the
    keyword tiers; and a draft is Optional only when its title has neither
    an urgent nor an important keyword. *)
Theorem heuristic_keyword_rules
    (_urgent_kw _important_kw : str -> bool)
    (drafts : list TaskDraft.t) (today : date) (tz : ZoneInfo)
    (now_local : datetime) (i : nat) (d : TaskDraft.t) :
  nth_error drafts i = Some d ->
  (_urgent_kw (strip (TaskDraft.title d)) = true ->
   nth_error (prioritize _urgent_kw _important_kw drafts today tz now_local) i
   = Some URGENT)
  /\ (TaskDraft.due_local_time d = None ->
      nth_error
        (prioritize _urgent_kw _important_kw drafts today tz now_local) i
      = Some (keyword_tiers _urgent_kw _important_kw
                (strip (TaskDraft.title d))))
  /\ (nth_error
        (prioritize _urgent_kw _important_kw drafts today tz now_local) i
      = Some OPTIONAL ->
      _urgent_kw (strip (TaskDraft.title d)) = false
      /\ _important_kw (strip (TaskDraft.title d)) = false).
Proof.
  intros Hi. rewrite prioritize_map, nth_error_map, Hi. simpl.
  unfold classify, keyword_tiers. split; [|split].
  - intros ->. now destruct (match TaskDraft.due_local_time d with
                             | Some _ => _ | None => _ end).
  - intros ->. reflexivity.
  - destruct (match TaskDraft.due_local_time d with
              | Some _ => _ | None => _ end); [discriminate|].
    destruct (_urgent_kw _); [discriminate|].
    destruct (_important_kw _); [discriminate|]. auto.
Qed.

Lemma heuristic_keyword_rules_witness :
  nth_error
    (prioritize no_keyword no_keyword
       [TaskDraft.make (lit " mail ") 20 None] date_2026_01_11 UTC 0) 0
  = Some OPTIONAL.
Proof.
  exact (proj1 (proj2 (heuristic_keyword_rules no_keyword no_keyword
                         [TaskDraft.make (lit " mail ") 20 None]
                         date_2026_01_11 UTC 0 0%nat
                         (TaskDraft.make (lit " mail ") 20 None) eq_refl))
           eq_refl).
Defined.

End PrioritizerFacts.

(* ------------------------------------------------------------------ *)
(** * bot.py: the reminders of the blocks *)

From Stdlib Require DecimalString DecimalZ.

Module Reminders.
Import Datetime PyStr Models.

(** [str(n)] for an [int]: its decimal digits, after a minus sign when it
    is negative. *)
Definition str_of_int (n : Z) : str :=
  lit (DecimalString.NilEmpty.string_of_int (Z.to_int n)).

(** [s.startswith(prefix)] *)
Definition startswith (s prefix : str) : bool :=
  str_eqb (firstn (length prefix) s) prefix.

Inductive kind := before | start.

Definition kind_name (k : kind) : str :=
  match k with
  | before => lit "before"
  | start => lit "start"
  end.

(** [f"reminder:{telegram_user_id}:"] *)
Definition prefix_of (telegram_user_id : Z) : str :=
  lit "reminder:" ++ str_of_int telegram_user_id ++ lit ":".

(** [f"{prefix}{b.task_id}:{kind}"] *)
Definition job_id_of (telegram_user_id task_id : Z) (k : kind) : str :=
  prefix_of telegram_user_id ++ str_of_int task_id ++ lit ":" ++ kind_name k.

(** What a job calls: the tick, or the send of the reminder of a block
    (the [chat_id], [block] and [k] that the lambda binds). *)
Inductive func :=
| DailyTick
| SendReminder (chat_id : Z) (block : ScheduledBlock.t) (k : kind).

(** A job of the scheduler: its id, its run date when its trigger is a
    date, and what it calls. *)
Record job := Job
  { id : str;
    run_date : option datetime;
    call : func }.

(** [job.remove()] for the job of id [job_id]. *)
Definition remove_job (jobs : list job) (job_id : str) : list job :=
  filter (fun j => negb (str_eqb (id j) job_id)) jobs.

(** [scheduler.add_job(..., id=..., replace_existing=True)]: the job takes
    the place of the job of the same id, if there is one. *)
Definition add_job (jobs : list job) (j : job) : list job :=
  remove_job jobs (id j) ++ [j].

(** [for job in list(self.scheduler.get_jobs()): if
    job.id.startswith(prefix): job.remove()], over the snapshot
    [listed]. *)
Fixpoint remove_loop (prefix : str) (listed : list job) (jobs : list job) :
  list job :=
  match listed with
  | [] => jobs
  | j :: rest =>
      remove_loop prefix rest
        (if startswith (id j) prefix then remove_job jobs (id j) else jobs)
  end.

(** The two reminders of a block: ten minutes before its start, and at its
    start. *)
Definition reminders_of (b : ScheduledBlock.t) : list (kind * datetime) :=
  [ (before, ScheduledBlock.start_local b - minutes 10);
    (start, ScheduledBlock.start_local b) ].

(** [for kind, when in [...]: if when <= now: continue ...] *)
Fixpoint kinds_loop (telegram_user_id : Z) (now : datetime)
    (b : ScheduledBlock.t) (whens : list (kind * datetime))
    (jobs : list job) : list job :=
  match whens with
  | [] => jobs
  | (k, when) :: rest =>
      kinds_loop telegram_user_id now b rest
        (if when <=? now then jobs
         else
           add_job jobs
             (Job (job_id_of telegram_user_id (ScheduledBlock.task_id b) k)
                (Some when) (SendReminder telegram_user_id b k)))
  end.

(** [for b in blocks: ...] *)
Fixpoint blocks_loop (telegram_user_id : Z) (now : datetime)
    (blocks : list ScheduledBlock.t) (jobs : list job) : list job :=
  match blocks with
  | [] => jobs
  | b :: rest =>
      blocks_loop telegram_user_id now rest
        (kinds_loop telegram_user_id now b (reminders_of b) jobs)
  end.

(** [_schedule_today_reminders], on the jobs of the scheduler; [now] is
    what [datetime.now(tz)] returns. *)
Definition _schedule_today_reminders (jobs : list job)
    (telegram_user_id : Z) (tz : ZoneInfo)
    (blocks : list ScheduledBlock.t) (now : datetime) : list job :=
  let prefix := prefix_of telegram_user_id in
  let jobs := remove_loop prefix jobs jobs in
  blocks_loop telegram_user_id now blocks jobs.

(** The job that [register_recurring_jobs] adds. *)
Definition daily_tick_job : job := Job (lit "daily-tick") None DailyTick.

(** ** Ids as strings *)

Lemma lit_inj a b : lit a = lit b -> a = b.
Proof.
  unfold lit. intros H.
  rewrite <- (string_of_list_ascii_of_string a),
    <- (string_of_list_ascii_of_string b).
  f_equal. revert H.
  generalize (list_ascii_of_string a), (list_ascii_of_string b).
  induction l as [|x l IH]; intros [|y l'] H; simpl in H;
    try discriminate; [reflexivity|].
  injection H as Hx Hl. f_equal; [|now apply IH].
  apply Nat2Z.inj in Hx || apply N2Z.inj in Hx.
  rewrite <- (ascii_N_embedding x), <- (ascii_N_embedding y). now f_equal.
Qed.

Lemma uint_digits d :
  Forall (fun c => 48 <= c <= 57)
    (lit (DecimalString.NilEmpty.string_of_uint d)).
Proof.
  induction d; simpl; constructor; simpl; try lia; assumption.
Qed.

Lemma str_of_int_no_colon n : ~ In 58 (str_of_int n).
Proof.
  unfold str_of_int. intros H.
  assert (F : Forall (fun c => c <> 58)
                (lit (DecimalString.NilEmpty.string_of_int (Z.to_int n)))).
  { destruct (Z.to_int n) as [d|d]; simpl.
    - eapply Forall_impl; [|apply uint_digits]. simpl. lia.
    - constructor; [simpl; lia|].
      eapply Forall_impl; [|apply (uint_digits d)]. simpl. lia. }
  rewrite Forall_forall in F. now apply (F 58 H).
Qed.

Lemma str_of_int_inj n m : str_of_int n = str_of_int m -> n = m.
Proof.
  unfold str_of_int. intros H. apply lit_inj in H.
  apply DecimalZ.to_int_inj.
  pose proof (DecimalString.NilEmpty.isi (Z.to_int n)) as Hn.
  pose proof (DecimalString.NilEmpty.isi (Z.to_int m)) as Hm.
  rewrite H in Hn. congruence.
Qed.

Lemma no_colon_split (a : str) : forall b x y,
  ~ In 58 a -> ~ In 58 b -> a ++ 58 :: x = b ++ 58 :: y -> a = b.
Proof.
  induction a as [|c a IH]; intros [|e b] x y Ha Hb H; simpl in *.
  - reflexivity.
  - injection H as H _. subst e. tauto.
  - injection H as H _. subst c. tauto.
  - injection H as H1 H2. subst e. f_equal.
    apply (IH b x y); tauto.
Qed.

Lemma startswith_spec s prefix :
  startswith s prefix = true <-> exists rest, s = prefix ++ rest.
Proof.
  unfold startswith. rewrite str_eqb_eq. split.
  - intros H. exists (skipn (length prefix) s).
    rewrite <- H at 1. symmetry. apply firstn_skipn.
  - intros [rest ->]. rewrite firstn_app, Nat.sub_diag, firstn_all.
    simpl. apply app_nil_r.
Qed.

Lemma job_id_startswith u u' t k :
  startswith (job_id_of u' t k) (prefix_of u) = true <-> u' = u.
Proof.
  rewrite startswith_spec. unfold job_id_of, prefix_of. split.
  - intros [rest H]. rewrite <- !app_assoc in H.
    apply app_inv_head in H. apply str_of_int_inj.
    apply (no_colon_split _ _ _ _ (str_of_int_no_colon u')
             (str_of_int_no_colon u) H).
  - intros ->. eexists. rewrite <- !app_assoc. reflexivity.
Qed.

Lemma daily_tick_not_reminder u :
  startswith (id daily_tick_job) (prefix_of u) = false.
Proof.
  destruct (startswith (id daily_tick_job) (prefix_of u)) eqn:E;
    [|reflexivity].
  apply startswith_spec in E. destruct E as [rest E].
  unfold prefix_of in E. simpl in E. discriminate.
Qed.

Example str_of_int_examples :
  List.map str_of_int [0; 7; 120; -45]
  = [lit "0"; lit "7"; lit "120"; lit "-45"].
Proof. reflexivity. Qed.

(** ** The jobs after the call *)

Lemma in_remove_job jobs job_id x :
  In x (remove_job jobs job_id) <-> In x jobs /\ id x <> job_id.
Proof.
  unfold remove_job. rewrite filter_In, negb_true_iff.
  split; intros [H1 H2]; split; auto.
  - intros E. apply str_eqb_eq in E. congruence.
  - destruct (str_eqb (id x) job_id) eqn:E; [|reflexivity].
    apply str_eqb_eq in E. contradiction.
Qed.

Lemma in_add_job jobs j x :
  In x (add_job jobs j) <-> (In x jobs /\ id x <> id j) \/ x = j.
Proof.
  unfold add_job. rewrite in_app_iff, in_remove_job. simpl. intuition.
Qed.

Lemma in_remove_loop prefix listed : forall jobs x,
  In x (remove_loop prefix listed jobs)
  <-> In x jobs
      /\ forall j, In j listed -> startswith (id j) prefix = true ->
                   id x <> id j.
Proof.
  induction listed as [|j listed IH]; intros jobs x; simpl.
  - intuition.
  - rewrite IH. destruct (startswith (id j) prefix) eqn:E.
    + rewrite in_remove_job. split.
      * intros [[H1 H2] H3]. split; [exact H1|].
        intros j' [<-|Hj'] Hs; auto.
      * intros [H1 H2]. repeat split; auto.
    + split; intros [H1 H2]; split; auto.
      intros j' [<-|Hj'] Hs; [congruence|auto].
Qed.

(** The jobs left by the first loop: those whose id does not start with
    the prefix. *)
Lemma in_removed prefix jobs x :
  In x (remove_loop prefix jobs jobs)
  <-> In x jobs /\ startswith (id x) prefix = false.
Proof.
  rewrite in_remove_loop. split; intros [H1 H2]; split; auto.
  - destruct (startswith (id x) prefix) eqn:E; [|reflexivity].
    now destruct (H2 x H1 E).
  - intros j _ Hj E. rewrite E in H2. congruence.
Qed.

(** [j] is a reminder of a block of [blocks], at a time after [now]. *)
Definition fresh_reminder (telegram_user_id : Z) (now : datetime)
    (blocks : list ScheduledBlock.t) (j : job) : Prop :=
  exists b k when,
    In b blocks /\ In (k, when) (reminders_of b) /\ now < when
    /\ j = Job (job_id_of telegram_user_id (ScheduledBlock.task_id b) k)
             (Some when) (SendReminder telegram_user_id b k).

Section Loops.
Variable telegram_user_id : Z.
Variable now : datetime.
Variable blocks : list ScheduledBlock.t.
Variable jobs0 : list job.

(** The jobs of other ids are those of [jobs0], and the jobs of the user
    are fresh reminders. *)
Definition settled (jobs : list job) : Prop :=
  forall x,
    In x jobs ->
    if startswith (id x) (prefix_of telegram_user_id)
    then fresh_reminder telegram_user_id now blocks x
    else In x jobs0.

Definition kept (jobs : list job) : Prop :=
  forall x,
    In x jobs0 -> startswith (id x) (prefix_of telegram_user_id) = false ->
    In x jobs.

Lemma kinds_loop_settled b whens : forall jobs,
  In b blocks -> incl whens (reminders_of b) ->
  settled jobs /\ kept jobs ->
  settled (kinds_loop telegram_user_id now b whens jobs)
  /\ kept (kinds_loop telegram_user_id now b whens jobs).
Proof.
  induction whens as [|[k when] whens IH]; intros jobs Hb Hw H;
    simpl; [exact H|].
  apply IH; [exact Hb|intros x Hx; apply Hw; now right|].
  destruct (Z.leb_spec when now) as [Hle|Hgt]; [exact H|].
  destruct H as [Hs Hk]. split.
  - intros x Hx. apply in_add_job in Hx. destruct Hx as [[Hx _]| ->].
    + now apply Hs.
    + cbn [id].
      rewrite (proj2 (job_id_startswith telegram_user_id telegram_user_id
                        (ScheduledBlock.task_id b) k) eq_refl).
      exists b, k, when. repeat split; auto. apply Hw. now left.
  - intros x Hx Hsw. apply in_add_job. left. split; [now apply Hk|].
    cbn [id]. intros E. rewrite E in Hsw.
    rewrite (proj2 (job_id_startswith telegram_user_id telegram_user_id
                      (ScheduledBlock.task_id b) k) eq_refl) in Hsw.
    discriminate.
Qed.

Lemma blocks_loop_settled bs : forall jobs,
  incl bs blocks ->
  settled jobs /\ kept jobs ->
  settled (blocks_loop telegram_user_id now bs jobs)
  /\ kept (blocks_loop telegram_user_id now bs jobs).
Proof.
  induction bs as [|b bs IH]; intros jobs Hi H; cbn [blocks_loop];
    [exact H|].
  apply IH; [intros x Hx; apply Hi; now right|].
  apply kinds_loop_settled; auto.
  - apply Hi. now left.
  - apply incl_refl.
Qed.

(** A job of id [job_id] stays, or is replaced by one of the same id. *)
Lemma kinds_loop_keeps_id b whens job_id : forall jobs,
  (exists j, In j jobs /\ id j = job_id) ->
  exists j,
    In j (kinds_loop telegram_user_id now b whens jobs) /\ id j = job_id.
Proof.
  induction whens as [|[k when] whens IH]; intros jobs H; simpl;
    [exact H|].
  apply IH. destruct (when <=? now); [exact H|].
  destruct H as (j & Hj & E).
  destruct (list_eq_dec Z.eq_dec (id j)
              (job_id_of telegram_user_id (ScheduledBlock.task_id b) k))
    as [Eq|Ne].
  - eexists. split; [apply in_add_job; right; reflexivity|].
    cbn [id]. congruence.
  - exists j. split; [|exact E]. apply in_add_job. left. now split.
Qed.

Lemma blocks_loop_keeps_id bs job_id : forall jobs,
  (exists j, In j jobs /\ id j = job_id) ->
  exists j, In j (blocks_loop telegram_user_id now bs jobs) /\ id j = job_id.
Proof.
  induction bs as [|b bs IH]; intros jobs H; cbn [blocks_loop]; [exact H|].
  apply IH. now apply kinds_loop_keeps_id.
Qed.

Lemma kinds_loop_adds b whens k when : forall jobs,
  In (k, when) whens -> now < when ->
  exists j,
    In j (kinds_loop telegram_user_id now b whens jobs)
    /\ id j = job_id_of telegram_user_id (ScheduledBlock.task_id b) k.
Proof.
  induction whens as [|[k' when'] whens IH]; intros jobs Hin Hlt;
    simpl; [contradiction|].
  destruct Hin as [E|Hin]; [|now apply IH].
  inversion E; subst k' when'. apply kinds_loop_keeps_id.
  destruct (Z.leb_spec when now); [lia|].
  eexists. split; [apply in_add_job; right; reflexivity|reflexivity].
Qed.

Lemma blocks_loop_adds bs b k when : forall jobs,
  In b bs -> In (k, when) (reminders_of b) -> now < when ->
  exists j,
    In j (blocks_loop telegram_user_id now bs jobs)
    /\ id j = job_id_of telegram_user_id (ScheduledBlock.task_id b) k.
Proof.
  induction bs as [|b' bs IH]; intros jobs Hb Hin Hlt; cbn [blocks_loop];
    [contradiction|].
  destruct Hb as [->|Hb]; [|now apply IH].
  apply blocks_loop_keeps_id. now apply kinds_loop_adds with (when := when).
Qed.

End Loops.

(** X23.  After [_schedule_today_reminders], the jobs whose id starts with the
    prefix of the user are reminders of the blocks given, each to run at
    the start of its block or ten minutes before, at a time after [now]:
    the reminders that the user had are gone, and none is set for a time
    that is not to come.  The other jobs are those of before, all of
    them. *)
Theorem reminders_are_replaced
    (jobs : list job) (telegram_user_id : Z) (tz : ZoneInfo)
    (blocks : list ScheduledBlock.t) (now : datetime) (x : job) :
  (In x (_schedule_today_reminders jobs telegram_user_id tz blocks now) ->
   startswith (id x) (prefix_of telegram_user_id) = true ->
   exists b k,
     In b blocks
     /\ x = Job (job_id_of telegram_user_id (ScheduledBlock.task_id b) k)
              (Some (match k with
                     | before => ScheduledBlock.start_local b - minutes 10
                     | start => ScheduledBlock.start_local b
                     end))
              (SendReminder telegram_user_id b k)
     /\ now < match k with
              | before => ScheduledBlock.start_local b - minutes 10
              | start => ScheduledBlock.start_local b
              end)
  /\ (startswith (id x) (prefix_of telegram_user_id) = false ->
      (In x (_schedule_today_reminders jobs telegram_user_id tz blocks now)
       <-> In x jobs)).
Proof.
  unfold _schedule_today_reminders.
  destruct (blocks_loop_settled telegram_user_id now blocks jobs blocks
              (remove_loop (prefix_of telegram_user_id) jobs jobs)
              (incl_refl _)) as [Hs Hk].
  { split.
    - intros y Hy. apply in_removed in Hy. destruct Hy as [Hy ->].
      exact Hy.
    - intros y Hy Hsw. apply in_removed. now split. }
  split.
  - intros Hx Hsw. specialize (Hs x Hx). rewrite Hsw in Hs.
    destruct Hs as (b & k & when & Hb & Hw & Hlt & ->).
    exists b, k. split; [exact Hb|].
    destruct Hw as [E|[E|[]]]; inversion E; subst k when; auto.
  - intros Hsw. split.
    + intros Hx. specialize (Hs x Hx). now rewrite Hsw in Hs.
    + intros Hx. now apply Hk.
Qed.

(** X24.  The reminders of another user and the job of the tick do not start
    with the prefix of the user, whatever the digits of the two ids: they
    are jobs that the call leaves in place. *)
Theorem reminders_of_others_stay
    (jobs : list job) (telegram_user_id : Z) (tz : ZoneInfo)
    (blocks : list ScheduledBlock.t) (now : datetime) (x : job) :
  In x jobs ->
  (exists other task_id k,
     other <> telegram_user_id /\ id x = job_id_of other task_id k)
  \/ x = daily_tick_job ->
  In x (_schedule_today_reminders jobs telegram_user_id tz blocks now).
Proof.
  intros Hx Hid.
  assert (Hsw : startswith (id x) (prefix_of telegram_user_id) = false).
  { destruct Hid as [(other & t & k & Hne & E)| ->].
    - rewrite E.
      destruct (startswith (job_id_of other t k)
                  (prefix_of telegram_user_id)) eqn:S; [|reflexivity].
      apply job_id_startswith in S. contradiction.
    - apply daily_tick_not_reminder. }
  unfold _schedule_today_reminders.
  destruct (blocks_loop_settled telegram_user_id now blocks jobs blocks
              (remove_loop (prefix_of telegram_user_id) jobs jobs)
              (incl_refl _)) as [_ Hk].
  { split.
    - intros y Hy. apply in_removed in Hy. destruct Hy as [Hy ->].
      exact Hy.
    - intros y Hy Hs. apply in_removed. now split. }
  now apply Hk.
Qed.

(** X25.  A block that starts after [now] has its reminder at its start, and
    one that starts more than ten minutes after [now] has the reminder
    before it as well: a job of that id is among the jobs. *)
Theorem reminders_are_set
    (jobs : list job) (telegram_user_id : Z) (tz : ZoneInfo)
    (blocks : list ScheduledBlock.t) (now : datetime)
    (b : ScheduledBlock.t) :
  In b blocks ->
  (now < ScheduledBlock.start_local b ->
   exists j,
     In j (_schedule_today_reminders jobs telegram_user_id tz blocks now)
     /\ id j = job_id_of telegram_user_id (ScheduledBlock.task_id b) start)
  /\ (now < ScheduledBlock.start_local b - minutes 10 ->
      exists j,
        In j (_schedule_today_reminders jobs telegram_user_id tz blocks now)
        /\ id j
           = job_id_of telegram_user_id (ScheduledBlock.task_id b) before).
Proof.
  intros Hb. unfold _schedule_today_reminders. split; intros Hlt.
  - apply blocks_loop_adds with (when := ScheduledBlock.start_local b);
      auto. right. now left.
  - apply blocks_loop_adds
      with (when := ScheduledBlock.start_local b - minutes 10); auto.
    now left.
Qed.

(** The jobs of two users and the tick, and a block at 09:00. *)
Definition nine_o_clock : ScheduledBlock.t :=
  ScheduledBlock.make 3 (lit "call") (combine date_2026_01_11 (hm 9 0) UTC)
    (combine date_2026_01_11 (hm 9 30) UTC) URGENT.

Definition some_jobs : list job :=
  [ daily_tick_job;
    Job (job_id_of 1 8 start) (Some 0) (SendReminder 1 nine_o_clock start);
    Job (job_id_of 12 9 start) (Some 0) (SendReminder 12 nine_o_clock start) ].

Example reminders_of_user_1 :
  List.map id
    (_schedule_today_reminders some_jobs 1 UTC [nine_o_clock]
       (combine date_2026_01_11 (hm 8 55) UTC))
  = [lit "daily-tick"; lit "reminder:12:9:start"; lit "reminder:1:3:start"].
Proof. reflexivity. Qed.

Lemma reminders_of_others_stay_witness :
  In (Job (job_id_of 12 9 start) (Some 0) (SendReminder 12 nine_o_clock start))
    (_schedule_today_reminders some_jobs 1 UTC [nine_o_clock]
       (combine date_2026_01_11 (hm 8 55) UTC)).
Proof.
  apply reminders_of_others_stay.
  - right. right. now left.
  - left. exists 12, 9, start. split; [discriminate|reflexivity].
Defined.

Lemma reminders_are_set_witness :
  exists j,
    In j (_schedule_today_reminders some_jobs 1 UTC [nine_o_clock]
            (combine date_2026_01_11 (hm 8 55) UTC))
    /\ id j = job_id_of 1 3 start.
Proof.
  refine (proj1 (reminders_are_set some_jobs 1 UTC [nine_o_clock]
                   (combine date_2026_01_11 (hm 8 55) UTC) nine_o_clock _)
            _).
  - now left.
  - reflexivity.
Defined.

End Reminders.

(* ------------------------------------------------------------------ *)
(** * bot.py: [on_text], with its guard and its exceptions *)

Module Handler.
Import Datetime PyStr Models Raising Replan.

(** The two stores, the jobs of the scheduler and the users who are
    entering tasks.  The replies are taken to be sent. *)
Record world := World
  { users_db : Users.t;
    tasks_db : Storage.t;
    jobs : list Reminders.job;
    _awaiting_tasks : list Z }.

(** How [on_text] ends: at its guard, with the answer that no task was
    found, with a schedule, or with an exception. *)
Inductive outcome :=
| NotAwaited
| NoTaskFound
| Scheduled (blocks : list ScheduledBlock.t)
| Raised (e : exn).

(** [user_id in self._awaiting_tasks] and
    [self._awaiting_tasks.discard(user_id)] *)
Definition awaited (user_id : Z) (awaiting : list Z) : bool :=
  existsb (Z.eqb user_id) awaiting.

Definition discard (user_id : Z) (awaiting : list Z) : list Z :=
  filter (fun k => negb (k =? user_id)) awaiting.

(** [for p, pr in zip(parsed, priorities, strict=True): ...], with the
    storage it leaves and the [task_ids] it collects: an exception of
    [add_task] ends the loop with the rows stored before, and [zip] raises
    [ValueError] when one list ends before the other. *)
Fixpoint add_parsed (st : Storage.t) (user_id : Z) (now_local : datetime)
    (today : date) (parsed : list ParsedTaskInput.t)
    (priorities : list Priority) (task_ids : list Z) :
  Storage.t * result (list Z) :=
  match parsed, priorities with
  | [], [] => (st, Ok task_ids)
  | p :: parsed', pr :: priorities' =>
      match
        Sqlite.add_task st user_id (ParsedTaskInput.title p) now_local today
          (ParsedTaskInput.estimated_minutes p)
          (ParsedTaskInput.due_local_time p) pr
      with
      | Raise e => (st, Raise e)
      | Ok (task_id, st') =>
          add_parsed st' user_id now_local today parsed' priorities'
            (task_ids ++ [task_id])
      end
  | _, _ => (st, Raise ValueError)
  end.

Section OnText.

(** [ZoneInfo(key)], and the [prioritize] of the prioritizer in use, each
    with what it may raise. *)
Variable ZoneInfo_of : str -> result ZoneInfo.
Variable prioritize :
  list Prioritizer.TaskDraft.t -> date -> ZoneInfo -> result (list Priority).

(** [self._tz(user_id)]: [get_user] raises for a user id outside 64
    bits. *)
Definition _tz (users : Users.t) (user_id : Z) : result ZoneInfo * Users.t :=
  if negb (Sqlite.int64 user_id) then (Raise OverflowError, users)
  else
    let (u, db) := Users.user_or_default users user_id in
    (ZoneInfo_of (Users.User.timezone u), db).

(** [on_text]; [parsed] is what [parse_task_line] reads in the lines of the
    message, and [now_local] and [reminders_now] are what [datetime.now(tz)]
    returns in [on_text] and in [_schedule_today_reminders].  The blocks of
    [build_schedule] start at 09:00 or later, so that the ten minutes that
    [_schedule_today_reminders] subtracts stay in the day. *)
Definition on_text (w : world) (user_id : Z)
    (parsed : list ParsedTaskInput.t) (now_local reminders_now : datetime) :
  world * outcome :=
  if negb (awaited user_id (_awaiting_tasks w)) then (w, NotAwaited)
  else
    let (zone, db) := _tz (users_db w) user_id in
    match zone with
    | Raise e => (World db (tasks_db w) (jobs w) (_awaiting_tasks w), Raised e)
    | Ok tz =>
        let today := date_of now_local in
        match parsed with
        | [] =>
            (World db (tasks_db w) (jobs w) (_awaiting_tasks w), NoTaskFound)
        | _ :: _ =>
            match prioritize (drafts_of parsed) today tz with
            | Raise e =>
                (World db (tasks_db w) (jobs w) (_awaiting_tasks w), Raised e)
            | Ok priorities =>
                let st :=
                  Storage.delete_tasks_for_day (tasks_db w) user_id today in
                let (st', task_ids) :=
                  add_parsed st user_id now_local today parsed priorities
                    [] in
                match task_ids with
                | Raise e =>
                    (World db st' (jobs w) (_awaiting_tasks w), Raised e)
                | Ok _ =>
                    let tasks :=
                      Storage.list_tasks st' user_id today (Some PENDING) in
                    match
                      Range.build_schedule today tz (plan_tasks_of tasks)
                        Planner.PlanWindow.default
                    with
                    | Raise e =>
                        (World db st' (jobs w) (_awaiting_tasks w), Raised e)
                    | Ok blocks =>
                        (World db st'
                           (Reminders._schedule_today_reminders (jobs w)
                              user_id tz blocks reminders_now)
                           (discard user_id (_awaiting_tasks w)),
                         Scheduled blocks)
                    end
                end
            end
        end
    end.

End OnText.

(** ** The rows that SQLite takes *)

(** A parsed line whose title and estimate SQLite takes. *)
Definition storable (p : ParsedTaskInput.t) : Prop :=
  Sqlite.encodable (ParsedTaskInput.title p) = true
  /\ Sqlite.int64 (ParsedTaskInput.estimated_minutes p) = true.

Lemma fold_max_le (l : list Z) (z b : Z) :
  z <= b -> Forall (fun x => x <= b) l -> fold_right Z.max z l <= b.
Proof.
  intros Hz. induction 1 as [|x l Hx Hl IH]; simpl; lia.
Qed.

Lemma next_id_add_task st u title created day est due pr :
  Storage.next_id
    (snd (Storage.add_task st u title created day est due pr))
  = Storage.next_id st + 1.
Proof.
  unfold Storage.add_task. cbn [snd]. unfold Storage.next_id at 1.
  cbn [Storage.tasks Storage.last_id]. f_equal.
  destruct (StorageFacts.next_id_above st) as [_ Hn].
  apply Z.le_antisymm.
  - apply fold_max_le; [lia|]. rewrite Forall_map, Forall_app. split.
    + eapply Forall_impl; [|exact Hn]. cbv beta. lia.
    + repeat constructor. simpl. lia.
  - apply StorageFacts.fold_max_ge.
Qed.

Lemma next_id_delete st u d :
  Storage.next_id (Storage.delete_tasks_for_day st u d)
  <= Storage.next_id st.
Proof.
  unfold Storage.next_id, Storage.delete_tasks_for_day.
  cbn [Storage.tasks Storage.last_id].
  destruct (StorageFacts.fold_max_ge (List.map Task.id (Storage.tasks st))
              (Storage.last_id st)) as [H1 H2].
  apply Z.add_le_mono_r. apply fold_max_le; [exact H1|].
  rewrite Forall_map in *. rewrite Forall_forall in *.
  intros x Hx. apply filter_In in Hx. now apply H2.
Qed.

(** The loop of the exceptions is the loop without them as long as SQLite
    takes the rows. *)
Lemma add_parsed_accepted user_id now_local today parsed :
  forall priorities st task_ids,
    Sqlite.int64 user_id = true ->
    Forall storable parsed ->
    Storage.next_id st + Z.of_nat (length parsed) <= 2 ^ 63 ->
    add_parsed st user_id now_local today parsed priorities task_ids
    = (fst (Replan.add_parsed st user_id now_local today parsed priorities
              task_ids),
       match
         snd (Replan.add_parsed st user_id now_local today parsed priorities
                task_ids)
       with
       | Some l => Ok l
       | None => Raise ValueError
       end).
Proof.
  induction parsed as [|p parsed IH]; intros [|pr priorities] st ids Hu Hs Hn;
    try reflexivity.
  cbn [add_parsed Replan.add_parsed].
  inversion Hs as [|? ? [Ht He] Hs']; subst.
  rewrite length_cons, Nat2Z.inj_succ in Hn.
  unfold Sqlite.add_task. rewrite Hu, Ht, He. cbn [negb].
  destruct (Z.leb_spec (2 ^ 63) (Storage.next_id st)) as [|_]; [lia|].
  pose proof (next_id_add_task st user_id (ParsedTaskInput.title p)
                now_local today (ParsedTaskInput.estimated_minutes p)
                (ParsedTaskInput.due_local_time p) pr) as Hnext.
  destruct (Storage.add_task st user_id (ParsedTaskInput.title p) now_local
              today (ParsedTaskInput.estimated_minutes p)
              (ParsedTaskInput.due_local_time p) pr) as [task_id st1].
  cbn [snd] in Hnext. apply IH; auto. lia.
Qed.

(** What the loop returns is what the loop without the exceptions
    gives. *)
Lemma add_parsed_returns user_id now_local today parsed :
  forall priorities st task_ids st' l,
    add_parsed st user_id now_local today parsed priorities task_ids
    = (st', Ok l) ->
    Replan.add_parsed st user_id now_local today parsed priorities task_ids
    = (st', Some l).
Proof.
  induction parsed as [|p parsed IH]; intros [|pr priorities] st ids st' l;
    cbn [add_parsed Replan.add_parsed]; try discriminate.
  - intros H. now inversion H.
  - unfold Sqlite.add_task.
    destruct (negb _); [discriminate|].
    destruct (negb _); [discriminate|].
    destruct (negb _); [discriminate|].
    destruct (_ <=? _); [discriminate|].
    destruct (Storage.add_task st user_id (ParsedTaskInput.title p) now_local
                today (ParsedTaskInput.estimated_minutes p)
                (ParsedTaskInput.due_local_time p) pr) as [task_id st1].
    apply IH.
Qed.

(** [zip] is the only one to raise [ValueError]. *)
Lemma add_parsed_ValueError user_id now_local today parsed :
  forall priorities st task_ids,
    snd (add_parsed st user_id now_local today parsed priorities task_ids)
    = Raise ValueError ->
    length priorities <> length parsed.
Proof.
  induction parsed as [|p parsed IH]; intros [|pr priorities] st ids;
    cbn [add_parsed]; try discriminate.
  unfold Sqlite.add_task.
  destruct (negb _); [discriminate|].
  destruct (negb _); [discriminate|].
  destruct (negb _); [discriminate|].
  destruct (_ <=? _); [discriminate|].
  destruct (Storage.add_task st user_id (ParsedTaskInput.title p) now_local
              today (ParsedTaskInput.estimated_minutes p)
              (ParsedTaskInput.due_local_time p) pr) as [task_id st1].
  intros H. apply IH in H. simpl. congruence.
Qed.

(** Whatever the loop ends with, the rows it stores are rows of the user
    and of today. *)
Lemma add_parsed_scope user_id now_local today parsed :
  forall priorities st task_ids u d s,
    u <> user_id \/ d <> today ->
    Storage.list_tasks
      (fst (add_parsed st user_id now_local today parsed priorities
              task_ids)) u d s
    = Storage.list_tasks st u d s.
Proof.
  induction parsed as [|p parsed IH];
    intros [|pr priorities] st ids u d s Hne;
    cbn [add_parsed]; try reflexivity.
  unfold Sqlite.add_task.
  destruct (negb _); [reflexivity|].
  destruct (negb _); [reflexivity|].
  destruct (negb _); [reflexivity|].
  destruct (_ <=? _); [reflexivity|].
  pose proof (StorageFacts.add_task_listing st user_id
                (ParsedTaskInput.title p) now_local today
                (ParsedTaskInput.estimated_minutes p)
                (ParsedTaskInput.due_local_time p) pr u d s) as Hadd.
  destruct (Storage.add_task st user_id (ParsedTaskInput.title p) now_local
              today (ParsedTaskInput.estimated_minutes p)
              (ParsedTaskInput.due_local_time p) pr) as [task_id st1].
  rewrite IH by exact Hne. cbn [snd] in Hadd. rewrite Hadd.
  replace (StorageFacts.selected u d s _) with false;
    [apply app_nil_r|].
  symmetry. unfold StorageFacts.selected, StorageFacts.new_row.
  cbn [Task.telegram_user_id Task.day].
  destruct Hne as [Hne|Hne].
  - replace (user_id =? u) with false; [reflexivity|].
    symmetry. apply Z.eqb_neq. congruence.
  - replace (today =? d) with false; [now rewrite andb_false_r|].
    symmetry. apply Z.eqb_neq. congruence.
Qed.

(** [build_schedule] raises nothing but [OverflowError]. *)
Lemma place_raises end_dt break_minutes l : forall cur acc e,
  Range.place end_dt break_minutes l cur acc = Raise e -> e = OverflowError.
Proof.
  induction l as [|t rest IH]; intros cur acc e; cbn [Range.place];
    [discriminate|].
  unfold Range.timedelta_minutes, Range.plus. cbv zeta.
  destruct (_ <=? Range.max_days);
    [|intros H; now inversion H]. cbn [bind].
  destruct (_ && _); [|intros H; now inversion H]. cbn [bind].
  destruct (_ >? end_dt); [discriminate|].
  destruct (_ <=? Range.max_days);
    [|intros H; now inversion H]. cbn [bind].
  destruct (_ && _); [|intros H; now inversion H]. cbn [bind].
  destruct (_ >=? end_dt); [discriminate|]. apply IH.
Qed.

(** ** What [on_text] leaves in the storage *)

Section Storage.
Variable ZoneInfo_of : str -> result ZoneInfo.
Variable prioritize :
  list Prioritizer.TaskDraft.t -> date -> ZoneInfo -> result (list Priority).
Variable w : world.
Variable user_id : Z.
Variable parsed : list ParsedTaskInput.t.
Variables now_local reminders_now : datetime.

(** Past the guard, the zone, the parsed lines and the prioritizer, the
    tasks are those that the loop leaves, however [on_text] ends. *)
Lemma on_text_stores tz priorities :
  awaited user_id (_awaiting_tasks w) = true ->
  fst (_tz ZoneInfo_of (users_db w) user_id) = Ok tz ->
  parsed <> [] ->
  prioritize (drafts_of parsed) (date_of now_local) tz = Ok priorities ->
  tasks_db
    (fst (on_text ZoneInfo_of prioritize w user_id parsed now_local
            reminders_now))
  = fst (add_parsed
           (Storage.delete_tasks_for_day (tasks_db w) user_id
              (date_of now_local))
           user_id now_local (date_of now_local) parsed priorities []).
Proof.
  intros Ha Ht Hp Hpr. unfold on_text. rewrite Ha. cbn [negb].
  destruct (_tz ZoneInfo_of (users_db w) user_id) as [zone db].
  cbn [fst] in Ht. subst zone.
  destruct parsed as [|p parsed']; [congruence|]. rewrite Hpr.
  destruct (add_parsed _ user_id now_local (date_of now_local)
              (p :: parsed') priorities []) as [st' [ids|e]];
    [|reflexivity].
  destruct (Range.build_schedule _ _ _ _); reflexivity.
Qed.

(** Before them, [on_text] leaves the tasks as they are. *)
Lemma on_text_tasks_db :
  tasks_db
    (fst (on_text ZoneInfo_of prioritize w user_id parsed now_local
            reminders_now))
  = tasks_db w
  \/ (parsed <> []
      /\ exists priorities,
           tasks_db
             (fst (on_text ZoneInfo_of prioritize w user_id parsed now_local
                     reminders_now))
           = fst (add_parsed
                    (Storage.delete_tasks_for_day (tasks_db w) user_id
                       (date_of now_local))
                    user_id now_local (date_of now_local) parsed priorities
                    [])).
Proof.
  destruct (awaited user_id (_awaiting_tasks w)) eqn:Ha;
    [|left; unfold on_text; now rewrite Ha].
  destruct (_tz ZoneInfo_of (users_db w) user_id) as [zone db] eqn:Et.
  destruct zone as [tz|e];
    [|left; unfold on_text; now rewrite Ha, Et].
  destruct parsed as [|p parsed'] eqn:Ep;
    [left; unfold on_text; now rewrite Ha, Et|].
  destruct (prioritize (drafts_of (p :: parsed')) (date_of now_local) tz)
    as [priorities|e] eqn:Hpr;
    [|left; unfold on_text; now rewrite Ha, Et, Hpr].
  right. split; [discriminate|]. exists priorities. rewrite <- Ep in *.
  apply (on_text_stores tz); auto; [now rewrite Et|congruence].
Qed.

(** The only [ValueError] is that of [zip]. *)
Lemma on_text_ValueError tz priorities :
  fst (_tz ZoneInfo_of (users_db w) user_id) = Ok tz ->
  prioritize (drafts_of parsed) (date_of now_local) tz = Ok priorities ->
  snd (on_text ZoneInfo_of prioritize w user_id parsed now_local
         reminders_now) = Raised ValueError ->
  parsed <> [] /\ length priorities <> length parsed.
Proof.
  intros Ht Hpr. unfold on_text.
  destruct (awaited user_id (_awaiting_tasks w)); [|discriminate].
  cbn [negb].
  destruct (_tz ZoneInfo_of (users_db w) user_id) as [zone db].
  cbn [fst] in Ht. subst zone.
  destruct parsed as [|p parsed']; [discriminate|]. rewrite Hpr.
  destruct (add_parsed _ user_id now_local (date_of now_local)
              (p :: parsed') priorities []) as [st' [ids|e]] eqn:Ea.
  - destruct (Range.build_schedule _ _ _ _) as [blocks|e] eqn:Eb;
      [discriminate|].
    apply place_raises in Eb. subst e. discriminate.
  - cbn [snd]. intros H. inversion H. subst e.
    split; [discriminate|].
    eapply add_parsed_ValueError. rewrite Ea. reflexivity.
Qed.

End Storage.

(** A user who is entering tasks, with the table of
    [StorageFacts.two_rows] and no job. *)
Definition entering : world :=
  World Users.empty StorageFacts.two_rows [] [7].

Definition utc_only : str -> result ZoneInfo := fun _ => Ok UTC.

Example on_text_of_two_lines :
  snd (on_text utc_only (fun _ _ _ => Ok [URGENT; OPTIONAL]) entering 7
         two_lines half_past_eight half_past_eight)
  = Scheduled
      [ ScheduledBlock.make 6 (lit "call")
          (combine date_2026_01_11 (hm 9 0) UTC)
          (combine date_2026_01_11 (hm 9 30) UTC) URGENT;
        ScheduledBlock.make 7 (lit "mail")
          (combine date_2026_01_11 (hm 9 35) UTC)
          (combine date_2026_01_11 (hm 9 55) UTC) OPTIONAL ].
Proof. reflexivity. Qed.

(** A line that asks for 2^63 minutes after a line that is stored: the
    tasks of today are gone, the first line is stored, and the user is
    still entering tasks. *)
Example on_text_of_too_many_minutes :
  let after :=
    on_text utc_only (fun _ _ _ => Ok [URGENT; OPTIONAL]) entering 7
      [ ParsedTaskInput.make (lit "call") 30 None;
        ParsedTaskInput.make (lit "mail") (2 ^ 63) None ]
      half_past_eight half_past_eight in
  snd after = Raised OverflowError
  /\ List.map Task.id
       (Storage.list_tasks (tasks_db (fst after)) 7 date_2026_01_11 None)
     = [6]
  /\ _awaiting_tasks (fst after) = [7].
Proof. repeat split. Qed.

(** ** Replacing the plan of today *)

(** X17.  [on_text] does nothing for a user who is not entering tasks, and
    leaves the tasks as they are when no line is parsed.  However it ends,
    the listings of other users and of other days are what they were.  For
    a user who is entering tasks, with a zone that [ZoneInfo] knows, parsed
    lines whose titles and estimates SQLite takes, as many priorities and
    ids left for them, it leaves as the tasks of the user for today,
    pending or of any status, one row per parsed line, in the order of the
    lines and with the priority of each: what was recorded for today before
    is gone, and the ids of the rows increase. *)
Theorem on_text_replaces_today
    (ZoneInfo_of : str -> result ZoneInfo)
    (prioritize :
       list Prioritizer.TaskDraft.t -> date -> ZoneInfo ->
       result (list Priority))
    (w : world) (user_id : Z) (parsed : list ParsedTaskInput.t)
    (now_local reminders_now : datetime) :
  (awaited user_id (_awaiting_tasks w) = false ->
   on_text ZoneInfo_of prioritize w user_id parsed now_local reminders_now
   = (w, NotAwaited))
  /\ (parsed = [] ->
      tasks_db
        (fst (on_text ZoneInfo_of prioritize w user_id parsed now_local
                reminders_now))
      = tasks_db w)
  /\ (forall u d s,
        u <> user_id \/ d <> date_of now_local ->
        Storage.list_tasks
          (tasks_db
             (fst (on_text ZoneInfo_of prioritize w user_id parsed now_local
                     reminders_now))) u d s
        = Storage.list_tasks (tasks_db w) u d s)
  /\ (forall tz priorities,
        awaited user_id (_awaiting_tasks w) = true ->
        fst (_tz ZoneInfo_of (users_db w) user_id) = Ok tz ->
        parsed <> [] ->
        prioritize (drafts_of parsed) (date_of now_local) tz
        = Ok priorities ->
        length priorities = length parsed ->
        Forall storable parsed ->
        Storage.next_id (tasks_db w) + Z.of_nat (length parsed) <= 2 ^ 63 ->
        exists rows,
          Forall2 (stored_as user_id now_local)
            (List.combine parsed priorities) rows
          /\ Storage.list_tasks
               (tasks_db
                  (fst (on_text ZoneInfo_of prioritize w user_id parsed
                          now_local reminders_now)))
               user_id (date_of now_local) (Some PENDING) = rows
          /\ Storage.list_tasks
               (tasks_db
                  (fst (on_text ZoneInfo_of prioritize w user_id parsed
                          now_local reminders_now)))
               user_id (date_of now_local) None = rows
          /\ StronglySorted Z.lt (List.map Task.id rows)).
Proof.
  split; [|split; [|split]].
  - intros Ha. unfold on_text. now rewrite Ha.
  - intros Hp.
    destruct (on_text_tasks_db ZoneInfo_of prioritize w user_id parsed
                now_local reminders_now) as [H|[H _]];
      [exact H|contradiction].
  - intros u d s Hne.
    destruct (on_text_tasks_db ZoneInfo_of prioritize w user_id parsed
                now_local reminders_now) as [H|[_ [priorities H]]];
      rewrite H; [reflexivity|].
    rewrite add_parsed_scope by exact Hne.
    now apply StorageFacts.delete_day_listing_other.
  - intros tz priorities Ha Ht Hp Hpr Hl Hs Hn.
    rewrite (on_text_stores ZoneInfo_of prioritize w user_id parsed
               now_local reminders_now tz priorities Ha Ht Hp Hpr).
    assert (Hu : Sqlite.int64 user_id = true).
    { unfold _tz in Ht. destruct (Sqlite.int64 user_id); [reflexivity|].
      discriminate Ht. }
    rewrite add_parsed_accepted;
      [|exact Hu|exact Hs|
       pose proof (next_id_delete (tasks_db w) user_id (date_of now_local));
       lia].
    cbn [fst].
    destruct (add_parsed_rows user_id now_local parsed priorities
                (Storage.delete_tasks_for_day (tasks_db w) user_id
                   (date_of now_local)) [] Hl)
      as (rows & _ & Hrows & Hlist & Hsorted & _).
    exists rows. split; [exact Hrows|].
    split; [|split; [|exact Hsorted]].
    + rewrite Hlist, StorageFacts.delete_day_listing_empty,
        (stored_rows_selected _ _ _ _ _ _ _ Hrows), !Z.eqb_refl.
      reflexivity.
    + rewrite Hlist, StorageFacts.delete_day_listing_empty,
        (stored_rows_selected _ _ _ _ _ _ _ Hrows), !Z.eqb_refl.
      reflexivity.
Qed.

Lemma on_text_replaces_today_witness :
  exists rows,
    Storage.list_tasks
      (tasks_db
         (fst (on_text utc_only (fun _ _ _ => Ok [URGENT; OPTIONAL])
                 entering 7 two_lines half_past_eight half_past_eight)))
      7 (date_of half_past_eight) None = rows
    /\ StronglySorted Z.lt (List.map Task.id rows).
Proof.
  destruct (proj2 (proj2 (proj2
              (on_text_replaces_today utc_only
                 (fun _ _ _ => Ok [URGENT; OPTIONAL]) entering 7 two_lines
                 half_past_eight half_past_eight)))
              UTC [URGENT; OPTIONAL])
    as (rows & _ & _ & Hlist & Hsorted).
  - reflexivity.
  - reflexivity.
  - discriminate.
  - reflexivity.
  - reflexivity.
  - repeat constructor.
  - vm_compute. discriminate.
  - exists rows. split; [exact Hlist|exact Hsorted].
Defined.

(** X18.  With a zone that [ZoneInfo] knows and a prioritizer that returns,
    [on_text] ends with [ValueError] only when there are parsed lines and
    not as many priorities, which is when
    [zip(parsed, priorities, strict=True)] raises it; and it does end so
    for a user who is entering tasks, when SQLite takes the rows of the
    lines.  This is the case for neither prioritizer: with the priorities
    of the deterministic classifier, at whatever time, and with those of
    the parser of the external reply, for whatever reply, [on_text] does
    not end with [ValueError]. *)
Theorem on_text_never_fails_on_lengths
    (ZoneInfo_of : str -> result ZoneInfo) (w : world) (user_id : Z)
    (parsed : list ParsedTaskInput.t) (now_local reminders_now : datetime)
    (tz : ZoneInfo) :
  fst (_tz ZoneInfo_of (users_db w) user_id) = Ok tz ->
  (forall prioritize priorities,
     prioritize (drafts_of parsed) (date_of now_local) tz = Ok priorities ->
     (snd (on_text ZoneInfo_of prioritize w user_id parsed now_local
             reminders_now) = Raised ValueError ->
      parsed <> [] /\ length priorities <> length parsed)
     /\ (awaited user_id (_awaiting_tasks w) = true ->
         parsed <> [] ->
         length priorities <> length parsed ->
         Forall storable parsed ->
         Storage.next_id (tasks_db w) + Z.of_nat (length parsed) <= 2 ^ 63 ->
         snd (on_text ZoneInfo_of prioritize w user_id parsed now_local
                reminders_now) = Raised ValueError))
  /\ (forall _urgent_kw _important_kw classifier_now,
        snd (on_text ZoneInfo_of
               (fun drafts today tz =>
                  Ok (Prioritizer.HeuristicPrioritizer.prioritize _urgent_kw
                        _important_kw drafts today tz classifier_now))
               w user_id parsed now_local reminders_now)
        <> Raised ValueError)
  /\ (forall json_loads unicode_lower text,
        snd (on_text ZoneInfo_of
               (fun drafts _ _ =>
                  Ok (Prioritizer._parse_priority_json_array json_loads
                        unicode_lower text (Z.of_nat (length drafts))))
               w user_id parsed now_local reminders_now)
        <> Raised ValueError).
Proof.
  intros Ht. split; [|split].
  - intros prioritize priorities Hpr. split.
    + now apply on_text_ValueError with (tz := tz).
    + intros Ha Hp Hl Hs Hn. unfold on_text. rewrite Ha. cbn [negb].
      assert (Hu : Sqlite.int64 user_id = true).
      { unfold _tz in Ht. destruct (Sqlite.int64 user_id); [reflexivity|].
        discriminate Ht. }
      destruct (_tz ZoneInfo_of (users_db w) user_id) as [zone db].
      cbn [fst] in Ht. subst zone.
      destruct parsed as [|p parsed']; [congruence|]. rewrite Hpr.
      rewrite add_parsed_accepted;
        [|exact Hu|exact Hs|
         pose proof (next_id_delete (tasks_db w) user_id
                       (date_of now_local)); lia].
      rewrite add_parsed_mismatch by exact Hl. reflexivity.
  - intros kwu kwi classifier_now H.
    eapply on_text_ValueError in H; [|exact Ht|reflexivity].
    destruct H as [_ H]. apply H.
    rewrite Prioritizer.HeuristicPrioritizer.prioritize_length.
    unfold drafts_of. apply length_map.
  - intros json_loads unicode_lower text H.
    eapply on_text_ValueError in H; [|exact Ht|reflexivity].
    destruct H as [_ H]. apply H.
    rewrite parse_priority_length, Nat2Z.id.
    unfold drafts_of. now rewrite !length_map.
Qed.

Lemma on_text_never_fails_on_lengths_witness :
  snd (on_text utc_only (fun _ _ _ => Ok [URGENT]) entering 7 two_lines
         half_past_eight half_past_eight) = Raised ValueError
  /\ snd (on_text utc_only
            (fun drafts today tz =>
               Ok (Prioritizer.HeuristicPrioritizer.prioritize
                     Prioritizer.HeuristicPrioritizer.no_keyword
                     Prioritizer.HeuristicPrioritizer.no_keyword drafts today
                     tz half_past_eight))
            entering 7 two_lines half_past_eight half_past_eight)
     <> Raised ValueError.
Proof.
  pose proof (on_text_never_fails_on_lengths utc_only entering 7 two_lines
                half_past_eight half_past_eight UTC eq_refl) as [H1 [H2 _]].
  split.
  - apply (proj2 (H1 (fun _ _ _ => Ok [URGENT]) [URGENT] eq_refl)).
    + reflexivity.
    + discriminate.
    + discriminate.
    + repeat constructor.
    + vm_compute. discriminate.
  - apply H2.
Defined.

(** ** The schedule *)

(** When [on_text] ends with a schedule, the tasks it leaves and the
    blocks are those of [Replan.on_text] for the zone of the user and the
    priorities of the prioritizer. *)
Lemma on_text_scheduled ZoneInfo_of prioritize w user_id parsed now_local
    reminders_now w' blocks :
  on_text ZoneInfo_of prioritize w user_id parsed now_local reminders_now
  = (w', Scheduled blocks) ->
  exists tz priorities,
    fst (_tz ZoneInfo_of (users_db w) user_id) = Ok tz
    /\ prioritize (drafts_of parsed) (date_of now_local) tz = Ok priorities
    /\ Replan.on_text (tasks_db w) user_id tz now_local parsed priorities
       = (tasks_db w', Replan.Scheduled blocks)
    /\ jobs w'
       = Reminders._schedule_today_reminders (jobs w) user_id tz blocks
           reminders_now
    /\ awaited user_id (_awaiting_tasks w) = true
    /\ awaited user_id (_awaiting_tasks w') = false.
Proof.
  unfold on_text.
  destruct (awaited user_id (_awaiting_tasks w)) eqn:Ha; [|discriminate].
  cbn [negb].
  destruct (_tz ZoneInfo_of (users_db w) user_id) as [[tz|e] db];
    [|discriminate].
  destruct parsed as [|p parsed']; [discriminate|].
  destruct (prioritize _ _ tz) as [priorities|e] eqn:Hpr; [|discriminate].
  destruct (add_parsed _ user_id now_local (date_of now_local)
              (p :: parsed') priorities []) as [st' [ids|e]] eqn:Ea;
    [|discriminate].
  destruct (Range.build_schedule _ _ _ _) as [bs|e] eqn:Eb; [|discriminate].
  intros H. inversion H. subst w' bs. clear H.
  exists tz, priorities. cbn [fst tasks_db jobs _awaiting_tasks].
  split; [reflexivity|]. split; [exact Hpr|].
  split; [|split; [reflexivity|split; [reflexivity|]]].
  - apply add_parsed_returns in Ea. apply Range.build_schedule_returns in Eb.
    unfold Replan.on_text, plan_today, store_plan. rewrite Ea, Eb.
    reflexivity.
  - unfold awaited, discard. clear.
    induction (_awaiting_tasks w) as [|k l IH]; [reflexivity|].
    cbn [filter]. destruct (Z.eqb_spec k user_id) as [->|Hk]; cbn [negb].
    + exact IH.
    + cbn [existsb]. rewrite IH, orb_false_r.
      apply Z.eqb_neq. congruence.
Qed.

End Handler.
